(** * skcms: the ICC profile decoder of [src/ICCProfile.c]

    A shallow embedding of the profile parser and of the tag readers, and the
    properties of the decoder that the specification states.

    Conventions of the embedding.
    - The profile bytes are a [list byte]; a C pointer into the buffer is the
      offset (a [Z]) from its first byte, and a possibly-NULL pointer is an
      [option].
    - A read outside the buffer is undefined behaviour in C.  Every reader
      returns an [option]: [None] is exactly "some byte read lay outside the
      buffer".  All functions that read are written in the option monad.
    - [uint16_t], [uint32_t], [uint64_t] are [Z] with the wrap-around written
      out ([wrap32], [wrap64]); [float] is IEEE-754 binary32, carried by
      [spec_float] with precision 24 and maximal exponent 128.
    - A C function [bool f(..., T* out)] becomes a function returning
      [option (bool * T)]: the flag and the contents of [*out] afterwards. *)

From Stdlib Require Import ZArith Lia Bool List QArith Qabs Reals Qreals Lra.
From Stdlib Require Import Strings.Byte.
From Stdlib Require Import Floats.SpecFloat.
From stdpp Require Import base option list.

Local Open Scope Z_scope.

(** ** Machine integers *)

Definition wrap16 (z : Z) : Z := z mod 2 ^ 16.
Definition wrap32 (z : Z) : Z := z mod 2 ^ 32.
Definition wrap64 (z : Z) : Z := z mod 2 ^ 64.

(** [(int32_t)u] for a 32-bit unsigned [u]. *)
Definition to_int32 (u : Z) : Z := if u <? 2 ^ 31 then u else u - 2 ^ 32.

(** ** binary32 *)

Module F32.
Definition prec : Z := 24.
Definition emax : Z := 128.

Definition of_Z (z : Z) : spec_float := binary_normalize prec emax z 0 false.
Definition mul : spec_float -> spec_float -> spec_float := SFmul prec emax.
Definition div : spec_float -> spec_float -> spec_float := SFdiv prec emax.
Definition sub : spec_float -> spec_float -> spec_float := SFsub prec emax.
Definition neg : spec_float -> spec_float := SFopp.
Definition fabsf : spec_float -> spec_float := SFabs.
Definition eqb : spec_float -> spec_float -> bool := SFeqb.
Definition gtb (x y : spec_float) : bool := SFltb y x.

Definition zero : spec_float := S754_zero false.
Definition one : spec_float := of_Z 1.

(** Decimal literals of the source: a quotient of two exactly representable
    integers is rounded once, to the nearest binary32, as the literal is. *)
Definition lit (num den : Z) : spec_float := div (of_Z num) (of_Z den).

(** The exact value of a finite binary32, as a rational. *)
Definition to_Q (x : spec_float) : Q :=
  match x with
  | S754_finite s m e =>
      let v := if 0 <=? e then inject_Z (Z.pos m * 2 ^ e)
               else Qmake (Z.pos m) (Z.to_pos (2 ^ (- e))) in
      if s then Qopp v else v
  | _ => 0%Q
  end.
End F32.

(** ** The byte reader *)

Definition read_u8 (mem : list byte) (ptr : Z) : option Z :=
  if ptr <? 0 then None
  else b ← mem !! Z.to_nat ptr; Some (Z.of_N (Byte.to_N b)).

Definition make_signature (a b c d : Z) : Z :=
  Z.lor (Z.lor (Z.lor (wrap32 (Z.shiftl a 24)) (wrap32 (Z.shiftl b 16)))
               (wrap32 (Z.shiftl c 8)))
        (wrap32 (Z.shiftl d 0)).

Definition read_big_u16 (mem : list byte) (ptr : Z) : option Z :=
  b0 ← read_u8 mem ptr;
  b1 ← read_u8 mem (ptr + 1);
  Some (Z.lor (Z.shiftl b0 8) b1).

Definition read_big_u32 (mem : list byte) (ptr : Z) : option Z :=
  b0 ← read_u8 mem ptr;
  b1 ← read_u8 mem (ptr + 1);
  b2 ← read_u8 mem (ptr + 2);
  b3 ← read_u8 mem (ptr + 3);
  Some (Z.lor (Z.lor (Z.lor (Z.shiftl b0 24) (Z.shiftl b1 16)) (Z.shiftl b2 8)) b3).

Definition read_big_i32 (mem : list byte) (ptr : Z) : option Z :=
  u ← read_big_u32 mem ptr; Some (to_int32 u).

Definition read_big_u64 (mem : list byte) (ptr : Z) : option Z :=
  hi ← read_big_u32 mem ptr;
  lo ← read_big_u32 mem (ptr + 4);
  Some (Z.lor (Z.shiftl hi 32) lo).

(** [read_big_i32(ptr) * (1.0f / 65536.0f)] *)
Definition fixed_of_i32 (i : Z) : spec_float :=
  F32.mul (F32.of_Z i) (F32.div F32.one (F32.of_Z 65536)).

Definition read_big_fixed (mem : list byte) (ptr : Z) : option spec_float :=
  i ← read_big_i32 mem ptr; Some (fixed_of_i32 i).

(** [read_big_u16(ptr) * (1.0f / 256.0f)] *)
Definition gamma_of_u16 (u : Z) : spec_float :=
  F32.mul (F32.of_Z u) (F32.div F32.one (F32.of_Z 256)).

Record skcms_ICCDateTime := {
  year : Z; month : Z; day : Z; hour : Z; minute : Z; second : Z
}.

Definition read_big_date_time (mem : list byte) (ptr : Z) : option skcms_ICCDateTime :=
  y ← read_big_u16 mem (ptr + 0);
  mo ← read_big_u16 mem (ptr + 2);
  d ← read_big_u16 mem (ptr + 4);
  h ← read_big_u16 mem (ptr + 6);
  mi ← read_big_u16 mem (ptr + 8);
  s ← read_big_u16 mem (ptr + 10);
  Some {| year := y; month := mo; day := d; hour := h; minute := mi; second := s |}.

(** [memcpy(dst, mem + ptr, n)]: the [n] bytes at [ptr]. *)
Fixpoint read_bytes (mem : list byte) (ptr : Z) (n : nat) : option (list byte) :=
  match n with
  | O => Some []
  | S n' =>
      if ptr <? 0 then None
      else b ← mem !! Z.to_nat ptr;
           bs ← read_bytes mem (ptr + 1) n';
           Some (b :: bs)
  end.

(** ** Layouts of the on-disk structures

    Every member of the [_Layout] structs is an array of [uint8_t], so the
    structs have no padding: a member's offset is the sum of the sizes before
    it, and [sizeof] is the sum of all sizes (a flexible array counts 0). *)

(** Modelled from the spec: [SAFE_SIZEOF] of Macros.h, which is not under
    src/.  It is [(uint64_t)sizeof(x)]: the decoder stores its results in
    [uint64_t] variables and mixes it with [uint32_t] operands, and the
    specification asks for sums that do not wrap at 32 bits. *)
Definition SAFE_SIZEOF (sizeof_x : Z) : Z := wrap64 sizeof_x.

Module header_Layout.
Definition size : Z := 0.
Definition cmm_type : Z := 4.
Definition version : Z := 8.
Definition profile_class : Z := 12.
Definition data_color_space : Z := 16.
Definition pcs : Z := 20.
Definition creation_date_time : Z := 24.
Definition signature : Z := 36.
Definition platform : Z := 40.
Definition flags : Z := 44.
Definition device_manufacturer : Z := 48.
Definition device_model : Z := 52.
Definition device_attributes : Z := 56.
Definition rendering_intent : Z := 64.
Definition illuminant_X : Z := 68.
Definition illuminant_Y : Z := 72.
Definition illuminant_Z : Z := 76.
Definition creator : Z := 80.
Definition profile_id : Z := 84.
Definition reserved : Z := 100.
Definition tag_count : Z := 128.
Definition sizeof : Z := 132.
End header_Layout.

Module tag_Layout.
Definition signature : Z := 0.
Definition offset : Z := 4.
Definition size : Z := 8.
Definition sizeof : Z := 12.
End tag_Layout.

Module XYZ_Layout.
Definition type : Z := 0.
Definition reserved : Z := 4.
Definition X : Z := 8.
Definition Y : Z := 12.
Definition Z_ : Z := 16.
Definition sizeof : Z := 20.
End XYZ_Layout.

Module para_Layout.
Definition type : Z := 0.
Definition reserved_a : Z := 4.
Definition function_type : Z := 8.
Definition reserved_b : Z := 10.
Definition parameters : Z := 12.
Definition sizeof : Z := 12.
End para_Layout.

Module curv_Layout.
Definition type : Z := 0.
Definition reserved : Z := 4.
Definition value_count : Z := 8.
Definition parameters : Z := 12.
Definition sizeof : Z := 12.
End curv_Layout.

Module mft_CommonLayout.
Definition type : Z := 0.
Definition reserved_a : Z := 4.
Definition input_channels : Z := 8.
Definition output_channels : Z := 9.
Definition grid_points : Z := 10.
Definition reserved_b : Z := 11.
Definition matrix : Z := 12.
Definition sizeof : Z := 48.
End mft_CommonLayout.

Module mft1_Layout.
Definition common : Z := 0.
Definition tables : Z := 48.
Definition sizeof : Z := 48.
End mft1_Layout.

Module mft2_Layout.
Definition common : Z := 0.
Definition input_table_size : Z := 48.
Definition output_table_size : Z := 50.
Definition tables : Z := 52.
Definition sizeof : Z := 52.
End mft2_Layout.

(** ** In-memory records *)

(** Row-major: [vals m] is the list of the three rows. *)
Record skcms_Matrix3x3 := { vals : list (list spec_float) }.

Definition Matrix3x3_zero : skcms_Matrix3x3 :=
  {| vals := replicate 3 (replicate 3 F32.zero) |}.

(** [m->vals[r][c] = v] *)
Definition set_val (r c : nat) (v : spec_float) (m : skcms_Matrix3x3) : skcms_Matrix3x3 :=
  {| vals := alter (fun row => <[c := v]> row) r (vals m) |}.

(** [m->vals[r][c]] *)
Definition get_val (m : skcms_Matrix3x3) (r c : nat) : option spec_float :=
  row ← vals m !! r; row !! c.

Record skcms_TransferFunction := {
  tf_g : spec_float; tf_a : spec_float; tf_b : spec_float; tf_c : spec_float;
  tf_d : spec_float; tf_e : spec_float; tf_f : spec_float
}.

Definition TransferFunction_zero : skcms_TransferFunction :=
  {| tf_g := F32.zero; tf_a := F32.zero; tf_b := F32.zero; tf_c := F32.zero;
     tf_d := F32.zero; tf_e := F32.zero; tf_f := F32.zero |}.

#[global] Instance spec_float_eq_dec : EqDecision spec_float.
Proof. solve_decision. Defined.

#[global] Instance skcms_TransferFunction_eq_dec : EqDecision skcms_TransferFunction.
Proof. solve_decision. Defined.

(** [0 == memcmp(&x, &y, sizeof(x))] on two transfer functions: seven floats
    without padding, compared bit for bit.  Two binary32 that are not NaN
    have the same bits exactly when they are the same [spec_float] (the sign
    of a zero included), and no parameter of a curve that [read_curve]
    returns is a NaN ([read_curve_no_nan]). *)
Definition memcmp_eq (x y : skcms_TransferFunction) : bool := bool_decide (x = y).

(** Unified representation of any 'curv' or 'para' tag data.  [table] is
    [NULL] or a pointer into the buffer. *)
Record Curve := {
  parametric : skcms_TransferFunction;
  table : option Z;
  table_size : Z
}.

Record skcms_ICCTag := {
  tag_signature : Z;
  tag_type : Z;
  tag_size : Z;
  tag_buf : Z
}.

(** Modelled from the spec: the declaration of [skcms_ICCProfile] that
    ICCProfile.c is compiled against is not under src/ (skcms.h there is of
    another revision).  The record has every member [skcms_Parse] assigns,
    and [has_A2B], the third cached flag of skcms.h and of the specification
    (has_trc, has_toXYZD50, has_A2B); [has_tf] is the flag the specification
    calls has_trc.  [buffer] is [None] for a NULL pointer. *)
Record skcms_ICCProfile := {
  buffer : option (list byte);
  size : Z;
  cmm_type : Z;
  version : Z;
  profile_class : Z;
  data_color_space : Z;
  pcs : Z;
  creation_date_time : skcms_ICCDateTime;
  signature : Z;
  platform : Z;
  flags : Z;
  device_manufacturer : Z;
  device_model : Z;
  device_attributes : Z;
  rendering_intent : Z;
  illuminant_X : spec_float;
  illuminant_Y : spec_float;
  illuminant_Z : spec_float;
  creator : Z;
  profile_id : list byte;
  tag_count : Z;
  has_tf : bool;
  tf : skcms_TransferFunction;
  has_toXYZD50 : bool;
  toXYZD50 : skcms_Matrix3x3;
  has_A2B : bool
}.

(** The profile after [memset(profile, 0, ...)] over the whole record. *)
Definition ICCProfile_zero : skcms_ICCProfile :=
  {| buffer := None; size := 0; cmm_type := 0; version := 0; profile_class := 0;
     data_color_space := 0; pcs := 0;
     creation_date_time :=
       {| year := 0; month := 0; day := 0; hour := 0; minute := 0; second := 0 |};
     signature := 0; platform := 0; flags := 0; device_manufacturer := 0;
     device_model := 0; device_attributes := 0; rendering_intent := 0;
     illuminant_X := F32.zero; illuminant_Y := F32.zero; illuminant_Z := F32.zero;
     creator := 0; profile_id := replicate 16 x00; tag_count := 0;
     has_tf := false; tf := TransferFunction_zero;
     has_toXYZD50 := false; toXYZD50 := Matrix3x3_zero;
     has_A2B := false |}.

Definition set_tf (b : bool) (t : skcms_TransferFunction) (p : skcms_ICCProfile)
  : skcms_ICCProfile :=
  {| buffer := buffer p; size := size p; cmm_type := cmm_type p; version := version p;
     profile_class := profile_class p; data_color_space := data_color_space p;
     pcs := pcs p; creation_date_time := creation_date_time p;
     signature := signature p; platform := platform p; flags := flags p;
     device_manufacturer := device_manufacturer p; device_model := device_model p;
     device_attributes := device_attributes p; rendering_intent := rendering_intent p;
     illuminant_X := illuminant_X p; illuminant_Y := illuminant_Y p;
     illuminant_Z := illuminant_Z p; creator := creator p; profile_id := profile_id p;
     tag_count := tag_count p;
     has_tf := b; tf := t;
     has_toXYZD50 := has_toXYZD50 p; toXYZD50 := toXYZD50 p;
     has_A2B := has_A2B p |}.

Definition set_toXYZD50 (b : bool) (m : skcms_Matrix3x3) (p : skcms_ICCProfile)
  : skcms_ICCProfile :=
  {| buffer := buffer p; size := size p; cmm_type := cmm_type p; version := version p;
     profile_class := profile_class p; data_color_space := data_color_space p;
     pcs := pcs p; creation_date_time := creation_date_time p;
     signature := signature p; platform := platform p; flags := flags p;
     device_manufacturer := device_manufacturer p; device_model := device_model p;
     device_attributes := device_attributes p; rendering_intent := rendering_intent p;
     illuminant_X := illuminant_X p; illuminant_Y := illuminant_Y p;
     illuminant_Z := illuminant_Z p; creator := creator p; profile_id := profile_id p;
     tag_count := tag_count p;
     has_tf := has_tf p; tf := tf p;
     has_toXYZD50 := b; toXYZD50 := m;
     has_A2B := has_A2B p |}.

(** ** Tag lookup *)

(** The code of a character constant. *)
Definition chr (c : byte) : Z := Z.of_N (Byte.to_N c).

Definition sig_acsp : Z := make_signature (chr "a") (chr "c") (chr "s") (chr "p").
Definition sig_XYZ : Z := make_signature (chr "X") (chr "Y") (chr "Z") (chr " ").
Definition sig_rXYZ : Z := make_signature (chr "r") (chr "X") (chr "Y") (chr "Z").
Definition sig_gXYZ : Z := make_signature (chr "g") (chr "X") (chr "Y") (chr "Z").
Definition sig_bXYZ : Z := make_signature (chr "b") (chr "X") (chr "Y") (chr "Z").
Definition sig_rTRC : Z := make_signature (chr "r") (chr "T") (chr "R") (chr "C").
Definition sig_gTRC : Z := make_signature (chr "g") (chr "T") (chr "R") (chr "C").
Definition sig_bTRC : Z := make_signature (chr "b") (chr "T") (chr "R") (chr "C").
Definition sig_para : Z := make_signature (chr "p") (chr "a") (chr "r") (chr "a").
Definition sig_curv : Z := make_signature (chr "c") (chr "u") (chr "r") (chr "v").
Definition sig_A2B0 : Z := make_signature (chr "A") (chr "2") (chr "B") (chr "0").
Definition sig_mft1 : Z := make_signature (chr "m") (chr "f") (chr "t") (chr "1").
Definition sig_mft2 : Z := make_signature (chr "m") (chr "f") (chr "t") (chr "2").

(** [get_tag_table(profile)]: the tag table starts right after the header. *)
Definition get_tag_table : Z := SAFE_SIZEOF header_Layout.sizeof.

(** [&tags[i]] *)
Definition tag_entry (i : Z) : Z := get_tag_table + i * tag_Layout.sizeof.

(** The body of [skcms_GetTagByIndex] and of the match in
    [skcms_GetTagBySignature]: fill [tag] from entry [i]. *)
Definition load_tag (mem : list byte) (sig : Z) (i : Z) : option skcms_ICCTag :=
  sz ← read_big_u32 mem (tag_entry i + tag_Layout.size);
  off ← read_big_u32 mem (tag_entry i + tag_Layout.offset);
  ty ← read_big_u32 mem off;
  Some {| tag_signature := sig; tag_type := ty; tag_size := sz; tag_buf := off |}.

Definition skcms_GetTagByIndex (profile : skcms_ICCProfile) (idx : Z) (tag : skcms_ICCTag)
  : option skcms_ICCTag :=
  match buffer profile with
  | None => Some tag
  | Some mem =>
      if idx >? tag_count profile then Some tag
      else
        sig ← read_big_u32 mem (tag_entry idx + tag_Layout.signature);
        load_tag mem sig idx
  end.

(** The loop of [skcms_GetTagBySignature], with [n] iterations left and the
    counter at [i] ([i < tag_count], so [++i] does not wrap). *)
Fixpoint find_tag (mem : list byte) (sig : Z) (n : nat) (i : Z) (tag : skcms_ICCTag)
  : option (bool * skcms_ICCTag) :=
  match n with
  | O => Some (false, tag)
  | S n' =>
      s ← read_big_u32 mem (tag_entry i + tag_Layout.signature);
      if s =? sig then
        t ← load_tag mem sig i; Some (true, t)
      else find_tag mem sig n' (i + 1) tag
  end.

Definition skcms_GetTagBySignature (profile : skcms_ICCProfile) (sig : Z) (tag : skcms_ICCTag)
  : option (bool * skcms_ICCTag) :=
  match buffer profile with
  | None => Some (false, tag)
  | Some mem => find_tag mem sig (Z.to_nat (tag_count profile)) 0 tag
  end.

(** The bytes that a tag's [buf] pointer points into: a tag is only ever
    produced from a profile whose [buffer] is not NULL. *)
Definition bytes_of (profile : skcms_ICCProfile) : list byte :=
  default [] (buffer profile).

(** The contents of a local [skcms_ICCTag] before it is written.  The callers
    below read a local tag only after a lookup that returned true, which has
    assigned all four members. *)
Definition ICCTag_uninit : skcms_ICCTag :=
  {| tag_signature := 0; tag_type := 0; tag_size := 0; tag_buf := 0 |}.

(** ** XYZ tags and the gamut matrix *)

(** [read_tag_xyz(tag, &m->vals[0][col], &m->vals[1][col], &m->vals[2][col])] *)
Definition read_tag_xyz (mem : list byte) (tag : skcms_ICCTag) (col : nat)
    (m : skcms_Matrix3x3) : option (bool * skcms_Matrix3x3) :=
  if (tag_type tag =? sig_XYZ) && (SAFE_SIZEOF XYZ_Layout.sizeof <=? tag_size tag) then
    x ← read_big_fixed mem (tag_buf tag + XYZ_Layout.X);
    y ← read_big_fixed mem (tag_buf tag + XYZ_Layout.Y);
    z ← read_big_fixed mem (tag_buf tag + XYZ_Layout.Z_);
    Some (true, set_val 2 col z (set_val 1 col y (set_val 0 col x m)))
  else Some (false, m).

Definition read_to_XYZD50 (profile : skcms_ICCProfile) (toXYZ : skcms_Matrix3x3)
  : option (bool * skcms_Matrix3x3) :=
  '(okr, rXYZ) ← skcms_GetTagBySignature profile sig_rXYZ ICCTag_uninit;
  if negb okr then Some (false, toXYZ) else
  '(okg, gXYZ) ← skcms_GetTagBySignature profile sig_gXYZ ICCTag_uninit;
  if negb okg then Some (false, toXYZ) else
  '(okb, bXYZ) ← skcms_GetTagBySignature profile sig_bXYZ ICCTag_uninit;
  if negb okb then Some (false, toXYZ) else
  let mem := bytes_of profile in
  '(r1, m1) ← read_tag_xyz mem rXYZ 0 toXYZ;
  if negb r1 then Some (false, m1) else
  '(r2, m2) ← read_tag_xyz mem gXYZ 1 m1;
  if negb r2 then Some (false, m2) else
  read_tag_xyz mem bXYZ 2 m2.

(** ** Curves: 'para' and 'curv' tags *)

Definition set_parametric (t : skcms_TransferFunction) (c : Curve) : Curve :=
  {| parametric := t; table := table c; table_size := table_size c |}.

(** [enum { kG = 0, kGAB = 1, kGABC = 2, kGABCD = 3, kGABCDEF = 4 }] *)
Definition kG : Z := 0.
Definition kGAB : Z := 1.
Definition kGABC : Z := 2.
Definition kGABCD : Z := 3.
Definition kGABCDEF : Z := 4.

Definition curve_bytes : list Z := [4; 12; 16; 20; 28].

Definition read_curve_para (mem : list byte) (buf : Z) (size : Z) (curve : Curve)
  : option (bool * Curve) :=
  if size <? SAFE_SIZEOF para_Layout.sizeof then Some (false, curve) else
  function_type ← read_big_u16 mem (buf + para_Layout.function_type);
  if function_type >? kGABCDEF then Some (false, curve) else
  nbytes ← curve_bytes !! Z.to_nat function_type;
  if size <? wrap64 (SAFE_SIZEOF para_Layout.sizeof + nbytes) then Some (false, curve) else
  let params := buf + para_Layout.parameters in
  g ← read_big_fixed mem params;
  let t0 := {| tf_g := g; tf_a := F32.one; tf_b := F32.zero; tf_c := F32.zero;
               tf_d := F32.zero; tf_e := F32.zero; tf_f := F32.zero |} in
  let curve0 := {| parametric := t0; table := None; table_size := 0 |} in
  if function_type =? kGAB then
    a ← read_big_fixed mem (params + 4);
    b ← read_big_fixed mem (params + 8);
    let t1 := {| tf_g := g; tf_a := a; tf_b := b; tf_c := F32.zero;
                 tf_d := F32.zero; tf_e := F32.zero; tf_f := F32.zero |} in
    if F32.eqb a F32.zero then Some (false, set_parametric t1 curve0)
    else Some (true, set_parametric
                 {| tf_g := g; tf_a := a; tf_b := b; tf_c := F32.zero;
                    tf_d := F32.div (F32.neg b) a;
                    tf_e := F32.zero; tf_f := F32.zero |} curve0)
  else if function_type =? kGABC then
    a ← read_big_fixed mem (params + 4);
    b ← read_big_fixed mem (params + 8);
    e ← read_big_fixed mem (params + 12);
    let t1 := {| tf_g := g; tf_a := a; tf_b := b; tf_c := F32.zero;
                 tf_d := F32.zero; tf_e := e; tf_f := F32.zero |} in
    if F32.eqb a F32.zero then Some (false, set_parametric t1 curve0)
    else Some (true, set_parametric
                 {| tf_g := g; tf_a := a; tf_b := b; tf_c := F32.zero;
                    tf_d := F32.div (F32.neg b) a;
                    tf_e := e; tf_f := e |} curve0)
  else if function_type =? kGABCD then
    a ← read_big_fixed mem (params + 4);
    b ← read_big_fixed mem (params + 8);
    c ← read_big_fixed mem (params + 12);
    d ← read_big_fixed mem (params + 16);
    Some (true, set_parametric
            {| tf_g := g; tf_a := a; tf_b := b; tf_c := c; tf_d := d;
               tf_e := F32.zero; tf_f := F32.zero |} curve0)
  else if function_type =? kGABCDEF then
    a ← read_big_fixed mem (params + 4);
    b ← read_big_fixed mem (params + 8);
    c ← read_big_fixed mem (params + 12);
    d ← read_big_fixed mem (params + 16);
    e ← read_big_fixed mem (params + 20);
    f ← read_big_fixed mem (params + 24);
    Some (true, set_parametric
            {| tf_g := g; tf_a := a; tf_b := b; tf_c := c; tf_d := d;
               tf_e := e; tf_f := f |} curve0)
  else Some (true, curve0).

Definition read_curve_curv (mem : list byte) (buf : Z) (size : Z) (curve : Curve)
  : option (bool * Curve) :=
  if size <? SAFE_SIZEOF curv_Layout.sizeof then Some (false, curve) else
  value_count ← read_big_u32 mem (buf + curv_Layout.value_count);
  if size <? wrap64 (SAFE_SIZEOF curv_Layout.sizeof
                     + wrap64 (value_count * SAFE_SIZEOF 2))
  then Some (false, curve) else
  if value_count <? 2 then
    if value_count =? 0 then
      (* Empty tables are a shorthand for linear *)
      Some (true, {| parametric :=
                       {| tf_g := F32.one; tf_a := F32.one; tf_b := F32.zero;
                          tf_c := F32.zero; tf_d := F32.zero; tf_e := F32.zero;
                          tf_f := F32.zero |};
                     table := None; table_size := 0 |})
    else
      (* Single entry tables are a shorthand for simple gamma *)
      u ← read_big_u16 mem (buf + curv_Layout.parameters);
      Some (true, {| parametric :=
                       {| tf_g := gamma_of_u16 u;
                          tf_a := F32.one; tf_b := F32.zero;
                          tf_c := F32.zero; tf_d := F32.zero; tf_e := F32.zero;
                          tf_f := F32.zero |};
                     table := None; table_size := 0 |})
  else
    Some (true, {| parametric := TransferFunction_zero;
                   table := Some (buf + curv_Layout.parameters);
                   table_size := value_count |}).

(** Parses both curveType and parametricCurveType data.  [buf] is a tag's
    pointer and [curve] the address of a local, neither is NULL. *)
Definition read_curve (mem : list byte) (buf : Z) (size : Z) (curve : Curve)
  : option (bool * Curve) :=
  if size <? 4 then Some (false, curve) else
  type ← read_big_u32 mem buf;
  if type =? sig_para then read_curve_para mem buf size curve
  else if type =? sig_curv then read_curve_curv mem buf size curve
  else Some (false, curve).

(** The contents of a local [Curve] before it is written; see
    [read_curve_overwrites]: a successful [read_curve] assigns every member. *)
Definition Curve_uninit : Curve :=
  {| parametric := TransferFunction_zero; table := None; table_size := 0 |}.

Definition get_transfer_function (profile : skcms_ICCProfile)
    (transferFunction : skcms_TransferFunction)
  : option (bool * skcms_TransferFunction) :=
  '(okr, rTRC) ← skcms_GetTagBySignature profile sig_rTRC ICCTag_uninit;
  if negb okr then Some (false, transferFunction) else
  '(okg, gTRC) ← skcms_GetTagBySignature profile sig_gTRC ICCTag_uninit;
  if negb okg then Some (false, transferFunction) else
  '(okb, bTRC) ← skcms_GetTagBySignature profile sig_bTRC ICCTag_uninit;
  if negb okb then Some (false, transferFunction) else
  let mem := bytes_of profile in
  '(r1, rCurve) ← read_curve mem (tag_buf rTRC) (tag_size rTRC) Curve_uninit;
  if negb r1 || bool_decide (table rCurve <> None) then Some (false, transferFunction) else
  '(r2, gCurve) ← read_curve mem (tag_buf gTRC) (tag_size gTRC) Curve_uninit;
  if negb r2 || bool_decide (table gCurve <> None) then Some (false, transferFunction) else
  '(r3, bCurve) ← read_curve mem (tag_buf bTRC) (tag_size bTRC) Curve_uninit;
  if negb r3 || bool_decide (table bCurve <> None) then Some (false, transferFunction) else
  if negb (memcmp_eq (parametric rCurve) (parametric gCurve))
     || negb (memcmp_eq (parametric rCurve) (parametric bCurve))
  then Some (false, transferFunction)
  else Some (true, parametric rCurve).

(** ** A2B0: 'mft1' and 'mft2' multi-function tables *)

(** Modelled from the spec: the declaration of [skcms_MultiFunctionTable]
    is not under src/.  The record has the members ICCProfile.c assigns; the
    arrays [input_tables] and [output_tables] hold 4 and 3 pointers ("no more
    than four (ie CMYK) input channels", "exactly three output channels"),
    which is what [ARRAY_COUNT] of Macros.h yields for them. *)
Record skcms_MultiFunctionTable := {
  matrix : skcms_Matrix3x3;
  input_channels : Z;
  grid_points : Z;
  output_channels : Z;
  input_table_size : Z;
  output_table_size : Z;
  table_byte_width : Z;
  input_tables : list (option Z);
  grid : option Z;
  output_tables : list (option Z)
}.

Definition ARRAY_COUNT_input_tables : Z := 4.
Definition ARRAY_COUNT_output_tables : Z := 3.

(** The nine [read_big_fixed(mtx_ptr); mtx_ptr += sizeof(uint32_t)] of the
    two nested loops, in row-major order. *)
Fixpoint read_matrix_cols (mem : list byte) (mtx_ptr : Z) (r : nat) (ncols : nat) (c : nat)
    (m : skcms_Matrix3x3) : option (Z * skcms_Matrix3x3) :=
  match ncols with
  | O => Some (mtx_ptr, m)
  | S n' =>
      v ← read_big_fixed mem mtx_ptr;
      read_matrix_cols mem (mtx_ptr + 4) r n' (S c) (set_val r c v m)
  end.

Fixpoint read_matrix_rows (mem : list byte) (mtx_ptr : Z) (nrows : nat) (r : nat)
    (m : skcms_Matrix3x3) : option (Z * skcms_Matrix3x3) :=
  match nrows with
  | O => Some (mtx_ptr, m)
  | S n' =>
      '(p, m') ← read_matrix_cols mem mtx_ptr r 3 0 m;
      read_matrix_rows mem p n' (S r) m'
  end.

Definition read_mft_common (mem : list byte) (mftTag : Z) (mft : skcms_MultiFunctionTable)
  : option (bool * skcms_MultiFunctionTable) :=
  '(_, mtx) ← read_matrix_rows mem (mftTag + mft_CommonLayout.matrix) 3 0 (matrix mft);
  ic ← read_u8 mem (mftTag + mft_CommonLayout.input_channels);
  gp ← read_u8 mem (mftTag + mft_CommonLayout.grid_points);
  oc ← read_u8 mem (mftTag + mft_CommonLayout.output_channels);
  let mft' :=
    {| matrix := mtx; input_channels := ic; grid_points := gp; output_channels := oc;
       input_table_size := input_table_size mft;
       output_table_size := output_table_size mft;
       table_byte_width := table_byte_width mft;
       input_tables := input_tables mft; grid := grid mft;
       output_tables := output_tables mft |} in
  (* We require exactly three (ie XYZ/Lab/RGB) output channels *)
  if negb (oc =? ARRAY_COUNT_output_tables) then Some (false, mft') else
  (* We require at least one, and no more than four (ie CMYK) input channels *)
  if (ic <? 1) || (ic >? ARRAY_COUNT_input_tables) then Some (false, mft') else
  (* The grid only makes sense with at least two points along each axis *)
  if gp <? 2 then Some (false, mft') else
  Some (true, mft').

(** [for (axis = 0; axis < input_channels; ++axis) grid_size *= grid_points;] *)
Fixpoint grid_size_loop (axes : nat) (grid_points : Z) (grid_size : Z) : Z :=
  match axes with
  | O => grid_size
  | S n' => grid_size_loop n' grid_points (wrap64 (grid_size * grid_points))
  end.

(** [for (i = 0; i < n; ++i) tables[i] = base + i * stride;] *)
Fixpoint set_tables (n : nat) (i : nat) (base stride : Z) (tables : list (option Z))
  : list (option Z) :=
  match n with
  | O => tables
  | S n' =>
      set_tables n' (S i) base stride
        (<[i := Some (base + wrap64 (Z.of_nat i * stride))]> tables)
  end.

Definition set_sizes (its ots w : Z) (mft : skcms_MultiFunctionTable)
  : skcms_MultiFunctionTable :=
  {| matrix := matrix mft; input_channels := input_channels mft;
     grid_points := grid_points mft; output_channels := output_channels mft;
     input_table_size := its; output_table_size := ots; table_byte_width := w;
     input_tables := input_tables mft; grid := grid mft;
     output_tables := output_tables mft |}.

Definition init_mft_tables (table_base : Z) (max_tables_len : Z)
    (mft : skcms_MultiFunctionTable) : bool * skcms_MultiFunctionTable :=
  let byte_len_per_input_table := wrap64 (input_table_size mft * table_byte_width mft) in
  let byte_len_per_output_table := wrap64 (output_table_size mft * table_byte_width mft) in
  let byte_len_all_input_tables := wrap64 (input_channels mft * byte_len_per_input_table) in
  let byte_len_all_output_tables := wrap64 (output_channels mft * byte_len_per_output_table) in
  let grid_size :=
    grid_size_loop (Z.to_nat (input_channels mft)) (grid_points mft)
      (wrap64 (output_channels mft * table_byte_width mft)) in
  if max_tables_len
       <? wrap64 (wrap64 (byte_len_all_input_tables + grid_size) + byte_len_all_output_tables)
  then (false, mft)
  else
    (true,
     {| matrix := matrix mft; input_channels := input_channels mft;
        grid_points := grid_points mft; output_channels := output_channels mft;
        input_table_size := input_table_size mft;
        output_table_size := output_table_size mft;
        table_byte_width := table_byte_width mft;
        input_tables :=
          set_tables (Z.to_nat (input_channels mft)) 0 table_base
            byte_len_per_input_table (input_tables mft);
        grid := Some (table_base + byte_len_all_input_tables);
        output_tables :=
          set_tables (Z.to_nat ARRAY_COUNT_output_tables) 0
            (table_base + byte_len_all_input_tables + grid_size)
            byte_len_per_output_table (output_tables mft) |}).

Definition read_tag_mft1 (mem : list byte) (tag : skcms_ICCTag)
    (mft : skcms_MultiFunctionTable) : option (bool * skcms_MultiFunctionTable) :=
  if tag_size tag <? SAFE_SIZEOF mft1_Layout.sizeof then Some (false, mft) else
  '(ok, mft1) ← read_mft_common mem (tag_buf tag + mft1_Layout.common) mft;
  if negb ok then Some (false, mft1) else
  Some (init_mft_tables (tag_buf tag + mft1_Layout.tables)
          (wrap64 (tag_size tag - SAFE_SIZEOF mft1_Layout.sizeof))
          (set_sizes 256 256 1 mft1)).

Definition read_tag_mft2 (mem : list byte) (tag : skcms_ICCTag)
    (mft : skcms_MultiFunctionTable) : option (bool * skcms_MultiFunctionTable) :=
  if tag_size tag <? SAFE_SIZEOF mft2_Layout.sizeof then Some (false, mft) else
  '(ok, mft1) ← read_mft_common mem (tag_buf tag + mft2_Layout.common) mft;
  if negb ok then Some (false, mft1) else
  its ← read_big_u16 mem (tag_buf tag + mft2_Layout.input_table_size);
  ots ← read_big_u16 mem (tag_buf tag + mft2_Layout.output_table_size);
  let mft2 := set_sizes its ots 2 mft1 in
  (* ICC spec mandates that tables are sized in [2, 4096] *)
  if (its <? 2) || (its >? 4096) || (ots <? 2) || (ots >? 4096) then Some (false, mft2) else
  Some (init_mft_tables (tag_buf tag + mft2_Layout.tables)
          (wrap64 (tag_size tag - SAFE_SIZEOF mft2_Layout.sizeof)) mft2).

Definition skcms_GetMultiFunctionTable (profile : skcms_ICCProfile)
    (mft : skcms_MultiFunctionTable) : option (bool * skcms_MultiFunctionTable) :=
  '(ok, a2b) ← skcms_GetTagBySignature profile sig_A2B0 ICCTag_uninit;
  if negb ok then Some (false, mft) else
  if tag_type a2b =? sig_mft1 then read_tag_mft1 (bytes_of profile) a2b mft
  else if tag_type a2b =? sig_mft2 then read_tag_mft2 (bytes_of profile) a2b mft
  else Some (false, mft).

(** ** skcms_Parse *)

(** The illuminant test of one coordinate,
    [fabsf(x - c) > 0.0100f], in binary32 arithmetic. *)
Definition off_D50 (x c : spec_float) : bool :=
  F32.gtb (F32.fabsf (F32.sub x c)) (F32.lit 100 10000).

(** The loop that validates the tag table, with [n] entries left and the
    counter at [i]: [false] as soon as an entry is not sane. *)
Fixpoint tags_sane (mem : list byte) (profile_size : Z) (n : nat) (i : Z) : option bool :=
  match n with
  | O => Some true
  | S n' =>
      tag_offset ← read_big_u32 mem (tag_entry i + tag_Layout.offset);
      tag_size ← read_big_u32 mem (tag_entry i + tag_Layout.size);
      let tag_end := wrap64 (tag_offset + tag_size) in
      if (tag_size <? 4) || (tag_end >? profile_size) then Some false
      else tags_sane mem profile_size n' (i + 1)
  end.

(** The block "Byte-swap all header fields" of [skcms_Parse], run on the
    zeroed profile: every header member is assigned, the cached members keep
    the zero of the [memset]. *)
Definition read_header (buf : list byte) : option skcms_ICCProfile :=
  size_ ← read_big_u32 buf header_Layout.size;
  cmm_type_ ← read_big_u32 buf header_Layout.cmm_type;
  version_ ← read_big_u32 buf header_Layout.version;
  profile_class_ ← read_big_u32 buf header_Layout.profile_class;
  data_color_space_ ← read_big_u32 buf header_Layout.data_color_space;
  pcs_ ← read_big_u32 buf header_Layout.pcs;
  creation_date_time_ ← read_big_date_time buf header_Layout.creation_date_time;
  signature_ ← read_big_u32 buf header_Layout.signature;
  platform_ ← read_big_u32 buf header_Layout.platform;
  flags_ ← read_big_u32 buf header_Layout.flags;
  device_manufacturer_ ← read_big_u32 buf header_Layout.device_manufacturer;
  device_model_ ← read_big_u32 buf header_Layout.device_model;
  device_attributes_ ← read_big_u64 buf header_Layout.device_attributes;
  rendering_intent_ ← read_big_u32 buf header_Layout.rendering_intent;
  illuminant_X_ ← read_big_fixed buf header_Layout.illuminant_X;
  illuminant_Y_ ← read_big_fixed buf header_Layout.illuminant_Y;
  illuminant_Z_ ← read_big_fixed buf header_Layout.illuminant_Z;
  creator_ ← read_big_u32 buf header_Layout.creator;
  profile_id_ ← read_bytes buf header_Layout.profile_id 16;
  tag_count_ ← read_big_u32 buf header_Layout.tag_count;
  Some
    {| buffer := Some buf; size := size_; cmm_type := cmm_type_; version := version_;
       profile_class := profile_class_; data_color_space := data_color_space_;
       pcs := pcs_; creation_date_time := creation_date_time_;
       signature := signature_; platform := platform_; flags := flags_;
       device_manufacturer := device_manufacturer_; device_model := device_model_;
       device_attributes := device_attributes_; rendering_intent := rendering_intent_;
       illuminant_X := illuminant_X_; illuminant_Y := illuminant_Y_;
       illuminant_Z := illuminant_Z_; creator := creator_; profile_id := profile_id_;
       tag_count := tag_count_;
       has_tf := has_tf ICCProfile_zero; tf := tf ICCProfile_zero;
       has_toXYZD50 := has_toXYZD50 ICCProfile_zero;
       toXYZD50 := toXYZD50 ICCProfile_zero;
       has_A2B := has_A2B ICCProfile_zero |}.

(** [skcms_Parse(buf, len, profile)] for a [profile] that is not NULL: the
    flag returned and the contents of the profile afterwards. *)
Definition skcms_Parse (buf : list byte) (len : Z) : option (bool * skcms_ICCProfile) :=
  if len <? SAFE_SIZEOF header_Layout.sizeof then Some (false, ICCProfile_zero) else
  (* Byte-swap all header fields *)
  profile ← read_header buf;
  (* Validate signature, size (smaller than buffer, large enough to hold tag
     table), and major version *)
  let tag_table_size := wrap64 (tag_count profile * SAFE_SIZEOF tag_Layout.sizeof) in
  if negb (signature profile =? sig_acsp)
     || (size profile >? len)
     || (size profile <? wrap64 (SAFE_SIZEOF header_Layout.sizeof + tag_table_size))
     || (Z.shiftr (version profile) 24 >? 4)
  then Some (false, profile) else
  (* Validate that illuminant is D50 white *)
  if off_D50 (illuminant_X profile) (F32.lit 9642 10000)
     || off_D50 (illuminant_Y profile) (F32.lit 10000 10000)
     || off_D50 (illuminant_Z profile) (F32.lit 8249 10000)
  then Some (false, profile) else
  (* Validate that all tag entries have sane offset + size *)
  sane ← tags_sane buf (size profile) (Z.to_nat (tag_count profile)) 0;
  if negb sane then Some (false, profile) else
  (* Pre-parse commonly used tags. *)
  '(has_tf_, tf_) ← get_transfer_function profile (tf profile);
  let profile := set_tf has_tf_ tf_ profile in
  '(has_toXYZD50_, toXYZD50_) ← read_to_XYZD50 profile (toXYZD50 profile);
  Some (true, set_toXYZD50 has_toXYZD50_ toXYZD50_ profile).

(** ** Test fixtures: building profile bytes *)

Module Fixture.
Definition byte_of (z : Z) : byte := default x00 (Byte.of_N (Z.to_N (z mod 256))).

Definition be16 (z : Z) : list byte := [byte_of (z / 2 ^ 8); byte_of z].

Definition be32 (z : Z) : list byte :=
  [byte_of (z / 2 ^ 24); byte_of (z / 2 ^ 16); byte_of (z / 2 ^ 8); byte_of z].

Definition zeros (n : nat) : list byte := replicate n x00.

(** A 132-byte header: declared size, version word, profile signature,
    illuminant as three s15.16 words, tag count. *)
Definition header (size version sig ix iy iz tag_count : Z) : list byte :=
  be32 size ++ zeros 4 ++ be32 version ++ zeros 24 ++ be32 sig ++ zeros 28
  ++ be32 ix ++ be32 iy ++ be32 iz ++ zeros 48 ++ be32 tag_count.

(** The header of a version 4.3 profile with the D50 illuminant. *)
Definition header_D50 (size tag_count : Z) : list byte :=
  header size 0x04300000 sig_acsp 0x0000F6D6 0x00010000 0x0000D32D tag_count.

Definition entry (sig offset size : Z) : list byte :=
  be32 sig ++ be32 offset ++ be32 size.

(** 'curv' with one entry: a gamma, as 8.8 fixed point. *)
Definition curv_gamma (u : Z) : list byte :=
  be32 sig_curv ++ zeros 4 ++ be32 1 ++ be16 u ++ zeros 2.

(** 'curv' with two entries: a table. *)
Definition curv_table2 (v0 v1 : Z) : list byte :=
  be32 sig_curv ++ zeros 4 ++ be32 2 ++ be16 v0 ++ be16 v1.

Definition xyz (x y z : Z) : list byte :=
  be32 sig_XYZ ++ zeros 4 ++ be32 x ++ be32 y ++ be32 z.

(** No tags at all: the smallest profile that parses. *)
Definition empty_profile : list byte := header_D50 132 0.

(** A matrix/TRC profile: three TRC entries sharing one gamma 2.2 curve at
    offset 204 (16 bytes), and three XYZ tags at 220, 240, 260. *)
Definition gamma_profile : list byte :=
  header_D50 280 6
  ++ entry sig_rTRC 204 16 ++ entry sig_gTRC 204 16 ++ entry sig_bTRC 204 16
  ++ entry sig_rXYZ 220 20 ++ entry sig_gXYZ 240 20 ++ entry sig_bXYZ 260 20
  ++ curv_gamma 0x0233
  ++ xyz 0x00006FA2 0x000038F5 0x00000390
  ++ xyz 0x00006299 0x0000B785 0x000018DA
  ++ xyz 0x000024A0 0x00000F84 0x0000B6CF.

(** The three TRCs are gammas, but red is 2.2 and green and blue are 1.8. *)
Definition mixed_gamma_profile : list byte :=
  header_D50 200 3
  ++ entry sig_rTRC 168 16 ++ entry sig_gTRC 184 16 ++ entry sig_bTRC 184 16
  ++ curv_gamma 0x0233 ++ curv_gamma 0x01CD.

(** The three TRCs are one two-entry table. *)
Definition table_profile : list byte :=
  header_D50 184 3
  ++ entry sig_rTRC 168 16 ++ entry sig_gTRC 168 16 ++ entry sig_bTRC 168 16
  ++ curv_table2 0 65535.

(** An 'mft1' tag: [ic] input channels, 3 output channels, [gp] grid
    points, a zero matrix and [tables] bytes of tables. *)
Definition mft1 (ic gp : Z) (tables : nat) : list byte :=
  be32 sig_mft1 ++ zeros 4 ++ [byte_of ic; byte_of 3; byte_of gp; x00]
  ++ zeros 36 ++ zeros tables.

(** A profile whose only tag is A2B0: 'mft1' with one input channel and a
    two-point grid, 48 + 256 + 3 * 2 + 3 * 256 = 1078 bytes at offset 144. *)
Definition a2b_profile : list byte :=
  header_D50 1222 1 ++ entry sig_A2B0 144 1078 ++ mft1 1 2 1030.

(** The one-byte buffer of the unit test of the parser. *)
Definition one_byte : list byte := [x42].

(** [gamma_profile] with the signature of the header overwritten. *)
Definition bad_signature_profile : list byte :=
  header 132 0x04300000 0 0x0000F6D6 0x00010000 0x0000D32D 0.

(** A valid header and one tag entry whose offset + size is 2^32 + 3. *)
Definition wrapping_entry_profile : list byte :=
  header_D50 144 1 ++ entry sig_rTRC 0xFFFFFFFF 4.
End Fixture.

(** ** The words of the specification *)

(** An s15.16 number: the signed 32-bit integer over 65536. *)
Definition s15_16 (i : Z) : Q := i # 65536.

(** "[x] is within ±0.01 of [c]", in exact arithmetic. *)
Definition within_0_01 (x c : Q) : Prop := (Qabs (x - c) <= 1 # 100)%Q.

(** The header checks of the specification, on the bytes of the buffer. *)
Definition header_valid (buf : list byte) (len : Z) : Prop :=
  132 <= len /\
  exists size version tag_count iX iY iZ,
    read_big_u32 buf 0 = Some size /\
    read_big_u32 buf 8 = Some version /\
    read_big_u32 buf 36 = Some sig_acsp /\
    read_big_u32 buf 128 = Some tag_count /\
    read_big_i32 buf 68 = Some iX /\
    read_big_i32 buf 72 = Some iY /\
    read_big_i32 buf 76 = Some iZ /\
    size <= len /\
    132 + tag_count * 12 <= size /\
    version / 2 ^ 24 <= 4 /\
    within_0_01 (s15_16 iX) (9642 # 10000) /\
    within_0_01 (s15_16 iY) (10000 # 10000) /\
    within_0_01 (s15_16 iZ) (8249 # 10000).

(** ** Checking a predicate on a range of integers by evaluation *)

Fixpoint forall_range (P : Z -> bool) (n : nat) (i : Z) : bool :=
  match n with
  | O => true
  | S n' => P i && forall_range P n' (i + 1)
  end.

Definition in_window (lo hi i : Z) : bool := (lo <=? i) && (i <=? hi).

(** [off_D50 (fixed_of_i32 i) c] with the two constants of the source
    (2^-16 and 0.01f) in evaluated form. *)
Definition off_D50_of_i32 (c : spec_float) (i : Z) : bool :=
  SFltb (S754_finite false 10737418 (-30))
    (SFabs (SFsub 24 128
              (SFmul 24 128 (binary_normalize 24 128 i 0 false)
                 (S754_finite false 8388608 (-39))) c)).

(** Entry [i] of the tag table: (signature, offset, size), 12 bytes at
    [132 + 12 * i]. *)
Definition entry_fields (mem : list byte) (i : Z) : option (Z * Z * Z) :=
  sig ← read_big_u32 mem (132 + 12 * i);
  off ← read_big_u32 mem (132 + 12 * i + 4);
  sz ← read_big_u32 mem (132 + 12 * i + 8);
  Some (sig, off, sz).

(** "[size >= 4] and [offset + size <= profile_size]", the sum taken in the
    integers. *)
Definition entry_ok (profile_size : Z) (e : Z * Z * Z) : Prop :=
  4 <= e.2 /\ e.1.2 + e.2 <= profile_size.

Definition entries_ok (mem : list byte) (profile_size : Z) (lo hi : Z) : Prop :=
  forall i, lo <= i < hi -> exists e, entry_fields mem i = Some e /\ entry_ok profile_size e.

(** The tag that entry [i] describes, when its first four bytes lie in the
    buffer. *)
Definition tag_of_entry (mem : list byte) (i : Z) : option skcms_ICCTag :=
  '(sig, off, sz) ← entry_fields mem i;
  ty ← read_big_u32 mem off;
  Some {| tag_signature := sig; tag_type := ty; tag_size := sz; tag_buf := off |}.

(** [i] is the first entry with signature [sig]. *)
Definition first_with (mem : list byte) (sig : Z) (lo i : Z) : Prop :=
  (exists off sz, entry_fields mem i = Some (sig, off, sz)) /\
  forall j, lo <= j < i -> exists e, entry_fields mem j = Some e /\ e.1.1 <> sig.

(** A tag lies in the first [limit] bytes and has at least four bytes. *)
Definition tag_in (t : skcms_ICCTag) (limit : Z) : Prop :=
  4 <= tag_size t /\ 0 <= tag_buf t /\ tag_buf t + tag_size t <= limit.

(** The tag with signature [sig] is present in a table of [tc] entries, and
    [t] is what its (first) entry describes. *)
Definition tag_present (mem : list byte) (tc : Z) (sig : Z) (t : skcms_ICCTag) : Prop :=
  exists j, 0 <= j < tc /\ first_with mem sig 0 j /\ tag_of_entry mem j = Some t.

(** *** 'para', in the words of the specification *)

(** The number of s15.16 parameters of function types 0..4
    (G, GAB, GABC, GABCD, GABCDEF). *)
Definition para_param_count (function_type : Z) : option Z :=
  match function_type with
  | 0 => Some 1
  | 1 => Some 3
  | 2 => Some 4
  | 3 => Some 5
  | 4 => Some 7
  | _ => None
  end.

(** The [n] s15.16 numbers at [ptr], [ptr + 4], ... *)
Fixpoint read_params (mem : list byte) (ptr : Z) (n : nat) : option (list spec_float) :=
  match n with
  | O => Some []
  | S n' =>
      x ← read_big_fixed mem ptr;
      xs ← read_params mem (ptr + 4) n';
      Some (x :: xs)
  end.

(** "Unspecified parameters default to 0, with a = 1.  For GAB/GABC,
    d := -b/a (reject if a == 0); for GABC, f := e." *)
Definition para_of_params (function_type : Z) (ps : list spec_float)
  : option skcms_TransferFunction :=
  let p k := default F32.zero (ps !! k) in
  match function_type with
  | 0 => Some {| tf_g := p 0%nat; tf_a := F32.one; tf_b := F32.zero; tf_c := F32.zero;
                 tf_d := F32.zero; tf_e := F32.zero; tf_f := F32.zero |}
  | 1 => if F32.eqb (p 1%nat) F32.zero then None
         else Some {| tf_g := p 0%nat; tf_a := p 1%nat; tf_b := p 2%nat; tf_c := F32.zero;
                      tf_d := F32.div (F32.neg (p 2%nat)) (p 1%nat);
                      tf_e := F32.zero; tf_f := F32.zero |}
  | 2 => if F32.eqb (p 1%nat) F32.zero then None
         else Some {| tf_g := p 0%nat; tf_a := p 1%nat; tf_b := p 2%nat; tf_c := F32.zero;
                      tf_d := F32.div (F32.neg (p 2%nat)) (p 1%nat);
                      tf_e := p 3%nat; tf_f := p 3%nat |}
  | 3 => Some {| tf_g := p 0%nat; tf_a := p 1%nat; tf_b := p 2%nat; tf_c := p 3%nat;
                 tf_d := p 4%nat; tf_e := F32.zero; tf_f := F32.zero |}
  | 4 => Some {| tf_g := p 0%nat; tf_a := p 1%nat; tf_b := p 2%nat; tf_c := p 3%nat;
                 tf_d := p 4%nat; tf_e := p 5%nat; tf_f := p 6%nat |}
  | _ => None
  end.

(** Parsing a 'para' tag of [size] bytes at [buf]: [Some None] is a failed
    parse, [Some (Some t)] a parametric curve. *)
Definition parse_para (mem : list byte) (buf size : Z)
  : option (option skcms_TransferFunction) :=
  if size <? 12 then Some None else
  function_type ← read_big_u16 mem (buf + 8);
  match para_param_count function_type with
  | None => Some None
  | Some n =>
      if size <? 12 + 4 * n then Some None else
      ps ← read_params mem (buf + 12) (Z.to_nat n);
      Some (para_of_params function_type ps)
  end.

(** A parametric curve as a [Curve]: no table. *)
Definition Curve_parametric (t : skcms_TransferFunction) : Curve :=
  {| parametric := t; table := None; table_size := 0 |}.

(** What a reader returned: the curve when it returned true. *)
Definition parsed {A} (r : bool * A) : option A := if r.1 then Some r.2 else None.

(** A binary32 that is a zero or a finite number. *)
Definition F32_finite (x : spec_float) : Prop :=
  match x with
  | S754_zero _ | S754_finite _ _ _ => True
  | _ => False
  end.

(** No parameter is a NaN: the bits of the seven floats determine, and are
    determined by, the seven [spec_float]. *)
Definition TransferFunction_no_nan (t : skcms_TransferFunction) : Prop :=
  tf_g t <> S754_nan /\ tf_a t <> S754_nan /\ tf_b t <> S754_nan /\
  tf_c t <> S754_nan /\ tf_d t <> S754_nan /\ tf_e t <> S754_nan /\
  tf_f t <> S754_nan.

(** *** 'curv', in the words of the specification *)

(** The identity parametric curve: g = a = 1, everything else 0. *)
Definition TransferFunction_identity : skcms_TransferFunction :=
  {| tf_g := F32.one; tf_a := F32.one; tf_b := F32.zero; tf_c := F32.zero;
     tf_d := F32.zero; tf_e := F32.zero; tf_f := F32.zero |}.

(** The pure gamma curve with exponent [g]. *)
Definition TransferFunction_gamma (g : spec_float) : skcms_TransferFunction :=
  {| tf_g := g; tf_a := F32.one; tf_b := F32.zero; tf_c := F32.zero;
     tf_d := F32.zero; tf_e := F32.zero; tf_f := F32.zero |}.

(** A table of [n] 16-bit big-endian entries at [ptr]. *)
Definition Curve_table (ptr n : Z) : Curve :=
  {| parametric := TransferFunction_zero; table := Some ptr; table_size := n |}.

(** The real number a finite binary32 stands for. *)
Definition F32_to_R (x : spec_float) : R := Q2R (F32.to_Q x).

Definition sign (x : R) : R :=
  if Rlt_dec x 0 then (-1)%R else if Rlt_dec 0 x then 1%R else 0%R.

(** Modelled from the spec: evaluation of a transfer function.  The
    evaluator (skcms_TransferFunction_eval of TransferFunction.c) is not
    under src/; this is the formula that skcms.h and the specification give
    for the seven parameters, over the reals:
    sign(x) * (c*|x| + f) when |x| < d, sign(x) * ((a*|x| + b)^g + e)
    otherwise. *)
Definition TransferFunction_eval (t : skcms_TransferFunction) (x : R) : R :=
  if Rlt_dec (Rabs x) (F32_to_R (tf_d t))
  then (sign x * (F32_to_R (tf_c t) * Rabs x + F32_to_R (tf_f t)))%R
  else (sign x * (Rpower (F32_to_R (tf_a t) * Rabs x + F32_to_R (tf_b t))
                    (F32_to_R (tf_g t))
                  + F32_to_R (tf_e t)))%R.

(** *** A2B0, in the words of the specification *)

(** "The remaining bytes suffice for input_channels * input_table_size * width
    + output_channels * prod(grid_points over input axes) * width
    + output_channels * output_table_size * width", the grid having
    [grid_points] points along each of the [input_channels] axes. *)
Definition mft_fits (ic oc gp its ots w remaining : Z) : Prop :=
  ic * its * w + oc * gp ^ ic * w + oc * ots * w <= remaining.

(** The common part of an 'mft1' or 'mft2' tag at [buf] is acceptable. *)
Definition mft_common_ok (mem : list byte) (buf : Z) (ic oc gp : Z) : Prop :=
  read_u8 mem (buf + 8) = Some ic /\ read_u8 mem (buf + 9) = Some oc /\
  read_u8 mem (buf + 10) = Some gp /\
  oc = 3 /\ 1 <= ic <= 4 /\ 2 <= gp.

(** A zeroed [skcms_MultiFunctionTable]. *)
Definition MultiFunctionTable_zero : skcms_MultiFunctionTable :=
  {| matrix := Matrix3x3_zero; input_channels := 0; grid_points := 0;
     output_channels := 0; input_table_size := 0; output_table_size := 0;
     table_byte_width := 0; input_tables := replicate 4 None; grid := None;
     output_tables := replicate 3 None |}.

(** What the specification requires of an A2B0 tag for the table [mft'] to
    be extracted from it. *)
Definition mft_accepted (profile : skcms_ICCProfile) (mft' : skcms_MultiFunctionTable)
  : Prop :=
  exists a2b ic oc gp its ots width skip,
    skcms_GetTagBySignature profile sig_A2B0 ICCTag_uninit = Some (true, a2b) /\
    mft_common_ok (bytes_of profile) (tag_buf a2b) ic oc gp /\
    (tag_type a2b = sig_mft1 /\ its = 256 /\ ots = 256 /\ width = 1 /\ skip = 48
     \/
     tag_type a2b = sig_mft2 /\ width = 2 /\ skip = 52 /\
     read_big_u16 (bytes_of profile) (tag_buf a2b + 48) = Some its /\
     read_big_u16 (bytes_of profile) (tag_buf a2b + 50) = Some ots /\
     2 <= its <= 4096 /\ 2 <= ots <= 4096) /\
    skip <= tag_size a2b /\
    mft_fits ic oc gp its ots width (tag_size a2b - skip) /\
    input_channels mft' = ic /\ output_channels mft' = oc /\ grid_points mft' = gp /\
    input_table_size mft' = its /\ output_table_size mft' = ots /\
    table_byte_width mft' = width.

(** The grid of [mft'] has the same number of points, the byte at offset 10
    of the tag, along each input axis: it takes
    output_channels * width * grid_points ^ input_channels bytes, between
    [grid] and the first output table. *)
Definition uniform_grid (profile : skcms_ICCProfile) (mft' : skcms_MultiFunctionTable)
  : Prop :=
  exists a2b g,
    skcms_GetTagBySignature profile sig_A2B0 ICCTag_uninit = Some (true, a2b) /\
    read_u8 (bytes_of profile) (tag_buf a2b + 10) = Some (grid_points mft') /\
    2 <= grid_points mft' <= 255 /\ 1 <= input_channels mft' <= 4 /\
    grid mft' = Some g /\
    output_tables mft' !! 0%nat
    = Some (Some (g + output_channels mft' * table_byte_width mft'
                      * grid_points mft' ^ input_channels mft')) /\
    grid_size_loop (Z.to_nat (input_channels mft')) (grid_points mft')
      (output_channels mft' * table_byte_width mft')
    = output_channels mft' * table_byte_width mft'
      * grid_points mft' ^ input_channels mft'.

(** *** Matrix/TRC profiles, in the words of the specification *)

(** A tag of type 'XYZ ' with at least 20 bytes. *)
Definition xyz_tag (t : skcms_ICCTag) : Prop :=
  tag_type t = sig_XYZ /\ 20 <= tag_size t.

(** The (X, Y, Z) triple of an 'XYZ ' tag, read as s15.16. *)
Definition xyz_triple (mem : list byte) (t : skcms_ICCTag)
  : option (spec_float * spec_float * spec_float) :=
  x ← read_big_fixed mem (tag_buf t + 8);
  y ← read_big_fixed mem (tag_buf t + 12);
  z ← read_big_fixed mem (tag_buf t + 16);
  Some (x, y, z).

(** The matrix whose columns are three triples. *)
Definition Matrix3x3_of_columns (c0 c1 c2 : spec_float * spec_float * spec_float)
  : skcms_Matrix3x3 :=
  {| vals := [[c0.1.1; c1.1.1; c2.1.1]; [c0.1.2; c1.1.2; c2.1.2]; [c0.2; c1.2; c2.2]] |}.

(** rXYZ, gXYZ and bXYZ are present, as the tags [r], [g], [b], each of type
    'XYZ ' and at least 20 bytes. *)
Definition xyz_tags (mem : list byte) (tc : Z) (r g b : skcms_ICCTag) : Prop :=
  tag_present mem tc sig_rXYZ r /\ tag_present mem tc sig_gXYZ g /\
  tag_present mem tc sig_bXYZ b /\
  xyz_tag r /\ xyz_tag g /\ xyz_tag b.

(** rTRC, gTRC and bTRC are present and parse as the curves [cr], [cg],
    [cb]. *)
Definition trc_curves (mem : list byte) (tc : Z) (cr cg cb : Curve) : Prop :=
  exists r g b,
    tag_present mem tc sig_rTRC r /\ tag_present mem tc sig_gTRC g /\
    tag_present mem tc sig_bTRC b /\
    read_curve mem (tag_buf r) (tag_size r) Curve_uninit = Some (true, cr) /\
    read_curve mem (tag_buf g) (tag_size g) Curve_uninit = Some (true, cg) /\
    read_curve mem (tag_buf b) (tag_size b) Curve_uninit = Some (true, cb).

(** The three TRCs are present, parse, are in parametric form (no table) and
    have the same seven parameters [t]. *)
Definition trc_parametric (mem : list byte) (tc : Z) (t : skcms_TransferFunction) : Prop :=
  exists cr cg cb,
    trc_curves mem tc cr cg cb /\
    table cr = None /\ table cg = None /\ table cb = None /\
    parametric cr = t /\ parametric cg = t /\ parametric cb = t.

(** *** Parsed fixtures *)

Module Parsed.
(** The profile after [skcms_Parse] on a fixture, whatever it returned. *)
Definition profile_of (buf : list byte) (len : Z) : skcms_ICCProfile :=
  default ICCProfile_zero (snd <$> skcms_Parse buf len).

Definition gamma : skcms_ICCProfile := profile_of Fixture.gamma_profile 280.
Definition mixed_gamma : skcms_ICCProfile := profile_of Fixture.mixed_gamma_profile 200.
Definition empty : skcms_ICCProfile := profile_of Fixture.empty_profile 132.
Definition a2b : skcms_ICCProfile := profile_of Fixture.a2b_profile 1222.

(** The table extracted from [a2b]. *)
Definition a2b_table : skcms_MultiFunctionTable :=
  default MultiFunctionTable_zero
    (snd <$> skcms_GetMultiFunctionTable a2b MultiFunctionTable_zero).
End Parsed.

(** A matrix of three rows of three floats, as [float vals[3][3]] is. *)
Definition Matrix3x3_shape (m : skcms_Matrix3x3) : Prop :=
  length (vals m) = 3%nat /\ Forall (fun row => length row = 3%nat) (vals m).

(** The kind of an A2B0 tag: the length of its fixed layout, the width of a
    table entry and the sizes of its tables. *)
Definition mft_kind (mem : list byte) (a2b : skcms_ICCTag) (skip w its ots : Z) : Prop :=
  tag_type a2b = sig_mft1 /\ skip = 48 /\ w = 1 /\ its = 256 /\ ots = 256
  \/
  tag_type a2b = sig_mft2 /\ skip = 52 /\ w = 2 /\
  read_big_u16 mem (tag_buf a2b + 48) = Some its /\
  read_big_u16 mem (tag_buf a2b + 50) = Some ots /\
  2 <= its <= 4096 /\ 2 <= ots <= 4096.


(** ** skcms_ApproximateTransferFunction *)

Definition INT_MAX : Z := 2 ^ 31 - 1.

(** [i / (table_size - 1.0f)], with [i] and [table_size] of type
    [uint32_t]: both are converted to binary32. *)
Definition table_x (table_size i : Z) : spec_float :=
  F32.div (F32.of_Z i) (F32.sub (F32.of_Z table_size) F32.one).

(** [u * (1 / 65535.0f)] for a table entry [u]. *)
Definition table_t (u : Z) : spec_float :=
  F32.mul (F32.of_Z u) (F32.div F32.one (F32.of_Z 65535)).

(** The inner loop over one table, with [n] entries left and the counter at
    [i]: [*x++ = ...; *t++ = ...].  The two halves of [data] are the lists
    [x] and [t], written front to back. *)
Fixpoint merge_table (mem : list byte) (table table_size : Z) (n : nat) (i : Z)
    (x t : list spec_float) : option (list spec_float * list spec_float) :=
  match n with
  | O => Some (x, t)
  | S n' =>
      u ← read_big_u16 mem (table + wrap32 (2 * i));
      merge_table mem table table_size n' (i + 1)
        (x ++ [table_x table_size i]) (t ++ [table_t u])
  end.

Section Approximate.

(** [skcms_TransferFunction_approximate] of TransferFunction.c is not under
    src/: the fit is a parameter.  It gets the function to fill, the two
    sample arrays, their length and the [max_error] pointer ([None] for
    NULL), and returns its flag with what it left in [*fn] and
    [*max_error]. *)
Variable skcms_TransferFunction_approximate :
  skcms_TransferFunction -> list spec_float -> list spec_float -> Z -> option spec_float ->
  bool * skcms_TransferFunction * option spec_float.

(** Whether [malloc] of that many bytes returns a block.  The source does not
    test the pointer: when it is NULL the first store of the merge loop is
    undefined. *)
Variable malloc_succeeds : Z -> bool.

Definition skcms_ApproximateTransferFunction (profile : skcms_ICCProfile)
    (fn : skcms_TransferFunction) (max_error : option spec_float)
  : option (bool * skcms_TransferFunction * option spec_float) :=
  let fail := Some (false, fn, max_error) in
  '(okr, rTRC) ← skcms_GetTagBySignature profile sig_rTRC ICCTag_uninit;
  if negb okr then fail else
  '(okg, gTRC) ← skcms_GetTagBySignature profile sig_gTRC ICCTag_uninit;
  if negb okg then fail else
  '(okb, bTRC) ← skcms_GetTagBySignature profile sig_bTRC ICCTag_uninit;
  if negb okb then fail else
  let mem := bytes_of profile in
  '(r0, c0) ← read_curve mem (tag_buf rTRC) (tag_size rTRC) Curve_uninit;
  if negb r0 then fail else
  match table c0 with None => fail | Some table0 =>
  '(r1, c1) ← read_curve mem (tag_buf gTRC) (tag_size gTRC) Curve_uninit;
  if negb r1 then fail else
  match table c1 with None => fail | Some table1 =>
  '(r2, c2) ← read_curve mem (tag_buf bTRC) (tag_size bTRC) Curve_uninit;
  if negb r2 then fail else
  match table c2 with None => fail | Some table2 =>
  let n := wrap64 (wrap64 (table_size c0 + table_size c1) + table_size c2) in
  if n >? INT_MAX then fail else
  let buf_size := wrap64 (wrap64 (2 * n) * SAFE_SIZEOF 4) in
  if negb (buf_size =? wrap64 buf_size) then fail else
  if negb (malloc_succeeds buf_size) then None else
  (* Merge all channels' tables into a single array. *)
  '(x, t) ← merge_table mem table0 (table_size c0) (Z.to_nat (table_size c0)) 0 [] [];
  '(x, t) ← merge_table mem table1 (table_size c1) (Z.to_nat (table_size c1)) 0 x t;
  '(x, t) ← merge_table mem table2 (table_size c2) (Z.to_nat (table_size c2)) 0 x t;
  Some (skcms_TransferFunction_approximate fn x t (to_int32 (wrap32 n)) max_error)
  end end end.

End Approximate.

(** The [n] table entries at [table]. *)
Definition table_entries (mem : list byte) (table n : Z) : option (list Z) :=
  mapM (fun k => read_big_u16 mem (table + 2 * k)) (seqZ 0 n).

(** [table_t u] with the constant [1 / 65535.0f] in evaluated form, and the
    checks made on it for every 16-bit [u]: it is a number of [0, 1] and not
    above the value of [u + 1]. *)
Definition table_t_of (u : Z) : spec_float :=
  SFmul 24 128 (binary_normalize 24 128 u 0 false) (S754_finite false 8388736 (-39)).

Definition table_t_check (u : Z) : bool :=
  Qle_bool 0 (F32.to_Q (table_t_of u)) && Qle_bool (F32.to_Q (table_t_of u)) 1
  && Qle_bool (F32.to_Q (table_t_of u)) (F32.to_Q (table_t_of (u + 1)))
  && match table_t_of u with S754_zero _ | S754_finite _ _ _ => true | _ => false end.

(** *** More fixtures *)

Module Sample.
(** rXYZ is an 'XYZ ' tag; gXYZ and bXYZ point at a 'curv' tag. *)
Definition partial_xyz_profile : list byte :=
  Fixture.header_D50 204 3
  ++ Fixture.entry sig_rXYZ 168 20 ++ Fixture.entry sig_gXYZ 188 16
  ++ Fixture.entry sig_bXYZ 188 16
  ++ Fixture.xyz 0x00006FA2 0x000038F5 0x00000390
  ++ Fixture.curv_gamma 0x0233.

Definition partial_xyz : skcms_ICCProfile := Parsed.profile_of partial_xyz_profile 204.

(** The profile whose three TRCs are one table of two entries. *)
Definition table : skcms_ICCProfile := Parsed.profile_of Fixture.table_profile 184.

(** A fit that accepts whatever it is given and writes nothing. *)
Definition accept_all (fn : skcms_TransferFunction) (x t : list spec_float) (n : Z)
    (max_error : option spec_float) : bool * skcms_TransferFunction * option spec_float :=
  (true, fn, max_error).

Definition malloc_ok (n : Z) : bool := true.

Definition malloc_null (n : Z) : bool := false.
End Sample.

(** The check made on the abscissas of a table of [n] entries: the first is
    0 and the last is 1. *)
Definition table_x_check (n : Z) : bool :=
  bool_decide (table_x n 0 = F32.zero) && bool_decide (table_x n (n - 1) = F32.one).

(** * Properties *)

(** * Properties *)

(** ** The byte reader stays inside the buffer and yields machine integers *)

Lemma read_u8_Some mem ptr v :
  read_u8 mem ptr = Some v -> 0 <= ptr < Z.of_nat (length mem) /\ 0 <= v < 256.
Proof.
  unfold read_u8. destruct (Z.ltb_spec ptr 0) as [|Hp]; [discriminate|].
  destruct (mem !! Z.to_nat ptr) as [b|] eqn:Hb; [|discriminate].
  intros [= <-]. apply lookup_lt_Some in Hb.
  pose proof (Byte.to_N_bounded b). lia.
Qed.

Lemma read_u8_is_Some mem ptr :
  0 <= ptr < Z.of_nat (length mem) -> is_Some (read_u8 mem ptr).
Proof.
  intros Hp. unfold read_u8. destruct (Z.ltb_spec ptr 0); [lia|].
  destruct (lookup_lt_is_Some_2 mem (Z.to_nat ptr)) as [b ->]; [lia|]. eauto.
Qed.

Lemma lor_range n a b :
  0 <= n -> 0 <= a < 2 ^ n -> 0 <= b < 2 ^ n -> 0 <= Z.lor a b < 2 ^ n.
Proof.
  intros Hn Ha Hb. split; [apply Z.lor_nonneg; lia|].
  destruct (Z.eq_dec a 0) as [->|]; [rewrite Z.lor_0_l; lia|].
  destruct (Z.eq_dec b 0) as [->|]; [rewrite Z.lor_0_r; lia|].
  apply Z.log2_lt_pow2.
  - assert (0 <= Z.lor a b) by (apply Z.lor_nonneg; lia).
    assert (Z.lor a b <> 0) by (rewrite Z.lor_eq_0_iff; lia). lia.
  - rewrite Z.log2_lor by lia.
    apply Z.max_lub_lt; apply Z.log2_lt_pow2; lia.
Qed.

Lemma shiftl_range k n a :
  0 <= k -> 0 <= n -> 0 <= a < 2 ^ n -> 0 <= Z.shiftl a k < 2 ^ (n + k).
Proof.
  intros Hk Hn Ha. rewrite Z.shiftl_mul_pow2 by lia.
  rewrite Z.pow_add_r by lia. nia.
Qed.

Lemma read_big_u16_Some mem ptr v :
  read_big_u16 mem ptr = Some v ->
  0 <= ptr /\ ptr + 2 <= Z.of_nat (length mem) /\ 0 <= v < 2 ^ 16.
Proof.
  unfold read_big_u16. intros H.
  destruct (read_u8 mem ptr) as [b0|] eqn:H0; [|discriminate].
  destruct (read_u8 mem (ptr + 1)) as [b1|] eqn:H1; [|discriminate].
  simpl in H. injection H as <-.
  apply read_u8_Some in H0, H1.
  split; [lia|]. split; [lia|].
  apply (lor_range 16); [lia| |lia].
  apply (shiftl_range 8 8); lia.
Qed.

Lemma read_big_u16_is_Some mem ptr :
  0 <= ptr -> ptr + 2 <= Z.of_nat (length mem) -> is_Some (read_big_u16 mem ptr).
Proof.
  intros H0 H1. unfold read_big_u16.
  destruct (read_u8_is_Some mem ptr) as [b0 ->]; [lia|].
  destruct (read_u8_is_Some mem (ptr + 1)) as [b1 ->]; [lia|]. simpl. eauto.
Qed.

Lemma read_big_u32_Some mem ptr v :
  read_big_u32 mem ptr = Some v ->
  0 <= ptr /\ ptr + 4 <= Z.of_nat (length mem) /\ 0 <= v < 2 ^ 32.
Proof.
  unfold read_big_u32. intros H.
  destruct (read_u8 mem ptr) as [b0|] eqn:H0; [|discriminate].
  destruct (read_u8 mem (ptr + 1)) as [b1|] eqn:H1; [|discriminate].
  destruct (read_u8 mem (ptr + 2)) as [b2|] eqn:H2; [|discriminate].
  destruct (read_u8 mem (ptr + 3)) as [b3|] eqn:H3; [|discriminate].
  simpl in H. injection H as <-.
  apply read_u8_Some in H0, H1, H2, H3.
  split; [lia|]. split; [lia|].
  repeat (apply (lor_range 32); [lia| |]); try lia.
  - apply (shiftl_range 24 8); lia.
  - pose proof (shiftl_range 16 8 b1). lia.
  - pose proof (shiftl_range 8 8 b2). lia.
Qed.

Lemma read_big_u32_is_Some mem ptr :
  0 <= ptr -> ptr + 4 <= Z.of_nat (length mem) -> is_Some (read_big_u32 mem ptr).
Proof.
  intros H0 H1. unfold read_big_u32.
  destruct (read_u8_is_Some mem ptr) as [b0 ->]; [lia|].
  destruct (read_u8_is_Some mem (ptr + 1)) as [b1 ->]; [lia|].
  destruct (read_u8_is_Some mem (ptr + 2)) as [b2 ->]; [lia|].
  destruct (read_u8_is_Some mem (ptr + 3)) as [b3 ->]; [lia|]. simpl. eauto.
Qed.

Lemma to_int32_range u : 0 <= u < 2 ^ 32 -> - 2 ^ 31 <= to_int32 u < 2 ^ 31.
Proof. intros H. unfold to_int32. destruct (Z.ltb_spec u (2 ^ 31)); lia. Qed.

Lemma read_big_i32_Some mem ptr v :
  read_big_i32 mem ptr = Some v ->
  0 <= ptr /\ ptr + 4 <= Z.of_nat (length mem) /\ - 2 ^ 31 <= v < 2 ^ 31.
Proof.
  unfold read_big_i32. intros H.
  destruct (read_big_u32 mem ptr) as [u|] eqn:Hu; [|discriminate].
  simpl in H. injection H as <-. apply read_big_u32_Some in Hu.
  pose proof (to_int32_range u). lia.
Qed.

Lemma read_big_fixed_Some mem ptr x :
  read_big_fixed mem ptr = Some x ->
  exists i, read_big_i32 mem ptr = Some i /\ x = fixed_of_i32 i.
Proof.
  unfold read_big_fixed. intros H.
  destruct (read_big_i32 mem ptr) as [i|]; [|discriminate].
  simpl in H. injection H as <-. eauto.
Qed.

Lemma read_big_fixed_is_Some mem ptr :
  0 <= ptr -> ptr + 4 <= Z.of_nat (length mem) -> is_Some (read_big_fixed mem ptr).
Proof.
  intros H0 H1. unfold read_big_fixed, read_big_i32.
  destruct (read_big_u32_is_Some mem ptr) as [u ->]; [lia..|]. simpl. eauto.
Qed.

Lemma read_big_u64_is_Some mem ptr :
  0 <= ptr -> ptr + 8 <= Z.of_nat (length mem) -> is_Some (read_big_u64 mem ptr).
Proof.
  intros H0 H1. unfold read_big_u64.
  destruct (read_big_u32_is_Some mem ptr) as [u ->]; [lia..|].
  destruct (read_big_u32_is_Some mem (ptr + 4)) as [v ->]; [lia..|]. simpl. eauto.
Qed.

Lemma read_big_date_time_is_Some mem ptr :
  0 <= ptr -> ptr + 12 <= Z.of_nat (length mem) -> is_Some (read_big_date_time mem ptr).
Proof.
  intros H0 H1. unfold read_big_date_time.
  destruct (read_big_u16_is_Some mem (ptr + 0)) as [? ->]; [lia..|].
  destruct (read_big_u16_is_Some mem (ptr + 2)) as [? ->]; [lia..|].
  destruct (read_big_u16_is_Some mem (ptr + 4)) as [? ->]; [lia..|].
  destruct (read_big_u16_is_Some mem (ptr + 6)) as [? ->]; [lia..|].
  destruct (read_big_u16_is_Some mem (ptr + 8)) as [? ->]; [lia..|].
  destruct (read_big_u16_is_Some mem (ptr + 10)) as [? ->]; [lia..|].
  simpl. eauto.
Qed.

Lemma read_bytes_is_Some mem n ptr :
  0 <= ptr -> ptr + Z.of_nat n <= Z.of_nat (length mem) -> is_Some (read_bytes mem ptr n).
Proof.
  revert ptr. induction n as [|n IH]; intros ptr H0 H1; simpl; [eauto|].
  destruct (Z.ltb_spec ptr 0); [lia|].
  destruct (lookup_lt_is_Some_2 mem (Z.to_nat ptr)) as [b ->]; [lia|]. simpl.
  destruct (IH (ptr + 1)) as [bs ->]; [lia..|]. simpl. eauto.
Qed.

(** ** binary32: the shape of a rounded result *)

Lemma digits2_pos_bounds p :
  2 ^ (Z.pos (digits2_pos p) - 1) <= Z.pos p < 2 ^ Z.pos (digits2_pos p).
Proof.
  induction p as [p IH|p IH|]; simpl digits2_pos.
  - rewrite Pos2Z.inj_succ, Pos2Z.inj_xI.
    replace (Z.succ (Z.pos (digits2_pos p)) - 1) with (Z.succ (Z.pos (digits2_pos p) - 1)) by lia.
    rewrite !Z.pow_succ_r by lia. revert IH.
    generalize (2 ^ (Z.pos (digits2_pos p) - 1)) (2 ^ Z.pos (digits2_pos p)). intros a b IH. lia.
  - rewrite Pos2Z.inj_succ, (Pos2Z.inj_xO p).
    replace (Z.succ (Z.pos (digits2_pos p)) - 1) with (Z.succ (Z.pos (digits2_pos p) - 1)) by lia.
    rewrite !Z.pow_succ_r by lia. revert IH.
    generalize (2 ^ (Z.pos (digits2_pos p) - 1)) (2 ^ Z.pos (digits2_pos p)). intros a b IH. lia.
  - simpl. lia.
Qed.

Lemma digits2_pos_lower p k : 0 <= k -> 2 ^ k <= Z.pos p -> k + 1 <= Z.pos (digits2_pos p).
Proof.
  intros Hk Hp. destruct (digits2_pos_bounds p) as [_ Hu].
  destruct (Z_lt_le_dec k (Z.pos (digits2_pos p))) as [|Hle]; [lia|].
  pose proof (Z.pow_le_mono_r 2 _ _ ltac:(lia) Hle). lia.
Qed.

Lemma digits2_pos_upper p k : 0 <= k -> Z.pos p < 2 ^ k -> Z.pos (digits2_pos p) <= k.
Proof.
  intros Hk Hp. destruct (digits2_pos_bounds p) as [Hl _].
  destruct (Z_lt_le_dec k (Z.pos (digits2_pos p))) as [Hlt|]; [|lia].
  assert (Hle : k <= Z.pos (digits2_pos p) - 1) by lia.
  pose proof (Z.pow_le_mono_r 2 _ _ ltac:(lia) Hle). lia.
Qed.

Lemma iter_xO_val m k : Z.pos (Pos.iter xO m k) = Z.pos m * 2 ^ Z.pos k.
Proof.
  induction k as [|k IH] using Pos.peano_ind.
  - simpl. lia.
  - rewrite Pos.iter_succ, (Pos2Z.inj_xO (Pos.iter xO m k)), IH, Pos2Z.inj_succ, Z.pow_succ_r by lia. lia.
Qed.

Lemma iter_xO_digits m k :
  Z.pos (digits2_pos (Pos.iter xO m k)) = Z.pos (digits2_pos m) + Z.pos k.
Proof.
  induction k as [|k IH] using Pos.peano_ind.
  - simpl. lia.
  - rewrite Pos.iter_succ. simpl digits2_pos. rewrite Pos2Z.inj_succ, IH. lia.
Qed.

Lemma shl_align_val mx ex ez :
  ez <= ex -> Z.pos (fst (shl_align mx ex ez)) = Z.pos mx * 2 ^ (ex - ez).
Proof.
  intros H. unfold shl_align. destruct (ez - ex) as [|d|d] eqn:Hd; simpl fst.
  - replace (ex - ez) with 0 by lia. lia.
  - lia.
  - rewrite iter_xO_val. f_equal. f_equal. lia.
Qed.

Lemma shr_1_m mrs : 0 <= shr_m mrs -> shr_m (shr_1 mrs) = shr_m mrs / 2.
Proof.
  destruct mrs as [m r s]. simpl. intros Hm.
  destruct m as [|[p|p|]|p]; simpl; [reflexivity| | |reflexivity|lia].
  - rewrite (Pos2Z.inj_xI p). apply (Z.div_unique _ _ _ 1); lia.
  - rewrite (Pos2Z.inj_xO p). apply (Z.div_unique _ _ _ 0); lia.
Qed.

Lemma iter_pos_shr_m p : forall mrs, 0 <= shr_m mrs ->
  0 <= shr_m (SpecFloat.iter_pos shr_1 p mrs) /\
  shr_m (SpecFloat.iter_pos shr_1 p mrs) = shr_m mrs / 2 ^ Z.pos p.
Proof.
  assert (H1 : forall mrs, 0 <= shr_m mrs -> 0 <= shr_m (shr_1 mrs)).
  { intros mrs H. rewrite shr_1_m by done. apply Z.div_pos; lia. }
  induction p as [p IH|p IH|]; intros mrs Hm; simpl SpecFloat.iter_pos.
  - destruct (IH (shr_1 mrs) (H1 _ Hm)) as [Ha Hb].
    destruct (IH _ Ha) as [Hc Hd]. split; [done|].
    rewrite Hd, Hb, shr_1_m by done.
    rewrite !Z.div_div by lia. f_equal.
    rewrite Pos2Z.inj_xI, Z.pow_add_r, Z.pow_mul_r by lia.
    change (2 ^ 2) with 4. change (2 ^ 1) with 2.
    replace 4 with (2 * 2) by lia. rewrite Z.pow_mul_l. lia.
  - destruct (IH mrs Hm) as [Ha Hb].
    destruct (IH _ Ha) as [Hc Hd]. split; [done|].
    rewrite Hd, Hb. rewrite !Z.div_div by lia. f_equal.
    rewrite (Pos2Z.inj_xO p), Z.pow_mul_r by lia.
    change (2 ^ 2) with 4. replace 4 with (2 * 2) by lia. rewrite Z.pow_mul_l. lia.
  - split; [auto|]. rewrite shr_1_m by done. reflexivity.
Qed.

Lemma shr_record_of_loc_m m l : shr_m (shr_record_of_loc m l) = m.
Proof. destruct l as [|[]]; reflexivity. Qed.

Lemma round_nearest_even_bounds m l :
  m <= round_nearest_even m l <= m + 1.
Proof. destruct l as [|[]]; simpl; try destruct (Z.even m); lia. Qed.

Lemma div_pow2_lower m k j : 0 <= k -> 0 <= j -> 2 ^ (j + k) <= m -> 2 ^ j <= m / 2 ^ k.
Proof.
  intros Hk Hj Hm. apply Z.div_le_lower_bound; [lia|].
  rewrite Z.pow_add_r in Hm by lia. lia.
Qed.

(** [shr_fexp] drops the digits beyond 24 and adjusts the exponent. *)
Lemma shr_fexp_spec m e l :
  -149 <= Z.pos (digits2_pos m) + e - 24 ->
  snd (shr_fexp 24 128 (Z.pos m) e l) = e + Z.max 0 (Z.pos (digits2_pos m) - 24) /\
  shr_m (fst (shr_fexp 24 128 (Z.pos m) e l))
  = Z.pos m / 2 ^ Z.max 0 (Z.pos (digits2_pos m) - 24).
Proof.
  intros Hr. unfold shr_fexp, fexp, emin.
  change (Zdigits2 (Z.pos m)) with (Z.pos (digits2_pos m)).
  set (d := Z.pos (digits2_pos m)) in *.
  rewrite Z.max_l by lia.
  replace (d + e - 24 - e) with (d - 24) by lia.
  unfold shr. destruct (d - 24) as [|n|n] eqn:Hn; simpl fst; simpl snd.
  - rewrite shr_record_of_loc_m. change (2 ^ Z.max 0 0) with 1.
    rewrite Z.div_1_r. split; [simpl; lia|reflexivity].
  - assert (H0 : 0 <= shr_m (shr_record_of_loc (Z.pos m) l))
      by (rewrite shr_record_of_loc_m; lia).
    destruct (iter_pos_shr_m n _ H0) as [_ ->].
    rewrite shr_record_of_loc_m, Z.max_r by lia. split; reflexivity.
  - rewrite shr_record_of_loc_m. rewrite Z.max_l by lia. change (2 ^ 0) with 1.
    rewrite Z.div_1_r. split; [lia|reflexivity].
Qed.

Lemma div_pow2_upper m k j : 0 <= k -> 0 <= j -> m < 2 ^ (j + k) -> m / 2 ^ k < 2 ^ j.
Proof.
  intros Hk Hj Hm. apply Z.div_lt_upper_bound; [lia|].
  rewrite Z.pow_add_r in Hm by lia. lia.
Qed.

(** A rounded mantissa of at least 24 digits comes out normal: the mantissa
    has exactly 24 digits and the exponent is that of the leading digit, or
    one more when the rounding carries; the result is infinite only when
    that exponent is above 104. *)
Lemma binary_round_aux_range s m e l :
  24 <= Z.pos (digits2_pos m) ->
  -149 <= Z.pos (digits2_pos m) + e - 24 ->
  exists m' e',
    Z.pos (digits2_pos m) + e - 24 <= e' <= Z.pos (digits2_pos m) + e - 23 /\
    2 ^ 23 <= Z.pos m' < 2 ^ 24 /\
    binary_round_aux 24 128 s (Z.pos m) e l
    = if e' <=? 104 then S754_finite s m' e' else S754_infinity s.
Proof.
  intros Hd Hr. unfold binary_round_aux.
  destruct (shr_fexp_spec m e l Hr) as [He1 Hm1].
  destruct (shr_fexp 24 128 (Z.pos m) e l) as [mrs1 e1]. simpl in He1, Hm1.
  set (d := Z.pos (digits2_pos m)) in *.
  rewrite Z.max_r in He1, Hm1 by lia.
  assert (Hm1b : 2 ^ 23 <= shr_m mrs1 < 2 ^ 24).
  { rewrite Hm1. split.
    - apply div_pow2_lower; [lia..|].
      replace (23 + (d - 24)) with (d - 1) by lia. apply (digits2_pos_bounds m).
    - apply div_pow2_upper; [lia..|].
      replace (24 + (d - 24)) with d by lia. apply (digits2_pos_bounds m). }
  pose proof (round_nearest_even_bounds (shr_m mrs1) (loc_of_shr_record mrs1)) as Hrne.
  destruct (round_nearest_even (shr_m mrs1) (loc_of_shr_record mrs1)) as [|m2|m2] eqn:Hm2;
    [lia| |lia].
  assert (Hd2 : 24 <= Z.pos (digits2_pos m2) <= 25).
  { split; [apply (digits2_pos_lower m2 23); lia|apply (digits2_pos_upper m2 25); lia]. }
  destruct (shr_fexp_spec m2 e1 loc_Exact) as [He2 Hm3]; [lia|].
  destruct (shr_fexp 24 128 (Z.pos m2) e1 loc_Exact) as [mrs2 e2]. simpl in He2, Hm3.
  rewrite Z.max_r in He2, Hm3 by lia.
  assert (Hm3b : 2 ^ 23 <= shr_m mrs2 < 2 ^ 24).
  { rewrite Hm3. split.
    - apply div_pow2_lower; [lia..|].
      replace (23 + (Z.pos (digits2_pos m2) - 24)) with (Z.pos (digits2_pos m2) - 1) by lia.
      apply (digits2_pos_bounds m2).
    - apply div_pow2_upper; [lia..|].
      replace (24 + (Z.pos (digits2_pos m2) - 24)) with (Z.pos (digits2_pos m2)) by lia.
      apply (digits2_pos_bounds m2). }
  destruct (shr_m mrs2) as [|m3|m3]; [lia| |lia].
  exists m3, e2. split; [lia|]. split; [done|]. reflexivity.
Qed.

Lemma binary_round_aux_shape s m e l :
  24 <= Z.pos (digits2_pos m) ->
  -149 <= Z.pos (digits2_pos m) + e - 24 ->
  binary_round_aux 24 128 s (Z.pos m) e l = S754_infinity s \/
  exists m' e', binary_round_aux 24 128 s (Z.pos m) e l = S754_finite s m' e' /\
                Z.pos (digits2_pos m) + e - 24 <= e' /\ 2 ^ 23 <= Z.pos m'.
Proof.
  intros Hd Hr.
  destruct (binary_round_aux_range s m e l Hd Hr) as (m' & e' & He & Hm & ->).
  destruct (e' <=? 104); [|by left].
  right. exists m', e'. split; [done|]. split; lia.
Qed.

Lemma binary_round_range s m e :
  -149 <= Z.pos (digits2_pos m) + e - 24 ->
  exists m' e',
    Z.pos (digits2_pos m) + e - 24 <= e' <= Z.pos (digits2_pos m) + e - 23 /\
    2 ^ 23 <= Z.pos m' < 2 ^ 24 /\
    binary_round 24 128 s m e
    = if e' <=? 104 then S754_finite s m' e' else S754_infinity s.
Proof.
  intros Hr. unfold binary_round, fexp, emin.
  set (d := Z.pos (digits2_pos m)) in *.
  rewrite Z.max_l by lia.
  unfold shl_align. destruct (d + e - 24 - e) as [|n|n] eqn:Hn.
  - apply binary_round_aux_range; fold d; lia.
  - apply binary_round_aux_range; fold d; lia.
  - pose proof (iter_xO_digits m n) as Hdig. fold d in Hdig.
    destruct (binary_round_aux_range s (Pos.iter xO m n) (d + e - 24) loc_Exact)
      as (m' & e' & He & Hm & H); [lia|lia|].
    exists m', e'. split; [lia|]. split; done.
Qed.

Lemma binary_round_shape s m e :
  -149 <= Z.pos (digits2_pos m) + e - 24 ->
  binary_round 24 128 s m e = S754_infinity s \/
  exists m' e', binary_round 24 128 s m e = S754_finite s m' e' /\
                Z.pos (digits2_pos m) + e - 24 <= e' /\ 2 ^ 23 <= Z.pos m'.
Proof.
  intros Hr.
  destruct (binary_round_range s m e Hr) as (m' & e' & He & Hm & ->).
  destruct (e' <=? 104); [|by left].
  right. exists m', e'. split; [done|]. split; lia.
Qed.

Lemma SFmul_finite sx mx ex sy my ey :
  SFmul 24 128 (S754_finite sx mx ex) (S754_finite sy my ey)
  = binary_round_aux 24 128 (xorb sx sy) (Z.pos (mx * my)) (ex + ey) loc_Exact.
Proof. reflexivity. Qed.

Lemma SFsub_finite sx mx ex sy my ey :
  SFsub 24 128 (S754_finite sx mx ex) (S754_finite sy my ey)
  = binary_normalize 24 128
      (cond_Zopp sx (Z.pos (fst (shl_align mx ex (Z.min ex ey))))
       - cond_Zopp sy (Z.pos (fst (shl_align my ey (Z.min ex ey)))))
      (Z.min ex ey) false.
Proof. reflexivity. Qed.

Lemma F32_2pm16 : F32.div F32.one (F32.of_Z 65536) = S754_finite false 8388608 (-39).
Proof. vm_compute. reflexivity. Qed.

Lemma F32_0_01 : F32.lit 100 10000 = S754_finite false 10737418 (-30).
Proof. vm_compute. reflexivity. Qed.

Lemma F32_0_9642 : F32.lit 9642 10000 = S754_finite false 16176592 (-24).
Proof. vm_compute. reflexivity. Qed.

Lemma F32_1_0 : F32.lit 10000 10000 = S754_finite false 8388608 (-23).
Proof. vm_compute. reflexivity. Qed.

Lemma F32_0_8249 : F32.lit 8249 10000 = S754_finite false 13839525 (-24).
Proof. vm_compute. reflexivity. Qed.

(** [0.01f < |r|] for every normal [r] whose exponent is above that of 0.01f. *)
Lemma above_0_01 s m e :
  -30 < e ->
  SFltb (S754_finite false 10737418 (-30)) (SFabs (S754_finite s m e)) = true.
Proof.
  intros He. assert (H : (-30 ?= e) = Lt) by (apply Z.compare_lt_iff; lia).
  unfold SFltb, SFabs, SFcompare. rewrite H. reflexivity.
Qed.

Lemma pow2_ge a b : 0 <= a <= b -> 2 ^ a <= 2 ^ b.
Proof. intros H. apply Z.pow_le_mono_r; lia. Qed.

(** Outside [0, 2), a fixed-point value is further than 0.01 from any
    binary32 constant [c] with [1/2 <= c <= 1]. *)
Lemma off_D50_far i mc ec :
  -24 <= ec <= -23 -> 2 ^ 23 <= Z.pos mc -> Z.pos mc * 2 ^ (ec + 24) <= 2 ^ 24 ->
  i < 0 \/ 2 ^ 17 <= i ->
  off_D50 (fixed_of_i32 i) (S754_finite false mc ec) = true.
Proof.
  intros Hec Hmc Hc Hi.
  unfold off_D50, fixed_of_i32. rewrite F32_2pm16, F32_0_01.
  unfold F32.gtb, F32.fabsf, F32.sub, F32.mul, F32.of_Z, F32.prec, F32.emax.
  destruct i as [|p|p]; [lia| |].
  - (* 2 <= value *)
    change (binary_normalize 24 128 (Z.pos p) 0 false) with (binary_round 24 128 false p 0).
    assert (Hdp : 18 <= Z.pos (digits2_pos p)) by (apply (digits2_pos_lower p 17); lia).
    destruct (binary_round_shape false p 0) as [->|(m & e & -> & He & Hm)];
      [lia|reflexivity|].
    rewrite SFmul_finite.
    assert (Hdm : 47 <= Z.pos (digits2_pos (m * 8388608))).
    { apply (digits2_pos_lower _ 46); [lia|]. rewrite Pos2Z.inj_mul.
      change (2 ^ 46) with (2 ^ 23 * 8388608). lia. }
    destruct (binary_round_aux_shape (xorb false false) (m * 8388608) (e + -39) loc_Exact)
      as [->|(m' & e' & -> & He' & Hm')]; [lia|lia|reflexivity|].
    rewrite SFsub_finite. rewrite Z.min_r by lia.
    rewrite !shl_align_val by lia. simpl cond_Zopp. simpl xorb in *.
    rewrite Z.sub_diag, Z.mul_1_r.
    assert (Hd : 2 ^ 23 <= Z.pos m' * 2 ^ (e' - ec) - Z.pos mc).
    { pose proof (pow2_ge (-22 - ec) (e' - ec) ltac:(lia)) as Hp.
      assert (Hcase : ec = -24 \/ ec = -23) by lia.
      destruct Hcase as [-> | ->].
      - change (2 ^ (-24 + 24)) with 1 in Hc. change (2 ^ (-22 - -24)) with 4 in Hp.
        revert Hp. generalize (2 ^ (e' - -24)). intros a Hp. nia.
      - change (2 ^ (-23 + 24)) with 2 in Hc. change (2 ^ (-22 - -23)) with 2 in Hp.
        revert Hp. generalize (2 ^ (e' - -23)). intros a Hp. nia. }
    destruct (Z.pos m' * 2 ^ (e' - ec) - Z.pos mc) as [|q|q] eqn:Hq; [lia| |lia].
    change (binary_normalize 24 128 (Z.pos q) ec false) with (binary_round 24 128 false q ec).
    assert (Hdq : 24 <= Z.pos (digits2_pos q)) by (apply (digits2_pos_lower q 23); lia).
    destruct (binary_round_shape false q ec) as [->|(mr & er & -> & Her & Hmr)];
      [lia|reflexivity|].
    apply above_0_01. lia.
  - (* value < 0 *)
    change (binary_normalize 24 128 (Z.neg p) 0 false) with (binary_round 24 128 true p 0).
    destruct (binary_round_shape true p 0) as [->|(m & e & -> & He & Hm)];
      [lia|reflexivity|].
    rewrite SFmul_finite.
    assert (Hdm : 47 <= Z.pos (digits2_pos (m * 8388608))).
    { apply (digits2_pos_lower _ 46); [lia|]. rewrite Pos2Z.inj_mul.
      change (2 ^ 46) with (2 ^ 23 * 8388608). lia. }
    destruct (binary_round_aux_shape (xorb true false) (m * 8388608) (e + -39) loc_Exact)
      as [->|(m' & e' & -> & He' & Hm')]; [lia|lia|reflexivity|].
    rewrite SFsub_finite. simpl xorb. simpl cond_Zopp.
    set (ez := Z.min e' ec).
    rewrite !shl_align_val by lia.
    assert (Hd : 2 ^ (23 + (ec - ez)) <= Z.pos m' * 2 ^ (e' - ez) + Z.pos mc * 2 ^ (ec - ez)).
    { rewrite Z.pow_add_r by lia.
      assert (0 < 2 ^ (e' - ez)) by (apply Z.pow_pos_nonneg; lia).
      assert (0 < 2 ^ (ec - ez)) by (apply Z.pow_pos_nonneg; lia).
      nia. }
    assert (Hpos : 0 < 2 ^ (23 + (ec - ez))) by (apply Z.pow_pos_nonneg; lia).
    replace (- (Z.pos m' * 2 ^ (e' - ez)) - Z.pos mc * 2 ^ (ec - ez))
      with (- (Z.pos m' * 2 ^ (e' - ez) + Z.pos mc * 2 ^ (ec - ez))) by lia.
    destruct (Z.pos m' * 2 ^ (e' - ez) + Z.pos mc * 2 ^ (ec - ez)) as [|q|q] eqn:Hq;
      [lia| |lia].
    change (binary_normalize 24 128 (- Z.pos q) ez false)
      with (binary_round 24 128 true q ez).
    assert (Hdq : 23 + (ec - ez) + 1 <= Z.pos (digits2_pos q))
      by (apply (digits2_pos_lower q (23 + (ec - ez))); lia).
    destruct (binary_round_shape true q ez) as [->|(mr & er & -> & Her & Hmr)];
      [lia|reflexivity|].
    apply above_0_01. lia.
Qed.

(** One step of inverting a computation in the option monad. *)
Ltac inv_step H :=
  lazymatch type of H with
  | mbind _ ?x = Some _ =>
      let E := fresh "E" in destruct x eqn:E; [cbn [mbind option_bind] in H|discriminate H]
  | (if ?c then _ else _) = Some _ => let E := fresh "E" in destruct c eqn:E
  | (let '(_, _) := ?p in _) = Some _ => destruct p
  end.

Lemma read_header_Some buf p :
  read_header buf = Some p ->
  buffer p = Some buf /\
  read_big_u32 buf header_Layout.size = Some (size p) /\
  read_big_u32 buf header_Layout.version = Some (version p) /\
  read_big_u32 buf header_Layout.signature = Some (signature p) /\
  read_big_u32 buf header_Layout.tag_count = Some (tag_count p) /\
  read_big_fixed buf header_Layout.illuminant_X = Some (illuminant_X p) /\
  read_big_fixed buf header_Layout.illuminant_Y = Some (illuminant_Y p) /\
  read_big_fixed buf header_Layout.illuminant_Z = Some (illuminant_Z p) /\
  has_tf p = false /\ tf p = TransferFunction_zero /\
  has_toXYZD50 p = false /\ toXYZD50 p = Matrix3x3_zero /\ has_A2B p = false.
Proof.
  unfold read_header. intros H. repeat inv_step H.
  injection H as <-. simpl. repeat split; reflexivity.
Qed.

Lemma read_header_is_Some buf :
  header_Layout.sizeof <= Z.of_nat (length buf) -> is_Some (read_header buf).
Proof.
  unfold header_Layout.sizeof. intros Hlen. unfold read_header.
  repeat match goal with
  | |- is_Some (mbind _ (read_big_u32 ?m ?p)) =>
      destruct (read_big_u32_is_Some m p) as [? ->];
      [unfold p; lia ..|cbn [mbind option_bind]]
  | |- is_Some (mbind _ (read_big_u64 ?m ?p)) =>
      destruct (read_big_u64_is_Some m p) as [? ->];
      [unfold p; lia ..|cbn [mbind option_bind]]
  | |- is_Some (mbind _ (read_big_fixed ?m ?p)) =>
      destruct (read_big_fixed_is_Some m p) as [? ->];
      [unfold p; lia ..|cbn [mbind option_bind]]
  | |- is_Some (mbind _ (read_big_date_time ?m ?p)) =>
      destruct (read_big_date_time_is_Some m p) as [? ->];
      [unfold p; lia ..|cbn [mbind option_bind]]
  | |- is_Some (mbind _ (read_bytes ?m ?p ?n)) =>
      destruct (read_bytes_is_Some m n p) as [? ->];
      [unfold p; simpl; lia ..|cbn [mbind option_bind]]
  end.
  eauto.
Qed.

Lemma forall_range_spec P n : forall i,
  forall_range P n i = true -> forall j, i <= j < i + Z.of_nat n -> P j = true.
Proof.
  induction n as [|n IH]; intros i H j Hj; [lia|].
  simpl in H. apply andb_prop in H as [H1 H2].
  destruct (Z.eq_dec j i) as [->|]; [done|].
  apply (IH (i + 1)); [done|lia].
Qed.

Lemma off_D50_of_i32_eq c i : off_D50 (fixed_of_i32 i) c = off_D50_of_i32 c i.
Proof.
  unfold off_D50, fixed_of_i32. rewrite F32_2pm16, F32_0_01. reflexivity.
Qed.

Lemma window_X :
  forall_range
    (fun i => Bool.eqb (off_D50_of_i32 (S754_finite false 16176592 (-24)) i)
                (negb (in_window 62535 63845 i)))
    (Z.to_nat (2 ^ 17)) 0 = true.
Proof. vm_compute. reflexivity. Qed.

Lemma window_Y :
  forall_range
    (fun i => Bool.eqb (off_D50_of_i32 (S754_finite false 8388608 (-23)) i)
                (negb (in_window 64881 66191 i)))
    (Z.to_nat (2 ^ 17)) 0 = true.
Proof. vm_compute. reflexivity. Qed.

Lemma window_Z :
  forall_range
    (fun i => Bool.eqb (off_D50_of_i32 (S754_finite false 13839525 (-24)) i)
                (negb (in_window 53406 54716 i)))
    (Z.to_nat (2 ^ 17)) 0 = true.
Proof. vm_compute. reflexivity. Qed.

(** The binary32 test of the source decides the exact window. *)
Lemma off_D50_window mc ec lo hi i :
  -24 <= ec <= -23 -> 2 ^ 23 <= Z.pos mc -> Z.pos mc * 2 ^ (ec + 24) <= 2 ^ 24 ->
  0 <= lo -> hi < 2 ^ 17 ->
  forall_range
    (fun i => Bool.eqb (off_D50_of_i32 (S754_finite false mc ec) i)
                (negb (in_window lo hi i)))
    (Z.to_nat (2 ^ 17)) 0 = true ->
  off_D50 (fixed_of_i32 i) (S754_finite false mc ec) = negb (in_window lo hi i).
Proof.
  intros Hec Hmc Hc Hlo Hhi Hwin.
  destruct (Z_lt_le_dec i 0) as [Hneg|Hnn]; [|destruct (Z_lt_le_dec i (2 ^ 17)) as [Hin|Hbig]].
  - rewrite off_D50_far by (auto; lia).
    unfold in_window. destruct (Z.leb_spec lo i); [lia|reflexivity].
  - rewrite off_D50_of_i32_eq.
    apply Bool.eqb_prop. apply (forall_range_spec _ _ _ Hwin). lia.
  - rewrite off_D50_far by (auto; lia).
    unfold in_window. destruct (Z.leb_spec i hi); [lia|].
    rewrite andb_false_r. reflexivity.
Qed.

Lemma off_D50_X i :
  off_D50 (fixed_of_i32 i) (F32.lit 9642 10000) = negb (in_window 62535 63845 i).
Proof.
  rewrite F32_0_9642. apply off_D50_window; [lia|lia|simpl; lia|lia|lia|apply window_X].
Qed.

Lemma off_D50_Y i :
  off_D50 (fixed_of_i32 i) (F32.lit 10000 10000) = negb (in_window 64881 66191 i).
Proof.
  rewrite F32_1_0. apply off_D50_window; [lia|lia|simpl; lia|lia|lia|apply window_Y].
Qed.

Lemma off_D50_Z i :
  off_D50 (fixed_of_i32 i) (F32.lit 8249 10000) = negb (in_window 53406 54716 i).
Proof.
  rewrite F32_0_8249. apply off_D50_window; [lia|lia|simpl; lia|lia|lia|apply window_Z].
Qed.

Lemma within_window c lo hi i :
  (forall j, lo <= j <= hi <-> -100 * 65536 <= j * 10000 - c * 65536 <= 100 * 65536) ->
  in_window lo hi i = true <-> within_0_01 (s15_16 i) (c # 10000).
Proof.
  intros Hw. unfold in_window, within_0_01, s15_16.
  rewrite andb_true_iff, !Z.leb_le, Qabs_Qle_condition.
  unfold Qle, Qminus, Qplus, Qopp. simpl. specialize (Hw i). lia.
Qed.

Lemma within_X i : in_window 62535 63845 i = true <-> within_0_01 (s15_16 i) (9642 # 10000).
Proof. apply within_window. intros j. lia. Qed.
Lemma within_Y i : in_window 64881 66191 i = true <-> within_0_01 (s15_16 i) (10000 # 10000).
Proof. apply within_window. intros j. lia. Qed.
Lemma within_Z i : in_window 53406 54716 i = true <-> within_0_01 (s15_16 i) (8249 # 10000).
Proof. apply within_window. intros j. lia. Qed.

(** ** No 64-bit sum or product of the decoder wraps *)

Lemma wrap64_small z : 0 <= z < 2 ^ 64 -> wrap64 z = z.
Proof. intros H. unfold wrap64. apply Z.mod_small. lia. Qed.

Lemma SAFE_SIZEOF_small n : 0 <= n < 2 ^ 64 -> SAFE_SIZEOF n = n.
Proof. apply wrap64_small. Qed.

Lemma tag_table_end tag_count :
  0 <= tag_count < 2 ^ 32 ->
  wrap64 (SAFE_SIZEOF header_Layout.sizeof
          + wrap64 (tag_count * SAFE_SIZEOF tag_Layout.sizeof))
  = 132 + tag_count * 12.
Proof.
  intros H.
  change (SAFE_SIZEOF header_Layout.sizeof) with 132.
  change (SAFE_SIZEOF tag_Layout.sizeof) with 12.
  rewrite (wrap64_small (tag_count * 12)) by lia.
  apply wrap64_small. lia.
Qed.

(** ** skcms_Parse, case by case *)

(** The two validation conditions of the header, as [skcms_Parse] writes
    them. *)
Lemma header_checks buf len p0 :
  read_header buf = Some p0 -> 132 <= len ->
  (negb (signature p0 =? sig_acsp)
   || (size p0 >? len)
   || (size p0 <? wrap64 (SAFE_SIZEOF header_Layout.sizeof
                          + wrap64 (tag_count p0 * SAFE_SIZEOF tag_Layout.sizeof)))
   || (Z.shiftr (version p0) 24 >? 4) = false
   /\ off_D50 (illuminant_X p0) (F32.lit 9642 10000)
      || off_D50 (illuminant_Y p0) (F32.lit 10000 10000)
      || off_D50 (illuminant_Z p0) (F32.lit 8249 10000) = false)
  <-> header_valid buf len.
Proof.
  intros Hh Hlen.
  destruct (read_header_Some _ _ Hh)
    as (_ & Hsz & Hver & Hsig & Htc & HX & HY & HZ & _).
  apply read_big_fixed_Some in HX as (iX & HiX & ->).
  apply read_big_fixed_Some in HY as (iY & HiY & ->).
  apply read_big_fixed_Some in HZ as (iZ & HiZ & ->).
  pose proof (read_big_u32_Some _ _ _ Htc) as (_ & _ & Htcr).
  rewrite tag_table_end by done.
  rewrite off_D50_X, off_D50_Y, off_D50_Z.
  rewrite Z.shiftr_div_pow2 by lia.
  unfold header_Layout.size, header_Layout.version, header_Layout.signature,
    header_Layout.tag_count, header_Layout.illuminant_X, header_Layout.illuminant_Y,
    header_Layout.illuminant_Z in *.
  rewrite !orb_false_iff, !negb_false_iff, Z.eqb_eq, !Z.gtb_ltb, !Z.ltb_ge.
  rewrite within_X, within_Y, within_Z. unfold header_valid.
  split.
  - intros ((((Hs & H1) & H2) & H3) & (H4 & H5) & H6).
    split; [done|]. exists (size p0), (version p0), (tag_count p0), iX, iY, iZ.
    rewrite <- Hs. repeat split; try done; lia.
  - intros (_ & sz & ver & tc & jX & jY & jZ & Hr).
    destruct Hr as (R1 & R2 & R3 & R4 & R5 & R6 & R7 & C1 & C2 & C3 & C4 & C5 & C6).
    rewrite Hsz in R1. rewrite Hver in R2. rewrite Hsig in R3. rewrite Htc in R4.
    rewrite HiX in R5. rewrite HiY in R6. rewrite HiZ in R7.
    injection R1 as <-. injection R2 as <-. injection R3 as R3. injection R4 as <-.
    injection R5 as <-. injection R6 as <-. injection R7 as <-.
    repeat split; try done; lia.
Qed.

Lemma skcms_Parse_short buf len :
  len < 132 -> skcms_Parse buf len = Some (false, ICCProfile_zero).
Proof.
  intros H. unfold skcms_Parse.
  change (SAFE_SIZEOF header_Layout.sizeof) with 132.
  destruct (Z.ltb_spec len 132); [done|lia].
Qed.

(** Every way [skcms_Parse] returns true. *)
Lemma skcms_Parse_true buf len p :
  skcms_Parse buf len = Some (true, p) ->
  132 <= len /\
  exists p0 has_tf_ tf_ has_xyz_ xyz_,
    read_header buf = Some p0 /\
    header_valid buf len /\
    tags_sane buf (size p0) (Z.to_nat (tag_count p0)) 0 = Some true /\
    get_transfer_function p0 (tf p0) = Some (has_tf_, tf_) /\
    read_to_XYZD50 (set_tf has_tf_ tf_ p0) (toXYZD50 (set_tf has_tf_ tf_ p0))
      = Some (has_xyz_, xyz_) /\
    p = set_toXYZD50 has_xyz_ xyz_ (set_tf has_tf_ tf_ p0).
Proof.
  unfold skcms_Parse. intros H.
  change (SAFE_SIZEOF header_Layout.sizeof) with 132 in H at 1.
  destruct (Z.ltb_spec len 132) as [|Hlen]; [discriminate|].
  split; [done|].
  destruct (read_header buf) as [p0|] eqn:Hh; [cbn [mbind option_bind] in H|discriminate].
  match type of H with (if ?c then _ else _) = _ => destruct c eqn:Hc1 end; [discriminate|].
  match type of H with (if ?c then _ else _) = _ => destruct c eqn:Hc2 end; [discriminate|].
  destruct (tags_sane _ _ _ _) as [[|]|] eqn:Hs; cbn [mbind option_bind negb] in H;
    [|discriminate..].
  destruct (get_transfer_function p0 (tf p0)) as [[b t]|] eqn:Htf;
    cbn [mbind option_bind] in H; [|discriminate].
  destruct (read_to_XYZD50 _ _) as [[b' m]|] eqn:Hx;
    cbn [mbind option_bind] in H; [|discriminate].
  injection H as <-.
  exists p0, b, t, b', m. repeat split; try done.
  apply (header_checks buf len p0 Hh Hlen). split; assumption.
Qed.

(** Every way [skcms_Parse] returns false: the profile is the zeroed record
    or the zeroed record with the header members filled in. *)
Lemma skcms_Parse_false buf len p :
  skcms_Parse buf len = Some (false, p) ->
  p = ICCProfile_zero \/ read_header buf = Some p.
Proof.
  unfold skcms_Parse. intros H.
  destruct (len <? _); [injection H as <-; by left|].
  destruct (read_header buf) as [p0|] eqn:Hh; [cbn [mbind option_bind] in H|discriminate].
  match type of H with (if ?c then _ else _) = _ => destruct c eqn:Hc1 end;
    [injection H as <-; by right|].
  match type of H with (if ?c then _ else _) = _ => destruct c eqn:Hc2 end;
    [injection H as <-; by right|].
  destruct (tags_sane _ _ _ _) as [[|]|] eqn:Hs; cbn [mbind option_bind negb] in H;
    [|injection H as <-; by right|discriminate].
  destruct (get_transfer_function p0 (tf p0)) as [[b t]|] eqn:Htf;
    cbn [mbind option_bind] in H; [|discriminate].
  destruct (read_to_XYZD50 _ _) as [[b' m]|] eqn:Hx;
    cbn [mbind option_bind] in H; discriminate.
Qed.

(** ** The tag table *)

Lemma tag_entry_eq i : tag_entry i = 132 + 12 * i.
Proof. unfold tag_entry. change get_tag_table with 132. unfold tag_Layout.sizeof. lia. Qed.

Lemma entry_fields_Some mem i sig off sz :
  entry_fields mem i = Some (sig, off, sz) <->
  read_big_u32 mem (tag_entry i + tag_Layout.signature) = Some sig /\
  read_big_u32 mem (tag_entry i + tag_Layout.offset) = Some off /\
  read_big_u32 mem (tag_entry i + tag_Layout.size) = Some sz.
Proof.
  rewrite tag_entry_eq. unfold entry_fields, tag_Layout.signature, tag_Layout.offset,
    tag_Layout.size. rewrite Z.add_0_r.
  destruct (read_big_u32 mem (132 + 12 * i)) as [s|]; cbn [mbind option_bind];
    [|split; [discriminate|intros [[=] _]]].
  destruct (read_big_u32 mem (132 + 12 * i + 4)) as [o|]; cbn [mbind option_bind];
    [|split; [discriminate|intros (_ & [=] & _)]].
  destruct (read_big_u32 mem (132 + 12 * i + 8)) as [z|]; cbn [mbind option_bind];
    [|split; [discriminate|intros (_ & _ & [=])]].
  split; [intros [= -> -> ->]; done|intros ([= ->] & [= ->] & [= ->]); done].
Qed.

Lemma entry_fields_is_Some mem i :
  0 <= i -> 132 + 12 * (i + 1) <= Z.of_nat (length mem) -> is_Some (entry_fields mem i).
Proof.
  intros Hi Hlen. unfold entry_fields.
  destruct (read_big_u32_is_Some mem (132 + 12 * i)) as [? ->]; [lia..|].
  destruct (read_big_u32_is_Some mem (132 + 12 * i + 4)) as [? ->]; [lia..|].
  destruct (read_big_u32_is_Some mem (132 + 12 * i + 8)) as [? ->]; [lia..|].
  cbn. eauto.
Qed.

(** [offset + size], computed in 64 bits, is the sum of the integers. *)
Lemma tag_end_no_wrap off sz :
  0 <= off < 2 ^ 32 -> 0 <= sz < 2 ^ 32 -> wrap64 (off + sz) = off + sz.
Proof. intros. apply wrap64_small. lia. Qed.

Lemma tags_sane_step mem psize n i :
  tags_sane mem psize (S n) i =
  tag_offset ← read_big_u32 mem (tag_entry i + tag_Layout.offset);
  tag_size ← read_big_u32 mem (tag_entry i + tag_Layout.size);
  if (tag_size <? 4) || (wrap64 (tag_offset + tag_size) >? psize) then Some false
  else tags_sane mem psize n (i + 1).
Proof. reflexivity. Qed.

Lemma tags_sane_total mem psize n : forall i,
  0 <= i -> 132 + 12 * (i + Z.of_nat n) <= Z.of_nat (length mem) ->
  is_Some (tags_sane mem psize n i).
Proof.
  induction n as [|n IH]; intros i Hi Hlen; [by eexists|].
  rewrite tags_sane_step, tag_entry_eq.
  unfold tag_Layout.offset, tag_Layout.size.
  destruct (read_big_u32_is_Some mem (132 + 12 * i + 4)) as [? ->]; [lia..|].
  destruct (read_big_u32_is_Some mem (132 + 12 * i + 8)) as [? ->]; [lia..|].
  cbn [mbind option_bind]. destruct (_ || _); [by eexists|].
  apply IH; lia.
Qed.

Lemma tags_sane_true mem psize n : forall i,
  tags_sane mem psize n i = Some true <-> entries_ok mem psize i (i + Z.of_nat n).
Proof.
  induction n as [|n IH]; intros i.
  { split; [intros _ j Hj; lia|reflexivity]. }
  rewrite tags_sane_step. split.
  - intros H.
    destruct (read_big_u32 mem (tag_entry i + tag_Layout.offset)) as [off|] eqn:Hoff;
      [cbn [mbind option_bind] in H|discriminate].
    destruct (read_big_u32 mem (tag_entry i + tag_Layout.size)) as [sz|] eqn:Hsz;
      [cbn [mbind option_bind] in H|discriminate].
    pose proof (read_big_u32_Some _ _ _ Hoff) as (Hp0 & Hp1 & Hro).
    pose proof (read_big_u32_Some _ _ _ Hsz) as (_ & _ & Hrs).
    rewrite tag_end_no_wrap in H by done.
    destruct (Z.ltb_spec sz 4); [discriminate|].
    rewrite Z.gtb_ltb in H. destruct (Z.ltb_spec psize (off + sz)); [discriminate|].
    cbn [orb] in H. apply IH in H. intros j Hj.
    destruct (Z.eq_dec j i) as [->|]; [|apply H; lia].
    destruct (read_big_u32_is_Some mem (tag_entry i + tag_Layout.signature)) as [sig Hsig].
    { rewrite tag_entry_eq in *. unfold tag_Layout.signature, tag_Layout.offset in *. lia. }
    { rewrite tag_entry_eq in *. unfold tag_Layout.signature, tag_Layout.offset in *. lia. }
    exists (sig, off, sz). split; [by apply entry_fields_Some|]. split; simpl; lia.
  - intros H. destruct (H i) as ([[sig off] sz] & He & Hok); [lia|].
    apply entry_fields_Some in He as (_ & Hoff & Hsz). destruct Hok as [Hk1 Hk2].
    simpl in Hk1, Hk2.
    pose proof (read_big_u32_Some _ _ _ Hoff) as (_ & _ & Hro).
    pose proof (read_big_u32_Some _ _ _ Hsz) as (_ & _ & Hrs).
    rewrite Hoff, Hsz. cbn [mbind option_bind].
    rewrite tag_end_no_wrap by done.
    destruct (Z.ltb_spec sz 4); [lia|].
    rewrite Z.gtb_ltb. destruct (Z.ltb_spec psize (off + sz)); [lia|].
    cbn [orb]. apply IH. intros j Hj. apply H. lia.
Qed.

(** ** Looking a tag up *)

Lemma load_tag_Some mem sig i off sz :
  entry_fields mem i = Some (sig, off, sz) ->
  load_tag mem sig i = tag_of_entry mem i.
Proof.
  intros He. unfold load_tag, tag_of_entry. rewrite He.
  apply entry_fields_Some in He as (_ & -> & ->). reflexivity.
Qed.

Lemma find_tag_step mem sig n i tag :
  find_tag mem sig (S n) i tag =
  s ← read_big_u32 mem (tag_entry i + tag_Layout.signature);
  if s =? sig then t ← load_tag mem sig i; Some (true, t)
  else find_tag mem sig n (i + 1) tag.
Proof. reflexivity. Qed.

(** On a validated tag table inside the buffer, the lookup returns, and what
    it returns is the first entry with the signature. *)
Lemma find_tag_spec mem psize sig tag n : forall i,
  psize <= Z.of_nat (length mem) ->
  entries_ok mem psize i (i + Z.of_nat n) ->
  (find_tag mem sig n i tag = Some (false, tag) /\
   forall j, i <= j < i + Z.of_nat n ->
             exists e, entry_fields mem j = Some e /\ e.1.1 <> sig)
  \/
  (exists j t, i <= j < i + Z.of_nat n /\ first_with mem sig i j /\
               tag_of_entry mem j = Some t /\
               4 <= tag_size t /\ 0 <= tag_buf t /\ tag_buf t + tag_size t <= psize /\
               find_tag mem sig n i tag = Some (true, t)).
Proof.
  induction n as [|n IH]; intros i Hlen Hok.
  { left. split; [reflexivity|intros j Hj; lia]. }
  destruct (Hok i) as ([[s off] sz] & He & Hk1 & Hk2); [lia|]. simpl in Hk1, Hk2.
  pose proof He as He'. apply entry_fields_Some in He' as (Hs & Hoff & Hsz).
  rewrite find_tag_step, Hs. cbn [mbind option_bind].
  destruct (Z.eqb_spec s sig) as [->|Hne].
  - right. pose proof (read_big_u32_Some _ _ _ Hoff) as (_ & _ & Hro).
    destruct (read_big_u32_is_Some mem off) as [ty Hty]; [lia..|].
    exists i, {| tag_signature := sig; tag_type := ty; tag_size := sz; tag_buf := off |}.
    assert (Ht : tag_of_entry mem i = Some
              {| tag_signature := sig; tag_type := ty; tag_size := sz; tag_buf := off |}).
    { unfold tag_of_entry. rewrite He. cbn [mbind option_bind]. rewrite Hty. reflexivity. }
    split; [lia|]. split; [split; [eauto|intros j Hj; lia]|].
    split; [done|]. simpl. repeat split; try lia.
    rewrite (load_tag_Some _ _ _ _ _ He), Ht. reflexivity.
  - destruct (IH (i + 1) Hlen) as [[Hf Hall]|(j & t & Hj & Hfirst & Ht & H1 & H2 & H3 & Hf)].
    { intros j Hj. apply Hok. lia. }
    + left. split; [done|]. intros j Hj.
      destruct (Z.eq_dec j i) as [->|]; [|apply Hall; lia].
      exists (s, off, sz). split; done.
    + right. exists j, t. split; [lia|]. split; [|done].
      destruct Hfirst as [Hf1 Hf2]. split; [done|]. intros k Hk.
      destruct (Z.eq_dec k i) as [->|]; [|apply Hf2; lia].
      exists (s, off, sz). split; done.
Qed.

(** ** Readers of tag data stay inside the tag *)

(** Discharge the next read of a goal [is_Some (x ← read ...; ...)]. *)
Ltac next_read :=
  lazymatch goal with
  | |- is_Some (mbind _ (read_big_u32 ?m ?p)) =>
      destruct (read_big_u32_is_Some m p) as [? ->]; [lia..|cbn [mbind option_bind]]
  | |- is_Some (mbind _ (read_big_u16 ?m ?p)) =>
      destruct (read_big_u16_is_Some m p) as [? ->]; [lia..|cbn [mbind option_bind]]
  | |- is_Some (mbind _ (read_big_fixed ?m ?p)) =>
      destruct (read_big_fixed_is_Some m p) as [? ->]; [lia..|cbn [mbind option_bind]]
  | |- is_Some (mbind _ (read_u8 ?m ?p)) =>
      destruct (read_u8_is_Some m p) as [? ->]; [lia..|cbn [mbind option_bind]]
  end.

Lemma read_curve_para_total mem buf size curve :
  0 <= buf -> buf + size <= Z.of_nat (length mem) ->
  is_Some (read_curve_para mem buf size curve).
Proof.
  intros Hb Hs. unfold read_curve_para.
  change (SAFE_SIZEOF para_Layout.sizeof) with 12.
  unfold para_Layout.function_type, para_Layout.parameters.
  destruct (Z.ltb_spec size 12); [by eexists|].
  destruct (read_big_u16 mem (buf + 8)) as [ft|] eqn:Hft.
  2:{ destruct (read_big_u16_is_Some mem (buf + 8)) as [? ?]; [lia..|congruence]. }
  cbn [mbind option_bind]. apply read_big_u16_Some in Hft as (_ & _ & Hr).
  unfold kGABCDEF, kGAB, kGABC, kGABCD.
  rewrite Z.gtb_ltb. destruct (Z.ltb_spec 4 ft); [by eexists|].
  assert (Hcase : ft = 0 \/ ft = 1 \/ ft = 2 \/ ft = 3 \/ ft = 4) by lia.
  destruct Hcase as [->|[->|[->|[->| ->]]]];
    match goal with |- context [curve_bytes !! ?k] =>
      let v := eval vm_compute in (curve_bytes !! k) in change (curve_bytes !! k) with v end;
    cbn [mbind option_bind];
    match goal with |- context [wrap64 ?z] =>
      let v := eval vm_compute in (wrap64 z) in change (wrap64 z) with v end;
    (match goal with |- context [size <? ?v] =>
       destruct (Z.ltb_spec size v); [by eexists|] end);
    repeat (first [next_read | progress cbn [Z.eqb Pos.eqb]]);
    try (destruct (F32.eqb _ _)); by eexists.
Qed.

Lemma read_curve_curv_total mem buf size curve :
  0 <= buf -> buf + size <= Z.of_nat (length mem) ->
  is_Some (read_curve_curv mem buf size curve).
Proof.
  intros Hb Hs. unfold read_curve_curv.
  change (SAFE_SIZEOF curv_Layout.sizeof) with 12. change (SAFE_SIZEOF 2) with 2.
  unfold curv_Layout.value_count, curv_Layout.parameters.
  destruct (Z.ltb_spec size 12); [by eexists|].
  destruct (read_big_u32 mem (buf + 8)) as [n|] eqn:Hn.
  2:{ destruct (read_big_u32_is_Some mem (buf + 8)) as [? ?]; [lia..|congruence]. }
  cbn [mbind option_bind]. apply read_big_u32_Some in Hn as (_ & _ & Hr).
  rewrite (wrap64_small (n * 2)) by lia. rewrite wrap64_small by lia.
  destruct (Z.ltb_spec size (12 + n * 2)); [by eexists|].
  destruct (Z.ltb_spec n 2); [|by eexists].
  destruct (Z.eqb_spec n 0); [by eexists|].
  next_read. by eexists.
Qed.

Lemma read_curve_total mem buf size curve :
  0 <= buf -> buf + size <= Z.of_nat (length mem) ->
  is_Some (read_curve mem buf size curve).
Proof.
  intros Hb Hs. unfold read_curve.
  destruct (Z.ltb_spec size 4); [by eexists|].
  next_read.
  destruct (_ =? sig_para); [by apply read_curve_para_total|].
  destruct (_ =? sig_curv); [by apply read_curve_curv_total|].
  by eexists.
Qed.

Lemma read_tag_xyz_total mem tag col m :
  0 <= tag_buf tag -> tag_buf tag + tag_size tag <= Z.of_nat (length mem) ->
  is_Some (read_tag_xyz mem tag col m).
Proof.
  intros Hb Hs. unfold read_tag_xyz.
  change (SAFE_SIZEOF XYZ_Layout.sizeof) with 20.
  unfold XYZ_Layout.X, XYZ_Layout.Y, XYZ_Layout.Z_.
  destruct (_ =? sig_XYZ); cbn [andb]; [|by eexists].
  destruct (Z.leb_spec 20 (tag_size tag)); [|by eexists].
  repeat next_read. by eexists.
Qed.

(** ** Lookups on a parsed profile *)

Lemma bytes_of_Some profile mem : buffer profile = Some mem -> bytes_of profile = mem.
Proof. unfold bytes_of. intros ->. reflexivity. Qed.


Lemma skcms_GetTagBySignature_spec profile mem psize sig tag :
  buffer profile = Some mem -> 0 <= tag_count profile ->
  psize <= Z.of_nat (length mem) ->
  entries_ok mem psize 0 (tag_count profile) ->
  (skcms_GetTagBySignature profile sig tag = Some (false, tag) /\
   forall j, 0 <= j < tag_count profile ->
             exists e, entry_fields mem j = Some e /\ e.1.1 <> sig)
  \/
  (exists j t, 0 <= j < tag_count profile /\ first_with mem sig 0 j /\
               tag_of_entry mem j = Some t /\ tag_in t psize /\
               skcms_GetTagBySignature profile sig tag = Some (true, t)).
Proof.
  intros Hbuf Htc Hlen Hok. unfold skcms_GetTagBySignature. rewrite Hbuf.
  destruct (find_tag_spec mem psize sig tag (Z.to_nat (tag_count profile)) 0 Hlen)
    as [[Hf Hall]|(j & t & Hj & Hfirst & Ht & H1 & H2 & H3 & Hf)].
  - rewrite Z2Nat.id by done. exact Hok.
  - left. split; [done|]. intros j Hj. apply Hall. lia.
  - right. exists j, t. unfold tag_in.
    split; [lia|]. split; [done|]. split; [done|]. split; [lia|done].
Qed.

Lemma get_transfer_function_total profile mem psize t0 :
  buffer profile = Some mem -> 0 <= tag_count profile ->
  psize <= Z.of_nat (length mem) ->
  entries_ok mem psize 0 (tag_count profile) ->
  is_Some (get_transfer_function profile t0).
Proof.
  intros Hbuf Htc Hlen Hok. unfold get_transfer_function.
  destruct (skcms_GetTagBySignature_spec profile mem psize sig_rTRC ICCTag_uninit
              Hbuf Htc Hlen Hok) as [[-> _]|(? & tr & _ & _ & _ & (?&?&?) & ->)];
    cbn [mbind option_bind negb]; [by eexists|].
  destruct (skcms_GetTagBySignature_spec profile mem psize sig_gTRC ICCTag_uninit
              Hbuf Htc Hlen Hok) as [[-> _]|(? & tg & _ & _ & _ & (?&?&?) & ->)];
    cbn [mbind option_bind negb]; [by eexists|].
  destruct (skcms_GetTagBySignature_spec profile mem psize sig_bTRC ICCTag_uninit
              Hbuf Htc Hlen Hok) as [[-> _]|(? & tb & _ & _ & _ & (?&?&?) & ->)];
    cbn [mbind option_bind negb]; [by eexists|].
  cbv zeta. rewrite (bytes_of_Some _ _ Hbuf).
  destruct (read_curve_total mem (tag_buf tr) (tag_size tr) Curve_uninit) as [[r1 c1] ->];
    [lia..|cbn [mbind option_bind]].
  destruct (negb r1 || _); [by eexists|].
  destruct (read_curve_total mem (tag_buf tg) (tag_size tg) Curve_uninit) as [[r2 c2] ->];
    [lia..|cbn [mbind option_bind]].
  destruct (negb r2 || _); [by eexists|].
  destruct (read_curve_total mem (tag_buf tb) (tag_size tb) Curve_uninit) as [[r3 c3] ->];
    [lia..|cbn [mbind option_bind]].
  destruct (negb r3 || _); [by eexists|].
  destruct (_ || _); by eexists.
Qed.

Lemma read_to_XYZD50_total profile mem psize m0 :
  buffer profile = Some mem -> 0 <= tag_count profile ->
  psize <= Z.of_nat (length mem) ->
  entries_ok mem psize 0 (tag_count profile) ->
  is_Some (read_to_XYZD50 profile m0).
Proof.
  intros Hbuf Htc Hlen Hok. unfold read_to_XYZD50.
  destruct (skcms_GetTagBySignature_spec profile mem psize sig_rXYZ ICCTag_uninit
              Hbuf Htc Hlen Hok) as [[-> _]|(? & tr & _ & _ & _ & (?&?&?) & ->)];
    cbn [mbind option_bind negb]; [by eexists|].
  destruct (skcms_GetTagBySignature_spec profile mem psize sig_gXYZ ICCTag_uninit
              Hbuf Htc Hlen Hok) as [[-> _]|(? & tg & _ & _ & _ & (?&?&?) & ->)];
    cbn [mbind option_bind negb]; [by eexists|].
  destruct (skcms_GetTagBySignature_spec profile mem psize sig_bXYZ ICCTag_uninit
              Hbuf Htc Hlen Hok) as [[-> _]|(? & tb & _ & _ & _ & (?&?&?) & ->)];
    cbn [mbind option_bind negb]; [by eexists|].
  cbv zeta. rewrite (bytes_of_Some _ _ Hbuf).
  destruct (read_tag_xyz_total mem tr 0 m0) as [[r1 m1] ->];
    [lia..|cbn [mbind option_bind]].
  destruct r1; cbn [negb]; [|by eexists].
  destruct (read_tag_xyz_total mem tg 1 m1) as [[r2 m2] ->];
    [lia..|cbn [mbind option_bind]].
  destruct r2; cbn [negb]; [|by eexists].
  apply read_tag_xyz_total; lia.
Qed.

Lemma skcms_Parse_header_invalid buf len :
  len <= Z.of_nat (length buf) -> ~ header_valid buf len ->
  exists p, skcms_Parse buf len = Some (false, p).
Proof.
  intros Hlen Hnv.
  destruct (Z_lt_le_dec len 132) as [Hs|Hl].
  { eexists. by apply skcms_Parse_short. }
  destruct (read_header_is_Some buf) as [p0 Hh]; [unfold header_Layout.sizeof; lia|].
  pose proof (header_checks buf len p0 Hh Hl) as Hck.
  unfold skcms_Parse. change (SAFE_SIZEOF header_Layout.sizeof) with 132 at 1.
  destruct (Z.ltb_spec len 132); [lia|].
  rewrite Hh. cbn [mbind option_bind].
  destruct (negb (signature p0 =? sig_acsp) || _ || _ || _) eqn:Hc1; [eauto|].
  destruct (off_D50 _ _ || _ || _) eqn:Hc2; [eauto|].
  exfalso. apply Hnv, Hck. split; reflexivity.
Qed.

(** Past the header checks, [skcms_Parse] is the tag-table loop followed by
    the two pre-parsers. *)
Lemma skcms_Parse_header_valid buf len p0 :
  header_valid buf len -> read_header buf = Some p0 ->
  skcms_Parse buf len =
  sane ← tags_sane buf (size p0) (Z.to_nat (tag_count p0)) 0;
  if negb sane then Some (false, p0) else
  '(has_tf_, tf_) ← get_transfer_function p0 (tf p0);
  let profile := set_tf has_tf_ tf_ p0 in
  '(has_toXYZD50_, toXYZD50_) ← read_to_XYZD50 profile (toXYZD50 profile);
  Some (true, set_toXYZD50 has_toXYZD50_ toXYZD50_ profile).
Proof.
  intros Hv Hh. pose proof Hv as [Hl _].
  apply (header_checks buf len p0 Hh Hl) in Hv as [Hc1 Hc2].
  unfold skcms_Parse. change (SAFE_SIZEOF header_Layout.sizeof) with 132 at 1.
  destruct (Z.ltb_spec len 132); [lia|].
  rewrite Hh. cbn [mbind option_bind]. rewrite Hc1, Hc2. reflexivity.
Qed.

Lemma header_valid_fields buf len p0 :
  header_valid buf len -> read_header buf = Some p0 ->
  buffer p0 = Some buf /\ 0 <= tag_count p0 < 2 ^ 32 /\
  132 + tag_count p0 * 12 <= size p0 /\ size p0 <= len /\
  read_big_u32 buf 0 = Some (size p0) /\ read_big_u32 buf 128 = Some (tag_count p0).
Proof.
  intros (_ & sz & ver & tc & iX & iY & iZ & R1 & _ & _ & R4 & _ & _ & _ & C1 & C2 & _) Hh.
  destruct (read_header_Some _ _ Hh) as (Hb & Hsz & _ & _ & Htc & _).
  unfold header_Layout.size, header_Layout.tag_count in *.
  rewrite Hsz in R1. rewrite Htc in R4. injection R1 as <-. injection R4 as <-.
  pose proof (read_big_u32_Some _ _ _ Htc) as (_ & _ & Hr).
  repeat split; try done; lia.
Qed.

(** On a buffer of at least [len] bytes [skcms_Parse] reads inside the
    buffer only: it returns. *)
Lemma skcms_Parse_total buf len :
  len <= Z.of_nat (length buf) -> is_Some (skcms_Parse buf len).
Proof.
  intros Hlen.
  destruct (Z_lt_le_dec len 132) as [Hs|Hl].
  { rewrite skcms_Parse_short by done. by eexists. }
  destruct (read_header_is_Some buf) as [p0 Hh]; [unfold header_Layout.sizeof; lia|].
  unfold skcms_Parse. change (SAFE_SIZEOF header_Layout.sizeof) with 132 at 1.
  destruct (Z.ltb_spec len 132); [lia|].
  rewrite Hh. cbn [mbind option_bind].
  destruct (negb (signature p0 =? sig_acsp) || _ || _ || _) eqn:Hc1; [by eexists|].
  destruct (off_D50 _ _ || _ || _) eqn:Hc2; [by eexists|].
  assert (Hv : header_valid buf len) by (apply (header_checks buf len p0 Hh Hl); done).
  destruct (header_valid_fields _ _ _ Hv Hh) as (Hb & Htc & Htab & Hsz & _).
  destruct (tags_sane_total buf (size p0) (Z.to_nat (tag_count p0)) 0) as [sane Hsane];
    [lia|lia|].
  rewrite Hsane. cbn [mbind option_bind].
  destruct sane; cbn [negb]; [|by eexists].
  apply tags_sane_true in Hsane. rewrite Z.add_0_l, Z2Nat.id in Hsane by lia.
  destruct (get_transfer_function_total p0 buf (size p0) (tf p0)) as [[b t] ->];
    [done|lia|lia|done|].
  cbn [mbind option_bind].
  destruct (read_to_XYZD50_total (set_tf b t p0) buf (size p0)
              (toXYZD50 (set_tf b t p0))) as [[b' m] ->]; [done|simpl; lia|lia|done|].
  by eexists.
Qed.

(** [skcms_Parse] returns true exactly on the buffers with a valid header
    and a valid tag table. *)
Lemma skcms_Parse_true_iff buf len :
  len <= Z.of_nat (length buf) ->
  (exists p, skcms_Parse buf len = Some (true, p)) <->
  header_valid buf len /\
  exists psize tc, read_big_u32 buf 0 = Some psize /\ read_big_u32 buf 128 = Some tc /\
                   entries_ok buf psize 0 tc.
Proof.
  intros Hlen. split.
  - intros [p H]. apply skcms_Parse_true in H
      as (_ & p0 & ? & ? & ? & ? & Hh & Hv & Hs & _).
    split; [done|].
    destruct (header_valid_fields _ _ _ Hv Hh) as (_ & Htc & _ & _ & R1 & R2).
    exists (size p0), (tag_count p0). split; [done|]. split; [done|].
    apply tags_sane_true in Hs. rewrite Z.add_0_l, Z2Nat.id in Hs by lia. done.
  - intros (Hv & psize & tc & R1 & R2 & Hok).
    destruct (skcms_Parse_total buf len Hlen) as [[r p] Hp].
    destruct r; [eauto|]. exfalso.
    pose proof Hv as [Hl _].
    destruct (read_header_is_Some buf) as [p0 Hh]; [unfold header_Layout.sizeof; lia|].
    destruct (header_valid_fields _ _ _ Hv Hh) as (_ & Htc & _ & _ & R1' & R2').
    rewrite R1 in R1'. rewrite R2 in R2'. injection R1' as ->. injection R2' as ->.
    rewrite (skcms_Parse_header_valid _ _ _ Hv Hh) in Hp.
    assert (Hs : tags_sane buf (size p0) (Z.to_nat (tag_count p0)) 0 = Some true).
    { apply tags_sane_true. rewrite Z.add_0_l, Z2Nat.id by lia. done. }
    rewrite Hs in Hp. cbn [mbind option_bind negb] in Hp.
    destruct (get_transfer_function _ _) as [[b t]|]; [|discriminate].
    cbn [mbind option_bind] in Hp.
    destruct (read_to_XYZD50 _ _) as [[b' m]|]; discriminate.
Qed.

(** ** 'para' tags *)

Lemma para_param_count_None ft : 4 < ft -> para_param_count ft = None.
Proof.
  intros H. destruct ft as [|p|p]; [lia| |lia].
  destruct p as [[p|p|]|[p|p|]|]; try lia; try reflexivity.
  destruct p; try reflexivity; lia.
Qed.

(** Case analysis on the next read of both sides of an equation between two
    computations that read the same bytes in the same order. *)
Ltac same_read :=
  rewrite <- ?(Z.add_assoc (_ + 12));
  repeat match goal with
  | |- context [Z.pos ?p + Z.pos ?q] =>
      let v := eval vm_compute in (Z.pos p + Z.pos q) in
      change (Z.pos p + Z.pos q) with v
  end;
  match goal with
  | |- context [read_big_fixed ?m ?p] =>
      destruct (read_big_fixed m p); cbn [mbind option_bind fmap option_fmap option_map];
      [|reflexivity]
  end.

(** The parser of the source and the parser of the specification agree on
    every tag, byte for byte read. *)
Lemma read_curve_para_parse_para mem buf size curve :
  parsed <$> read_curve_para mem buf size curve
  = fmap Curve_parametric <$> parse_para mem buf size.
Proof.
  unfold read_curve_para, parse_para.
  change (SAFE_SIZEOF para_Layout.sizeof) with 12.
  unfold para_Layout.function_type, para_Layout.parameters.
  destruct (Z.ltb_spec size 12); [reflexivity|].
  destruct (read_big_u16 mem (buf + 8)) as [ft|] eqn:Hft; [|reflexivity].
  cbn [mbind option_bind fmap option_fmap option_map].
  apply read_big_u16_Some in Hft as (_ & _ & Hr).
  unfold kGABCDEF, kGAB, kGABC, kGABCD.
  rewrite Z.gtb_ltb. destruct (Z.ltb_spec 4 ft).
  { rewrite para_param_count_None by done. reflexivity. }
  assert (Hcase : ft = 0 \/ ft = 1 \/ ft = 2 \/ ft = 3 \/ ft = 4) by lia.
  destruct Hcase as [->|[->|[->|[->| ->]]]];
    match goal with |- context [curve_bytes !! ?k] =>
      let v := eval vm_compute in (curve_bytes !! k) in change (curve_bytes !! k) with v end;
    cbn [mbind option_bind para_param_count fmap option_fmap option_map];
    match goal with |- context [wrap64 ?z] =>
      let v := eval vm_compute in (wrap64 z) in change (wrap64 z) with v end;
    match goal with |- context [12 + 4 * ?n] =>
      let v := eval vm_compute in (12 + 4 * n) in change (12 + 4 * n) with v end;
    (match goal with |- context [size <? ?v] =>
       destruct (Z.ltb_spec size v); [reflexivity|] end);
    match goal with |- context [Z.to_nat ?n] =>
      let v := eval vm_compute in (Z.to_nat n) in change (Z.to_nat n) with v end;
    cbn [read_params mbind option_bind Z.eqb Pos.eqb];
    repeat same_read;
    cbn [para_of_params lookup list_lookup default from_option id];
    try (destruct (F32.eqb _ _)); reflexivity.
Qed.

(** C5. [read_curve_para] is the parser of 'para' tags that the
    specification describes: it succeeds only for function types 0 to 4 with
    room for the 1, 3, 4, 5 or 7 parameters of the type; parameters that the
    type does not specify are 0, and a is 1; GAB and GABC fail when a == 0
    and otherwise get d = -b/a; GABC gets f = e. *)
Theorem read_curve_para_spec mem buf size curve :
  parsed <$> read_curve_para mem buf size curve
  = fmap Curve_parametric <$> parse_para mem buf size.
Proof. apply read_curve_para_parse_para. Qed.

(** ** 'curv' tags *)

Lemma F32_2pm8 : F32.div F32.one (F32.of_Z 256) = S754_finite false 8388608 (-31).
Proof. vm_compute. reflexivity. Qed.

Lemma gamma_of_u16_table :
  forall_range
    (fun u => Qeq_bool
                (F32.to_Q (SFmul 24 128 (binary_normalize 24 128 u 0 false)
                             (S754_finite false 8388608 (-31))))
                (u # 256))
    (Z.to_nat (2 ^ 16)) 0 = true.
Proof. vm_compute. reflexivity. Qed.

(** The 8.8 gamma is exact in binary32. *)
Lemma gamma_of_u16_exact u :
  0 <= u < 2 ^ 16 -> (F32.to_Q (gamma_of_u16 u) == u # 256)%Q.
Proof.
  intros Hu. apply Qeq_bool_eq. unfold gamma_of_u16. rewrite F32_2pm8.
  apply (forall_range_spec _ _ _ gamma_of_u16_table). lia.
Qed.

Lemma F32_to_R_zero : F32_to_R F32.zero = 0%R.
Proof. unfold F32_to_R. simpl. unfold Q2R. simpl. lra. Qed.

Lemma F32_to_R_one : F32_to_R F32.one = 1%R.
Proof.
  unfold F32_to_R. rewrite (Qeq_eqR _ 1%Q) by reflexivity.
  unfold Q2R. simpl. lra.
Qed.

Lemma sign_pos x : (0 < x)%R -> sign x = 1%R.
Proof.
  intros H. unfold sign. destruct (Rlt_dec x 0); [lra|].
  destruct (Rlt_dec 0 x); [reflexivity|lra].
Qed.

Lemma TransferFunction_eval_gamma g x :
  (0 < x)%R ->
  TransferFunction_eval (TransferFunction_gamma g) x = Rpower x (F32_to_R g).
Proof.
  intros Hx. unfold TransferFunction_eval, TransferFunction_gamma. simpl.
  rewrite F32_to_R_zero, F32_to_R_one.
  destruct (Rlt_dec (Rabs x) 0) as [H|_]; [pose proof (Rabs_pos x); lra|].
  rewrite sign_pos, Rabs_pos_eq by lra.
  replace (1 * x + 0)%R with x by lra. lra.
Qed.

Lemma TransferFunction_eval_identity x :
  (0 <= x)%R -> TransferFunction_eval TransferFunction_identity x = x.
Proof.
  intros [Hx| <-].
  - change TransferFunction_identity with (TransferFunction_gamma F32.one).
    rewrite TransferFunction_eval_gamma, F32_to_R_one by done.
    apply Rpower_1. done.
  - unfold TransferFunction_eval. simpl. rewrite F32_to_R_zero.
    destruct (Rlt_dec (Rabs 0) 0) as [H|_]; [pose proof (Rabs_pos 0); lra|].
    unfold sign. destruct (Rlt_dec 0 0); [lra|]. lra.
Qed.

(** C4. A 'curv' tag with no entry is the identity parametric curve, with one
    entry [u] the gamma curve of exponent u/256, with [n >= 2] entries the
    table of [n] 16-bit entries that follows the count inside the tag; a tag
    too small for its [value_count] entries fails to parse.  Evaluated by
    the formula of the specification, the first is [x] and the second
    [x^(u/256)]. *)
Theorem read_curve_curv_spec mem buf size curve :
  0 <= buf -> buf + size <= Z.of_nat (length mem) ->
  (size < 12 -> read_curve_curv mem buf size curve = Some (false, curve)) /\
  (12 <= size ->
   exists n, read_big_u32 mem (buf + 8) = Some n /\
     (size < 12 + 2 * n -> read_curve_curv mem buf size curve = Some (false, curve)) /\
     (12 + 2 * n <= size ->
      (n = 0 ->
       read_curve_curv mem buf size curve
       = Some (true, Curve_parametric TransferFunction_identity) /\
       forall x, (0 <= x)%R -> TransferFunction_eval TransferFunction_identity x = x) /\
      (n = 1 ->
       exists u, read_big_u16 mem (buf + 12) = Some u /\
         read_curve_curv mem buf size curve
         = Some (true, Curve_parametric (TransferFunction_gamma (gamma_of_u16 u))) /\
         (F32.to_Q (gamma_of_u16 u) == u # 256)%Q /\
         forall x, (0 < x)%R ->
           TransferFunction_eval (TransferFunction_gamma (gamma_of_u16 u)) x
           = Rpower x (IZR u / 256)) /\
      (2 <= n ->
       read_curve_curv mem buf size curve = Some (true, Curve_table (buf + 12) n)))).
Proof.
  intros Hb Hs. unfold read_curve_curv.
  change (SAFE_SIZEOF curv_Layout.sizeof) with 12. change (SAFE_SIZEOF 2) with 2.
  unfold curv_Layout.value_count, curv_Layout.parameters.
  split.
  { intros Hlt. destruct (Z.ltb_spec size 12); [reflexivity|lia]. }
  intros H12. destruct (Z.ltb_spec size 12); [lia|].
  destruct (read_big_u32_is_Some mem (buf + 8)) as [n Hn]; [lia..|].
  exists n. split; [done|]. rewrite Hn. cbn [mbind option_bind].
  apply read_big_u32_Some in Hn as (_ & _ & Hr).
  rewrite (wrap64_small (n * 2)) by lia. rewrite wrap64_small by lia.
  split.
  { intros Hlt. destruct (Z.ltb_spec size (12 + n * 2)); [reflexivity|lia]. }
  intros Hfit. destruct (Z.ltb_spec size (12 + n * 2)); [lia|].
  split; [|split].
  - intros ->. split; [reflexivity|]. apply TransferFunction_eval_identity.
  - intros ->. cbn [Z.ltb Z.eqb Z.compare Pos.compare Pos.compare_cont].
    destruct (read_big_u16_is_Some mem (buf + 12)) as [u Hu]; [lia..|].
    exists u. rewrite Hu. cbn [mbind option_bind].
    apply read_big_u16_Some in Hu as (_ & _ & Hru).
    split; [done|]. split; [reflexivity|].
    pose proof (gamma_of_u16_exact u Hru) as Hq. split; [done|].
    intros x Hx. rewrite TransferFunction_eval_gamma by done. f_equal.
    unfold F32_to_R. rewrite (Qeq_eqR _ _ Hq). unfold Q2R. simpl. lra.
  - intros Hn. destruct (Z.ltb_spec n 2); [lia|]. reflexivity.
Qed.

(** ** Multi-function tables *)

(** The loop over the axes multiplies by the same [grid_points] each time;
    no product wraps. *)
Lemma grid_size_loop_pow n : forall gp g,
  0 <= g -> 0 <= gp < 256 -> g * 256 ^ Z.of_nat n < 2 ^ 64 ->
  grid_size_loop n gp g = g * gp ^ Z.of_nat n.
Proof.
  induction n as [|n IH]; intros gp g Hg Hgp Hb.
  { simpl. lia. }
  rewrite Nat2Z.inj_succ, Z.pow_succ_r in * by lia.
  assert (Hp : 0 < 256 ^ Z.of_nat n) by (apply Z.pow_pos_nonneg; lia).
  simpl grid_size_loop. rewrite wrap64_small by nia.
  rewrite IH by nia. lia.
Qed.

Lemma read_mft_common_true mem buf mft mft' :
  read_mft_common mem buf mft = Some (true, mft') ->
  exists ic oc gp, mft_common_ok mem buf ic oc gp /\ gp < 256 /\
    input_channels mft' = ic /\ output_channels mft' = oc /\ grid_points mft' = gp /\
    input_table_size mft' = input_table_size mft /\
    output_table_size mft' = output_table_size mft /\
    table_byte_width mft' = table_byte_width mft /\
    input_tables mft' = input_tables mft /\ grid mft' = grid mft /\
    output_tables mft' = output_tables mft.
Proof.
  unfold read_mft_common, mft_common_ok.
  unfold mft_CommonLayout.matrix, mft_CommonLayout.input_channels,
    mft_CommonLayout.grid_points, mft_CommonLayout.output_channels,
    ARRAY_COUNT_output_tables, ARRAY_COUNT_input_tables.
  intros H.
  destruct (read_matrix_rows _ _ _ _ _) as [[? mtx]|]; [|discriminate].
  cbn [mbind option_bind] in H.
  destruct (read_u8 mem (buf + 8)) as [ic|] eqn:Hic; [|discriminate].
  cbn [mbind option_bind] in H.
  destruct (read_u8 mem (buf + 10)) as [gp|] eqn:Hgp; [|discriminate].
  cbn [mbind option_bind] in H.
  destruct (read_u8 mem (buf + 9)) as [oc|] eqn:Hoc; [|discriminate].
  cbn [mbind option_bind] in H.
  destruct (Z.eqb_spec oc 3); [|discriminate]. cbn [negb] in H.
  destruct (Z.ltb_spec ic 1); [discriminate|]. rewrite Z.gtb_ltb in H.
  destruct (Z.ltb_spec 4 ic); [discriminate|]. cbn [orb] in H.
  destruct (Z.ltb_spec gp 2); [discriminate|].
  injection H as <-. apply read_u8_Some in Hgp as Hgr.
  exists ic, oc, gp. simpl. repeat split; try done; lia.
Qed.

Lemma init_mft_tables_true base maxlen mft mft' :
  1 <= input_channels mft <= 4 -> output_channels mft = 3 ->
  2 <= grid_points mft < 256 ->
  0 <= input_table_size mft <= 4096 -> 0 <= output_table_size mft <= 4096 ->
  1 <= table_byte_width mft <= 2 ->
  init_mft_tables base maxlen mft = (true, mft') ->
  mft_fits (input_channels mft) (output_channels mft) (grid_points mft)
    (input_table_size mft) (output_table_size mft) (table_byte_width mft) maxlen /\
  input_channels mft' = input_channels mft /\
  output_channels mft' = output_channels mft /\
  grid_points mft' = grid_points mft /\
  input_table_size mft' = input_table_size mft /\
  output_table_size mft' = output_table_size mft /\
  table_byte_width mft' = table_byte_width mft /\
  grid mft' = Some (base + input_channels mft * input_table_size mft * table_byte_width mft) /\
  output_tables mft' =
    set_tables 3 0
      (base + input_channels mft * input_table_size mft * table_byte_width mft
       + output_channels mft * table_byte_width mft
         * grid_points mft ^ input_channels mft)
      (output_table_size mft * table_byte_width mft) (output_tables mft).
Proof.
  intros Hic Hoc Hgp Hits Hots Hw. unfold init_mft_tables, mft_fits.
  set (ic := input_channels mft) in *. set (gp := grid_points mft) in *.
  set (its := input_table_size mft) in *. set (ots := output_table_size mft) in *.
  set (w := table_byte_width mft) in *. rewrite Hoc.
  assert (B1 : 0 <= its * w <= 8192) by nia.
  assert (B2 : 0 <= ots * w <= 8192) by nia.
  assert (B3 : 0 <= ic * (its * w) <= 32768) by nia.
  rewrite (wrap64_small (its * w)) by lia.
  rewrite (wrap64_small (ots * w)) by lia.
  rewrite (wrap64_small (ic * (its * w))) by lia.
  rewrite (wrap64_small (3 * (ots * w))) by lia.
  rewrite (wrap64_small (3 * w)) by lia.
  assert (Hpow : 0 < gp ^ ic <= 4228250625).
  { split; [apply Z.pow_pos_nonneg; lia|]. change 4228250625 with (255 ^ 4).
    transitivity (255 ^ ic); [apply Z.pow_le_mono_l; lia|apply Z.pow_le_mono_r; lia]. }
  rewrite grid_size_loop_pow; rewrite ?Z2Nat.id by lia; [|lia|lia|].
  2:{ assert (256 ^ ic <= 4294967296)
        by (change 4294967296 with (256 ^ 4); apply Z.pow_le_mono_r; lia).
      assert (0 < 256 ^ ic) by (apply Z.pow_pos_nonneg; lia).
      assert (3 * w * 256 ^ ic <= 6 * 4294967296) by nia. lia. }
  assert (B4 : 0 <= 3 * w * gp ^ ic <= 6 * 4228250625) by nia.
  rewrite (wrap64_small (ic * (its * w) + 3 * w * gp ^ ic)) by lia.
  rewrite wrap64_small by lia.
  destruct (Z.ltb_spec maxlen (ic * (its * w) + 3 * w * gp ^ ic + 3 * (ots * w)));
    [discriminate|].
  intros [= <-]. simpl. unfold ARRAY_COUNT_output_tables.
  change (Z.to_nat 3) with 3%nat.
  replace (ic * its * w) with (ic * (its * w)) by lia.
  repeat split; try done. nia.
Qed.

Lemma load_tag_range mem sig i t :
  load_tag mem sig i = Some t ->
  tag_signature t = sig /\ 0 <= tag_size t < 2 ^ 32 /\ 0 <= tag_buf t < 2 ^ 32 /\
  read_big_u32 mem (tag_buf t) = Some (tag_type t).
Proof.
  unfold load_tag. intros H.
  destruct (read_big_u32 mem (tag_entry i + tag_Layout.size)) as [sz|] eqn:Hsz;
    [cbn [mbind option_bind] in H|discriminate].
  destruct (read_big_u32 mem (tag_entry i + tag_Layout.offset)) as [off|] eqn:Hoff;
    [cbn [mbind option_bind] in H|discriminate].
  destruct (read_big_u32 mem off) as [ty|] eqn:Hty;
    [cbn [mbind option_bind] in H|discriminate].
  injection H as <-. simpl.
  apply read_big_u32_Some in Hsz as (_ & _ & ?).
  apply read_big_u32_Some in Hoff as (_ & _ & ?). done.
Qed.

Lemma find_tag_true mem sig n : forall i tag t,
  find_tag mem sig n i tag = Some (true, t) ->
  tag_signature t = sig /\ 0 <= tag_size t < 2 ^ 32 /\ 0 <= tag_buf t < 2 ^ 32 /\
  read_big_u32 mem (tag_buf t) = Some (tag_type t).
Proof.
  induction n as [|n IH]; intros i tag t H; [discriminate|].
  rewrite find_tag_step in H.
  destruct (read_big_u32 mem _) as [s|]; [cbn [mbind option_bind] in H|discriminate].
  destruct (s =? sig); [|by eapply IH].
  destruct (load_tag mem sig i) as [t'|] eqn:Hl; [|discriminate].
  cbn [mbind option_bind] in H. injection H as <-. by eapply load_tag_range.
Qed.

Lemma skcms_GetTagBySignature_true profile sig tag t :
  skcms_GetTagBySignature profile sig tag = Some (true, t) ->
  tag_signature t = sig /\ 0 <= tag_size t < 2 ^ 32 /\ 0 <= tag_buf t < 2 ^ 32 /\
  read_big_u32 (bytes_of profile) (tag_buf t) = Some (tag_type t).
Proof.
  unfold skcms_GetTagBySignature, bytes_of.
  destruct (buffer profile) as [mem|]; [|discriminate]. apply find_tag_true.
Qed.

Lemma set_tables_lookup_lt n : forall i base stride l k,
  (k < i)%nat -> set_tables n i base stride l !! k = l !! k.
Proof.
  induction n as [|n IH]; intros i base stride l k Hk; [reflexivity|].
  simpl. rewrite IH by lia. apply list_lookup_insert_ne. lia.
Qed.

Lemma set_tables_lookup_first n base stride l :
  (0 < length l)%nat ->
  set_tables (S n) 0 base stride l !! 0%nat = Some (Some base).
Proof.
  intros Hl. simpl. rewrite set_tables_lookup_lt by lia.
  rewrite list_lookup_insert_eq by done.
  change (wrap64 (Z.of_nat 0 * stride)) with 0. rewrite Z.add_0_r. reflexivity.
Qed.

(** Every way [skcms_GetMultiFunctionTable] returns true. *)
Lemma skcms_GetMultiFunctionTable_inv profile mft mft' :
  skcms_GetMultiFunctionTable profile mft = Some (true, mft') ->
  exists a2b width skip,
    skcms_GetTagBySignature profile sig_A2B0 ICCTag_uninit = Some (true, a2b) /\
    mft_common_ok (bytes_of profile) (tag_buf a2b)
      (input_channels mft') (output_channels mft') (grid_points mft') /\
    grid_points mft' < 256 /\
    table_byte_width mft' = width /\ skip <= tag_size a2b /\
    (tag_type a2b = sig_mft1 /\ width = 1 /\ skip = 48 /\
     input_table_size mft' = 256 /\ output_table_size mft' = 256
     \/
     tag_type a2b = sig_mft2 /\ width = 2 /\ skip = 52 /\
     read_big_u16 (bytes_of profile) (tag_buf a2b + 48) = Some (input_table_size mft') /\
     read_big_u16 (bytes_of profile) (tag_buf a2b + 50) = Some (output_table_size mft') /\
     2 <= input_table_size mft' <= 4096 /\ 2 <= output_table_size mft' <= 4096) /\
    mft_fits (input_channels mft') (output_channels mft') (grid_points mft')
      (input_table_size mft') (output_table_size mft') width (tag_size a2b - skip) /\
    grid mft' = Some (tag_buf a2b + skip
                      + input_channels mft' * input_table_size mft' * width) /\
    output_tables mft' =
      set_tables 3 0
        (tag_buf a2b + skip + input_channels mft' * input_table_size mft' * width
         + output_channels mft' * width * grid_points mft' ^ input_channels mft')
        (output_table_size mft' * width) (output_tables mft).
Proof.
  unfold skcms_GetMultiFunctionTable. intros H.
  destruct (skcms_GetTagBySignature profile sig_A2B0 ICCTag_uninit) as [[ok a2b]|] eqn:Hl;
    [cbn [mbind option_bind] in H|discriminate].
  destruct ok; cbn [negb] in H; [|discriminate].
  pose proof (skcms_GetTagBySignature_true _ _ _ _ Hl) as (_ & Hsz & _ & _).
  set (mem := bytes_of profile) in *.
  destruct (Z.eqb_spec (tag_type a2b) sig_mft1) as [Ht1|Hn1].
  - (* 'mft1' *)
    unfold read_tag_mft1 in H. change (SAFE_SIZEOF mft1_Layout.sizeof) with 48 in H.
    unfold mft1_Layout.common, mft1_Layout.tables in H. rewrite Z.add_0_r in H.
    destruct (Z.ltb_spec (tag_size a2b) 48); [discriminate|].
    destruct (read_mft_common mem (tag_buf a2b) mft) as [[ok m1]|] eqn:Hc;
      [cbn [mbind option_bind] in H|discriminate].
    destruct ok; cbn [negb] in H; [|discriminate].
    apply read_mft_common_true in Hc
      as (ic & oc & gp & Hok & Hgp & E1 & E2 & E3 & E4 & E5 & E6 & E7 & E8 & E9).
    injection H as H. rewrite wrap64_small in H by lia.
    pose proof Hok as (_ & _ & _ & Hoc & Hic & Hgp2).
    apply init_mft_tables_true in H; simpl; try lia.
    simpl in H. rewrite E1, E2, E3, E9 in H.
    destruct H as (Hfit & F1 & F2 & F3 & F4 & F5 & F6 & F7 & F8).
    exists a2b, 1, 48. rewrite F1, F2, F3, F4, F5, F6.
    split; [done|]. split; [done|]. split; [done|]. split; [done|]. split; [lia|].
    split; [left; done|]. split; [done|]. split; [done|]. done.
  - destruct (Z.eqb_spec (tag_type a2b) sig_mft2) as [Ht2|Hn2]; [|discriminate].
    (* 'mft2' *)
    unfold read_tag_mft2 in H. change (SAFE_SIZEOF mft2_Layout.sizeof) with 52 in H.
    unfold mft2_Layout.common, mft2_Layout.tables, mft2_Layout.input_table_size,
      mft2_Layout.output_table_size in H. rewrite Z.add_0_r in H.
    destruct (Z.ltb_spec (tag_size a2b) 52); [discriminate|].
    destruct (read_mft_common mem (tag_buf a2b) mft) as [[ok m1]|] eqn:Hc;
      [cbn [mbind option_bind] in H|discriminate].
    destruct ok; cbn [negb] in H; [|discriminate].
    destruct (read_big_u16 mem (tag_buf a2b + 48)) as [its|] eqn:Hits;
      [cbn [mbind option_bind] in H|discriminate].
    destruct (read_big_u16 mem (tag_buf a2b + 50)) as [ots|] eqn:Hots;
      [cbn [mbind option_bind] in H|discriminate].
    apply read_mft_common_true in Hc
      as (ic & oc & gp & Hok & Hgp & E1 & E2 & E3 & E4 & E5 & E6 & E7 & E8 & E9).
    rewrite !Z.gtb_ltb in H.
    destruct (Z.ltb_spec its 2); [discriminate|].
    destruct (Z.ltb_spec 4096 its); [discriminate|].
    destruct (Z.ltb_spec ots 2); [discriminate|].
    destruct (Z.ltb_spec 4096 ots); [discriminate|]. cbn [orb] in H.
    injection H as H. rewrite wrap64_small in H by lia.
    pose proof Hok as (_ & _ & _ & Hoc & Hic & Hgp2).
    apply init_mft_tables_true in H; simpl; try lia.
    simpl in H. rewrite E1, E2, E3, E9 in H.
    destruct H as (Hfit & F1 & F2 & F3 & F4 & F5 & F6 & F7 & F8).
    exists a2b, 2, 52. rewrite F1, F2, F3, F4, F5, F6.
    split; [done|]. split; [done|]. split; [done|]. split; [done|]. split; [lia|].
    split; [right; repeat split; try done; lia|]. split; [done|]. split; done.
Qed.

(** ** Presence of a tag *)

Lemma first_with_unique mem sig i j :
  first_with mem sig 0 i -> first_with mem sig 0 j -> 0 <= i -> 0 <= j -> i = j.
Proof.
  intros [(oi & si & Hi) Hbi] [(oj & sj & Hj) Hbj] H0i H0j.
  destruct (Z.lt_trichotomy i j) as [Hlt|[->|Hlt]]; [|done|].
  - destruct (Hbj i) as (e & He & Hne); [lia|]. rewrite Hi in He.
    injection He as <-. done.
  - destruct (Hbi j) as (e & He & Hne); [lia|]. rewrite Hj in He.
    injection He as <-. done.
Qed.

(** On a parsed profile, a lookup finds a tag exactly when the tag is
    present, and then returns what its first entry describes. *)
Lemma skcms_GetTagBySignature_present profile mem psize sig tag t :
  buffer profile = Some mem -> 0 <= tag_count profile ->
  psize <= Z.of_nat (length mem) ->
  entries_ok mem psize 0 (tag_count profile) ->
  skcms_GetTagBySignature profile sig tag = Some (true, t)
  <-> tag_present mem (tag_count profile) sig t.
Proof.
  intros Hbuf Htc Hlen Hok.
  destruct (skcms_GetTagBySignature_spec profile mem psize sig tag Hbuf Htc Hlen Hok)
    as [[Hf Hall]|(j & t' & Hj & Hfirst & Ht & _ & Hf)]; rewrite Hf.
  - split; [discriminate|].
    intros (j & Hj & [(off & sz & He) _] & _).
    destruct (Hall j Hj) as (e & He' & Hne). rewrite He in He'.
    injection He' as <-. done.
  - split.
    + intros [= <-]. by exists j.
    + intros (i & Hi & Hfi & Hti).
      assert (i = j) as -> by (eapply first_with_unique; eauto; lia).
      rewrite Ht in Hti. by injection Hti as ->.
Qed.

Lemma skcms_GetTagBySignature_total profile mem psize sig tag :
  buffer profile = Some mem -> 0 <= tag_count profile ->
  psize <= Z.of_nat (length mem) ->
  entries_ok mem psize 0 (tag_count profile) ->
  skcms_GetTagBySignature profile sig tag = Some (false, tag) \/
  exists t, skcms_GetTagBySignature profile sig tag = Some (true, t).
Proof.
  intros Hbuf Htc Hlen Hok.
  destruct (skcms_GetTagBySignature_spec profile mem psize sig tag Hbuf Htc Hlen Hok)
    as [[Hf _]|(j & t' & _ & _ & _ & _ & Hf)]; eauto.
Qed.

(** ** The gamut matrix *)

Lemma read_tag_xyz_inv mem t col m ok m' :
  read_tag_xyz mem t col m = Some (ok, m') ->
  (ok = true /\ xyz_tag t /\
   exists c, xyz_triple mem t = Some c /\
             m' = set_val 2 col c.2 (set_val 1 col c.1.2 (set_val 0 col c.1.1 m)))
  \/ (ok = false /\ ~ xyz_tag t /\ m' = m).
Proof.
  unfold read_tag_xyz, xyz_tag, xyz_triple.
  change (SAFE_SIZEOF XYZ_Layout.sizeof) with 20.
  unfold XYZ_Layout.X, XYZ_Layout.Y, XYZ_Layout.Z_.
  destruct (Z.eqb_spec (tag_type t) sig_XYZ) as [Hty|Hty]; cbn [andb].
  2:{ intros [= <- <-]. right. split; [done|]. split; [intros [? _]; done|done]. }
  destruct (Z.leb_spec 20 (tag_size t)) as [Hsz|Hsz].
  2:{ intros [= <- <-]. right. split; [done|]. split; [intros [_ ?]; lia|done]. }
  intros H.
  destruct (read_big_fixed mem (tag_buf t + 8)) as [x|];
    [cbn [mbind option_bind] in *|discriminate].
  destruct (read_big_fixed mem (tag_buf t + 12)) as [y|];
    [cbn [mbind option_bind] in *|discriminate].
  destruct (read_big_fixed mem (tag_buf t + 16)) as [z|];
    [cbn [mbind option_bind] in *|discriminate].
  injection H as <- <-. left. split; [done|]. split; [done|].
  exists (x, y, z). done.
Qed.

(** Every way [read_to_XYZD50] returns, in terms of the lookups. *)
Lemma read_to_XYZD50_inv profile ok m :
  read_to_XYZD50 profile Matrix3x3_zero = Some (ok, m) ->
  let found sig t := skcms_GetTagBySignature profile sig ICCTag_uninit = Some (true, t) in
  (ok = true /\ exists r g b cr cg cb,
      found sig_rXYZ r /\ found sig_gXYZ g /\ found sig_bXYZ b /\
      xyz_tag r /\ xyz_tag g /\ xyz_tag b /\
      xyz_triple (bytes_of profile) r = Some cr /\
      xyz_triple (bytes_of profile) g = Some cg /\
      xyz_triple (bytes_of profile) b = Some cb /\
      m = Matrix3x3_of_columns cr cg cb)
  \/ (ok = false /\
      ~ exists r g b, found sig_rXYZ r /\ found sig_gXYZ g /\ found sig_bXYZ b /\
                      xyz_tag r /\ xyz_tag g /\ xyz_tag b).
Proof.
  intros H found. unfold read_to_XYZD50 in H.
  destruct (skcms_GetTagBySignature profile sig_rXYZ ICCTag_uninit) as [[okr r]|] eqn:Hr;
    [cbn [mbind option_bind] in H|discriminate].
  destruct okr; cbn [negb] in H.
  2:{ injection H as <- <-. right. split; [done|].
      intros (r' & ? & ? & Hf & _). unfold found in Hf. congruence. }
  destruct (skcms_GetTagBySignature profile sig_gXYZ ICCTag_uninit) as [[okg g]|] eqn:Hg;
    [cbn [mbind option_bind] in H|discriminate].
  destruct okg; cbn [negb] in H.
  2:{ injection H as <- <-. right. split; [done|].
      intros (? & g' & ? & _ & Hf & _). unfold found in Hf. congruence. }
  destruct (skcms_GetTagBySignature profile sig_bXYZ ICCTag_uninit) as [[okb b]|] eqn:Hb;
    [cbn [mbind option_bind] in H|discriminate].
  destruct okb; cbn [negb] in H.
  2:{ injection H as <- <-. right. split; [done|].
      intros (? & ? & b' & _ & _ & Hf & _). unfold found in Hf. congruence. }
  cbv zeta in H.
  destruct (read_tag_xyz _ r 0 _) as [[ok1 m1]|] eqn:H1;
    [cbn [mbind option_bind] in H|discriminate].
  apply read_tag_xyz_inv in H1 as [(-> & Hxr & cr & Hcr & ->)|(-> & Hnr & ->)];
    cbn [negb] in H.
  2:{ injection H as <- <-. right. split; [done|].
      intros (r' & g' & b' & Hf & _ & _ & Hx & _). unfold found in Hf.
      rewrite Hr in Hf. injection Hf as <-. done. }
  destruct (read_tag_xyz _ g 1 _) as [[ok2 m2]|] eqn:H2;
    [cbn [mbind option_bind] in H|discriminate].
  apply read_tag_xyz_inv in H2 as [(-> & Hxg & cg & Hcg & ->)|(-> & Hng & ->)];
    cbn [negb] in H.
  2:{ injection H as <- <-. right. split; [done|].
      intros (r' & g' & b' & _ & Hf & _ & _ & Hx & _). unfold found in Hf.
      rewrite Hg in Hf. injection Hf as <-. done. }
  apply read_tag_xyz_inv in H as [(-> & Hxb & cb & Hcb & ->)|(-> & Hnb & ->)].
  2:{ right. split; [done|].
      intros (r' & g' & b' & _ & _ & Hf & _ & _ & Hx). unfold found in Hf.
      rewrite Hb in Hf. injection Hf as <-. done. }
  left. split; [done|]. exists r, g, b, cr, cg, cb.
  split; [done|]. split; [done|]. split; [done|]. split; [done|]. split; [done|].
  split; [done|]. split; [done|]. split; [done|]. split; [done|]. reflexivity.
Qed.

(** ** The transfer function *)

Lemma get_transfer_function_inv profile t0 ok t :
  get_transfer_function profile t0 = Some (ok, t) ->
  let found sig x := skcms_GetTagBySignature profile sig ICCTag_uninit = Some (true, x) in
  let curve x c :=
    read_curve (bytes_of profile) (tag_buf x) (tag_size x) Curve_uninit = Some (true, c) in
  (ok = true /\ exists r g b cr cg cb,
      found sig_rTRC r /\ found sig_gTRC g /\ found sig_bTRC b /\
      curve r cr /\ curve g cg /\ curve b cb /\
      table cr = None /\ table cg = None /\ table cb = None /\
      parametric cr = t /\ parametric cg = t /\ parametric cb = t)
  \/ (ok = false /\ t = t0 /\
      ~ exists r g b cr cg cb,
          found sig_rTRC r /\ found sig_gTRC g /\ found sig_bTRC b /\
          curve r cr /\ curve g cg /\ curve b cb /\
          table cr = None /\ table cg = None /\ table cb = None /\
          parametric cr = parametric cg /\ parametric cr = parametric cb).
Proof.
  intros H found curve. unfold get_transfer_function in H.
  destruct (skcms_GetTagBySignature profile sig_rTRC ICCTag_uninit) as [[okr r]|] eqn:Hr;
    [cbn [mbind option_bind] in H|discriminate].
  destruct okr; cbn [negb] in H.
  2:{ injection H as <- <-. right. split; [done|]. split; [done|].
      intros (r' & ? & ? & ? & ? & ? & Hf & _). unfold found in Hf. congruence. }
  destruct (skcms_GetTagBySignature profile sig_gTRC ICCTag_uninit) as [[okg g]|] eqn:Hg;
    [cbn [mbind option_bind] in H|discriminate].
  destruct okg; cbn [negb] in H.
  2:{ injection H as <- <-. right. split; [done|]. split; [done|].
      intros (? & g' & ? & ? & ? & ? & _ & Hf & _). unfold found in Hf. congruence. }
  destruct (skcms_GetTagBySignature profile sig_bTRC ICCTag_uninit) as [[okb b]|] eqn:Hb;
    [cbn [mbind option_bind] in H|discriminate].
  destruct okb; cbn [negb] in H.
  2:{ injection H as <- <-. right. split; [done|]. split; [done|].
      intros (? & ? & b' & ? & ? & ? & _ & _ & Hf & _). unfold found in Hf. congruence. }
  cbv zeta in H.
  assert (Hfail : forall P : Prop, (P -> False) ->
            (exists r' g' b' cr cg cb,
               found sig_rTRC r' /\ found sig_gTRC g' /\ found sig_bTRC b' /\
               curve r' cr /\ curve g' cg /\ curve b' cb /\
               table cr = None /\ table cg = None /\ table cb = None /\
               parametric cr = parametric cg /\ parametric cr = parametric cb) ->
            (forall cr cg cb, curve r cr -> curve g cg -> curve b cb ->
               table cr = None -> table cg = None -> table cb = None ->
               parametric cr = parametric cg -> parametric cr = parametric cb -> P) ->
            False).
  { intros P HP (r' & g' & b' & cr & cg & cb & F1 & F2 & F3 & C1 & C2 & C3 & T) HPc.
    unfold found in F1, F2, F3. rewrite Hr in F1. rewrite Hg in F2. rewrite Hb in F3.
    injection F1 as <-. injection F2 as <-. injection F3 as <-.
    destruct T as (? & ? & ? & ? & ?). eapply HP, HPc; eauto. }
  destruct (read_curve _ (tag_buf r) _ _) as [[r1 cr]|] eqn:H1;
    [cbn [mbind option_bind] in H|discriminate].
  destruct r1; cbn [negb orb] in H.
  2:{ injection H as <- <-. right. split; [done|]. split; [done|].
      intros Hex. apply (Hfail False); [done|done|].
      intros cr' ? ? C1 _ _ _ _ _ _ _. unfold curve in C1. congruence. }
  destruct (bool_decide_reflect (table cr <> None)) as [Htr|Htr].
  { injection H as <- <-. right. split; [done|]. split; [done|].
    intros Hex. apply (Hfail False); [done|done|].
    intros cr' ? ? C1 _ _ T1 _ _ _ _. unfold curve in C1. congruence. }
  destruct (read_curve _ (tag_buf g) _ _) as [[r2 cg]|] eqn:H2;
    [cbn [mbind option_bind] in H|discriminate].
  destruct r2; cbn [negb orb] in H.
  2:{ injection H as <- <-. right. split; [done|]. split; [done|].
      intros Hex. apply (Hfail False); [done|done|].
      intros ? cg' ? _ C2 _ _ _ _ _ _. unfold curve in C2. congruence. }
  destruct (bool_decide_reflect (table cg <> None)) as [Htg|Htg].
  { injection H as <- <-. right. split; [done|]. split; [done|].
    intros Hex. apply (Hfail False); [done|done|].
    intros ? cg' ? _ C2 _ _ T2 _ _ _. unfold curve in C2. congruence. }
  destruct (read_curve _ (tag_buf b) _ _) as [[r3 cb]|] eqn:H3;
    [cbn [mbind option_bind] in H|discriminate].
  destruct r3; cbn [negb orb] in H.
  2:{ injection H as <- <-. right. split; [done|]. split; [done|].
      intros Hex. apply (Hfail False); [done|done|].
      intros ? ? cb' _ _ C3 _ _ _ _ _. unfold curve in C3. congruence. }
  destruct (bool_decide_reflect (table cb <> None)) as [Htb|Htb].
  { injection H as <- <-. right. split; [done|]. split; [done|].
    intros Hex. apply (Hfail False); [done|done|].
    intros ? ? cb' _ _ C3 _ _ T3 _ _. unfold curve in C3. congruence. }
  unfold memcmp_eq in H.
  destruct (bool_decide_reflect (parametric cr = parametric cg)) as [E1|E1];
    cbn [negb orb] in H.
  2:{ injection H as <- <-. right. split; [done|]. split; [done|].
      intros Hex. apply (Hfail False); [done|done|].
      intros cr' cg' ? C1 C2 _ _ _ _ E _. unfold curve in C1, C2. congruence. }
  destruct (bool_decide_reflect (parametric cr = parametric cb)) as [E2|E2];
    cbn [negb orb] in H.
  2:{ injection H as <- <-. right. split; [done|]. split; [done|].
      intros Hex. apply (Hfail False); [done|done|].
      intros cr' ? cb' C1 _ C3 _ _ _ _ E. unfold curve in C1, C3. congruence. }
  injection H as <- <-. left. split; [done|].
  exists r, g, b, cr, cg, cb.
  assert (table cr = None) by (destruct (table cr); [exfalso; apply Htr|]; done).
  assert (table cg = None) by (destruct (table cg); [exfalso; apply Htg|]; done).
  assert (table cb = None) by (destruct (table cb); [exfalso; apply Htb|]; done).
  repeat split; try done; congruence.
Qed.

(** ** A successful [read_curve] assigns every member of the curve *)

(** Follow one computation in a hypothesis and the same computation, started
    from other contents of the out-parameter, in the goal. *)
Ltac step_both H :=
  match type of H with
  | mbind _ ?x = _ => destruct x; cbn [mbind option_bind] in *; [|discriminate H]
  | (if ?c then _ else _) = _ => destruct c; try discriminate H
  end.

Lemma read_curve_overwrites mem buf size c1 c2 r :
  read_curve mem buf size c1 = Some (true, r) ->
  read_curve mem buf size c2 = Some (true, r).
Proof.
  unfold read_curve, read_curve_para, read_curve_curv. intros H.
  repeat step_both H; exact H.
Qed.

(** ** The parameters of a parsed curve are finite *)

Lemma shr_nonneg mrs e n : 0 <= shr_m mrs -> 0 <= shr_m (fst (shr mrs e n)).
Proof.
  intros H. unfold shr. destruct n as [|p|p]; simpl fst; try done.
  by apply iter_pos_shr_m.
Qed.

Lemma binary_round_aux_not_nan s m e l :
  0 <= m ->
  match binary_round_aux 24 128 s m e l with S754_nan => False | _ => True end.
Proof.
  intros Hm. unfold binary_round_aux, shr_fexp.
  pose proof (shr_nonneg (shr_record_of_loc m l) e
                (fexp 24 128 (Zdigits2 m + e) - e)) as H1.
  rewrite shr_record_of_loc_m in H1. specialize (H1 Hm).
  destruct (shr (shr_record_of_loc m l) e _) as [mrs1 e1]. simpl in H1.
  pose proof (round_nearest_even_bounds (shr_m mrs1) (loc_of_shr_record mrs1)) as Hr.
  set (m2 := round_nearest_even (shr_m mrs1) (loc_of_shr_record mrs1)) in *.
  pose proof (shr_nonneg (shr_record_of_loc m2 loc_Exact) e1
                (fexp 24 128 (Zdigits2 m2 + e1) - e1)) as H2.
  rewrite shr_record_of_loc_m in H2. specialize (H2 ltac:(lia)).
  destruct (shr (shr_record_of_loc m2 loc_Exact) e1 _) as [mrs2 e2]. simpl in H2.
  destruct (shr_m mrs2) as [|p|p]; [done| |lia].
  destruct (e2 <=? 128 - 24); done.
Qed.

(** A 32-bit integer converts to a zero or to a normal number: it is too
    small to overflow. *)
Lemma F32_of_Z_finite i :
  - 2 ^ 32 < i < 2 ^ 32 ->
  F32.of_Z i = S754_zero false \/
  exists s m e, F32.of_Z i = S754_finite s m e /\ -23 <= e <= 9 /\
                2 ^ 23 <= Z.pos m < 2 ^ 24.
Proof.
  intros Hi. unfold F32.of_Z, F32.prec, F32.emax, binary_normalize.
  destruct i as [|p|p]; [by left| |].
  - pose proof (digits2_pos_upper p 32 ltac:(lia) ltac:(lia)).
    pose proof (digits2_pos_lower p 0 ltac:(lia) ltac:(lia)).
    destruct (binary_round_range false p 0) as (m & e & He & Hm & ->); [lia|].
    destruct (Z.leb_spec e 104); [|lia].
    right. exists false, m, e. split; [done|]. split; lia.
  - pose proof (digits2_pos_upper p 32 ltac:(lia) ltac:(lia)).
    pose proof (digits2_pos_lower p 0 ltac:(lia) ltac:(lia)).
    destruct (binary_round_range true p 0) as (m & e & He & Hm & ->); [lia|].
    destruct (Z.leb_spec e 104); [|lia].
    right. exists true, m, e. split; [done|]. split; lia.
Qed.

(** Scaling by a power of two between 2^-16 and 1 keeps it so. *)
Lemma F32_scale_finite i k :
  - 2 ^ 32 < i < 2 ^ 32 -> -39 <= k <= -23 ->
  F32_finite (F32.mul (F32.of_Z i) (S754_finite false 8388608 k)).
Proof.
  intros Hi Hk.
  destruct (F32_of_Z_finite i Hi) as [->|(s & m & e & -> & He & Hm)]; [done|].
  unfold F32.mul, F32.prec, F32.emax. rewrite SFmul_finite.
  assert (Hd : Z.pos (digits2_pos (m * 8388608)) = 47).
  { apply Z.le_antisymm.
    - apply digits2_pos_upper; [lia|]. rewrite Pos2Z.inj_mul.
      change (2 ^ 47) with (2 ^ 24 * 8388608). lia.
    - apply (digits2_pos_lower _ 46); [lia|]. rewrite Pos2Z.inj_mul.
      change (2 ^ 46) with (2 ^ 23 * 8388608). lia. }
  destruct (binary_round_aux_range (xorb s false) (m * 8388608) (e + k) loc_Exact)
    as (m' & e' & He' & Hm' & ->); [lia|lia|].
  destruct (Z.leb_spec e' 104); [done|lia].
Qed.

Lemma fixed_of_i32_finite i : - 2 ^ 31 <= i < 2 ^ 31 -> F32_finite (fixed_of_i32 i).
Proof.
  intros Hi. unfold fixed_of_i32. rewrite F32_2pm16. apply F32_scale_finite; lia.
Qed.

Lemma gamma_of_u16_finite u : 0 <= u < 2 ^ 16 -> F32_finite (gamma_of_u16 u).
Proof.
  intros Hu. unfold gamma_of_u16. rewrite F32_2pm8. apply F32_scale_finite; lia.
Qed.

Lemma read_big_fixed_finite mem ptr x :
  read_big_fixed mem ptr = Some x -> F32_finite x.
Proof.
  intros H. apply read_big_fixed_Some in H as (i & Hi & ->).
  apply read_big_i32_Some in Hi as (_ & _ & Hr). by apply fixed_of_i32_finite.
Qed.

(** [-b / a] for finite [b] and finite [a] other than zero is not a NaN. *)
Lemma F32_div_neg_not_nan a b :
  F32_finite a -> F32_finite b -> F32.eqb a F32.zero = false ->
  match F32.div (F32.neg b) a with S754_nan => False | _ => True end.
Proof.
  intros Ha Hb Hnz.
  destruct a as [sa| | |sa ma ea]; try done.
  destruct b as [sb| | |sb mb eb]; try done.
  unfold F32.div, F32.neg, SFopp, SFdiv, F32.prec, F32.emax.
  destruct (SFdiv_core_binary 24 128 (Z.pos mb) eb (Z.pos ma) ea) as [[mz ez] lz] eqn:Hc.
  apply binary_round_aux_not_nan.
  unfold SFdiv_core_binary in Hc.
  set (s := _ - _ - _) in Hc.
  set (m' := match s with Z0 => Z.pos mb | Z.pos _ => Z.shiftl (Z.pos mb) s
             | Z.neg _ => 0 end) in Hc.
  assert (Hm' : 0 <= m').
  { subst m'. destruct s; [lia| |lia]. apply Z.shiftl_nonneg. lia. }
  pose proof (Z.div_pos m' (Z.pos ma) Hm' ltac:(lia)) as Hq.
  unfold Z.div in Hq. destruct (Z.div_eucl m' (Z.pos ma)) as [q r].
  injection Hc as <- _ _. exact Hq.
Qed.

Lemma F32_finite_not_nan x : F32_finite x -> x <> S754_nan.
Proof. by destruct x. Qed.

Ltac no_nan :=
  lazymatch goal with
  | |- F32.zero <> _ => discriminate
  | |- F32.one <> _ => vm_compute; discriminate
  | |- F32.div (F32.neg ?b) ?a <> _ =>
      let H := fresh in
      pose proof (F32_div_neg_not_nan a b) as H;
      destruct (F32.div (F32.neg b) a); [discriminate..|exfalso; apply H|discriminate];
      [eapply read_big_fixed_finite; eassumption ..|assumption]
  | |- gamma_of_u16 ?u <> _ =>
      apply F32_finite_not_nan, gamma_of_u16_finite;
      match goal with
      | H : read_big_u16 _ _ = Some u |- _ => apply read_big_u16_Some in H; apply H
      end
  | |- ?x <> _ => eapply F32_finite_not_nan, read_big_fixed_finite; eassumption
  end.

(** What [get_transfer_function] compares with [memcmp] has no NaN. *)
Lemma read_curve_no_nan mem buf size c0 c :
  read_curve mem buf size c0 = Some (true, c) -> TransferFunction_no_nan (parametric c).
Proof.
  unfold read_curve, read_curve_para, read_curve_curv. intros H.
  repeat inv_step H; try discriminate H; injection H as <-;
    unfold TransferFunction_no_nan; simpl; repeat split; no_nan.
Qed.

(** ** A successfully parsed profile *)

Lemma set_fields_lookup b t b' m profile sig tag :
  skcms_GetTagBySignature (set_toXYZD50 b' m (set_tf b t profile)) sig tag
  = skcms_GetTagBySignature profile sig tag.
Proof. reflexivity. Qed.

Lemma skcms_Parse_true_facts buf len p :
  len <= Z.of_nat (length buf) ->
  skcms_Parse buf len = Some (true, p) ->
  exists p0,
    read_header buf = Some p0 /\
    buffer p0 = Some buf /\ 0 <= tag_count p0 /\ tag_count p = tag_count p0 /\
    size p0 <= Z.of_nat (length buf) /\
    entries_ok buf (size p0) 0 (tag_count p0) /\
    get_transfer_function p0 TransferFunction_zero = Some (has_tf p, tf p) /\
    read_to_XYZD50 p0 Matrix3x3_zero = Some (has_toXYZD50 p, toXYZD50 p).
Proof.
  intros Hlen H.
  apply skcms_Parse_true in H as (_ & p0 & b & t & b' & m & Hh & Hv & Hs & Htf & Hx & ->).
  destruct (header_valid_fields _ _ _ Hv Hh) as (Hb & Htc & _ & Hsz & _).
  destruct (read_header_Some _ _ Hh) as (_ & _ & _ & _ & _ & _ & _ & _ & _ & Z1 & _ & Z2 & _).
  exists p0. split; [done|]. split; [done|]. split; [lia|]. split; [done|].
  split; [lia|]. split.
  { apply tags_sane_true in Hs. rewrite Z.add_0_l, Z2Nat.id in Hs by lia. done. }
  rewrite Z1 in Htf. simpl in Hx. rewrite Z2 in Hx. split; [exact Htf|exact Hx].
Qed.

(** C2 (as amended). After a successful [skcms_Parse], [has_tf] is true
    exactly when rTRC, gTRC and bTRC are all present, each parses as a 'para'
    or 'curv' curve in parametric form, and the three parameter sets are
    equal; [tf] is then that shared curve.  Otherwise [has_tf] is false and
    [tf] keeps the zero of the cleared record. *)
Theorem skcms_Parse_has_tf buf len p :
  len <= Z.of_nat (length buf) ->
  skcms_Parse buf len = Some (true, p) ->
  (has_tf p = true <-> exists t, trc_parametric buf (tag_count p) t) /\
  (forall t, trc_parametric buf (tag_count p) t -> tf p = t) /\
  (has_tf p = false -> tf p = TransferFunction_zero).
Proof.
  intros Hlen H.
  destruct (skcms_Parse_true_facts _ _ _ Hlen H)
    as (p0 & Hh & Hb & Htc & -> & Hsz & Hok & Htf & _).
  pose proof (fun sig t => skcms_GetTagBySignature_present p0 buf (size p0) sig
                ICCTag_uninit t Hb Htc Hsz Hok) as Hpres.
  pose proof (bytes_of_Some _ _ Hb) as Hmem.
  apply get_transfer_function_inv in Htf. cbv zeta in Htf. rewrite Hmem in Htf.
  assert (Hconv : forall t, trc_parametric buf (tag_count p0) t ->
            exists r g b cr cg cb,
              skcms_GetTagBySignature p0 sig_rTRC ICCTag_uninit = Some (true, r) /\
              skcms_GetTagBySignature p0 sig_gTRC ICCTag_uninit = Some (true, g) /\
              skcms_GetTagBySignature p0 sig_bTRC ICCTag_uninit = Some (true, b) /\
              read_curve buf (tag_buf r) (tag_size r) Curve_uninit = Some (true, cr) /\
              read_curve buf (tag_buf g) (tag_size g) Curve_uninit = Some (true, cg) /\
              read_curve buf (tag_buf b) (tag_size b) Curve_uninit = Some (true, cb) /\
              table cr = None /\ table cg = None /\ table cb = None /\
              parametric cr = t /\ parametric cg = t /\ parametric cb = t).
  { intros t (cr & cg & cb & (r & g & b & P1 & P2 & P3 & C1 & C2 & C3) & T).
    exists r, g, b, cr, cg, cb. rewrite !Hpres. repeat split; try done; apply T. }
  destruct Htf as [(-> & r & g & b & cr & cg & cb & F1 & F2 & F3 & C1 & C2 & C3 & T)
                  |(-> & -> & Hno)].
  - assert (Htp : trc_parametric buf (tag_count p0) (tf p)).
    { exists cr, cg, cb. split; [|apply T].
      exists r, g, b. rewrite <- !Hpres. done. }
    split; [split; [eauto|done]|]. split; [|discriminate].
    intros t Ht. apply Hconv in Ht
      as (r' & g' & b' & cr' & ? & ? & F1' & _ & _ & C1' & _ & _ & _ & _ & _ & E & _).
    rewrite F1 in F1'. injection F1' as <-. rewrite C1 in C1'. injection C1' as <-.
    destruct T as (_ & _ & _ & <- & _). done.
  - assert (Habs : forall t, ~ trc_parametric buf (tag_count p0) t).
    { intros t Ht. apply Hno. apply Hconv in Ht
        as (r & g & b & cr & cg & cb & ? & ? & ? & ? & ? & ? & ? & ? & ? & E1 & E2 & E3).
      exists r, g, b, cr, cg, cb. repeat split; try done; congruence. }
    split; [split; [discriminate|intros [t Ht]; by apply Habs in Ht]|].
    split; [intros t Ht; by apply Habs in Ht|done].
Qed.

(** C6. [has_toXYZD50] is true exactly when rXYZ, gXYZ and bXYZ are all
    present, of type 'XYZ ' and of at least 20 bytes; the columns of
    [toXYZD50] are then the (X, Y, Z) triples of rXYZ, gXYZ and bXYZ, read as
    s15.16. *)
Theorem skcms_Parse_has_toXYZD50 buf len p :
  len <= Z.of_nat (length buf) ->
  skcms_Parse buf len = Some (true, p) ->
  (has_toXYZD50 p = true <-> exists r g b, xyz_tags buf (tag_count p) r g b) /\
  (forall r g b, xyz_tags buf (tag_count p) r g b ->
     exists cr cg cb,
       xyz_triple buf r = Some cr /\ xyz_triple buf g = Some cg /\
       xyz_triple buf b = Some cb /\
       toXYZD50 p = Matrix3x3_of_columns cr cg cb).
Proof.
  intros Hlen H.
  destruct (skcms_Parse_true_facts _ _ _ Hlen H)
    as (p0 & Hh & Hb & Htc & -> & Hsz & Hok & _ & Hx).
  pose proof (fun sig t => skcms_GetTagBySignature_present p0 buf (size p0) sig
                ICCTag_uninit t Hb Htc Hsz Hok) as Hpres.
  pose proof (bytes_of_Some _ _ Hb) as Hmem.
  apply read_to_XYZD50_inv in Hx. cbv zeta in Hx. rewrite Hmem in Hx.
  destruct Hx as [(-> & r & g & b & cr & cg & cb & F1 & F2 & F3 & X1 & X2 & X3
                   & T1 & T2 & T3 & ->)|(-> & Hno)].
  - split.
    + split; [|done]. intros _. exists r, g, b. unfold xyz_tags.
      rewrite <- !Hpres. done.
    + intros r' g' b' (P1 & P2 & P3 & _).
      apply Hpres in P1, P2, P3. rewrite F1 in P1. rewrite F2 in P2. rewrite F3 in P3.
      injection P1 as <-. injection P2 as <-. injection P3 as <-.
      exists cr, cg, cb. done.
  - assert (Habs : forall r g b, ~ xyz_tags buf (tag_count p0) r g b).
    { intros r g b (P1 & P2 & P3 & X). apply Hno. exists r, g, b.
      rewrite !Hpres. done. }
    split; [split; [discriminate|intros (r & g & b & Ht); by apply Habs in Ht]|].
    intros r g b Ht. by apply Habs in Ht.
Qed.

(** C8. Whenever [skcms_Parse] returns false, every cached flag of the
    profile is false and the cached transfer function and matrix are the
    zeros of the cleared record. *)
Theorem skcms_Parse_false_empty buf len p :
  skcms_Parse buf len = Some (false, p) ->
  has_tf p = false /\ has_toXYZD50 p = false /\ has_A2B p = false /\
  tf p = TransferFunction_zero /\ toXYZD50 p = Matrix3x3_zero.
Proof.
  intros H. apply skcms_Parse_false in H as [->|Hh]; [done|].
  apply read_header_Some in Hh
    as (_ & _ & _ & _ & _ & _ & _ & _ & H1 & H2 & H3 & H4 & H5). done.
Qed.

(** C3. With a readable header, [skcms_Parse] returns false as soon as one
    tag-table entry has a size below 4 or an offset + size above the
    declared profile size; if the header is valid and every entry is valid,
    the tag-table check passes and the parse succeeds.  The sum offset + size
    that the code computes is the sum of the integers: it does not wrap. *)
Theorem skcms_Parse_tag_table buf len psize tc :
  len <= Z.of_nat (length buf) ->
  read_big_u32 buf 0 = Some psize -> read_big_u32 buf 128 = Some tc ->
  (forall i e, 0 <= i < tc -> entry_fields buf i = Some e -> ~ entry_ok psize e ->
     exists p, skcms_Parse buf len = Some (false, p)) /\
  (header_valid buf len -> entries_ok buf psize 0 tc ->
     tags_sane buf psize (Z.to_nat tc) 0 = Some true /\
     exists p, skcms_Parse buf len = Some (true, p)) /\
  (forall i e, entry_fields buf i = Some e -> wrap64 (e.1.2 + e.2) = e.1.2 + e.2).
Proof.
  intros Hlen R1 R2.
  pose proof (read_big_u32_Some _ _ _ R2) as (_ & _ & Htc).
  split; [|split].
  - intros i e Hi He Hbad.
    destruct (skcms_Parse_total buf len Hlen) as [[[|] p] Hp]; [|eauto].
    exfalso. apply Hbad.
    assert (Hex : exists p, skcms_Parse buf len = Some (true, p)) by eauto.
    apply skcms_Parse_true_iff in Hex as (_ & ps' & tc' & R1' & R2' & Hok); [|done].
    rewrite R1 in R1'. rewrite R2 in R2'. injection R1' as <-. injection R2' as <-.
    destruct (Hok i Hi) as (e' & He' & Hok'). rewrite He in He'. by injection He' as <-.
  - intros Hv Hok. split.
    + apply tags_sane_true. rewrite Z.add_0_l, Z2Nat.id by lia. done.
    + apply skcms_Parse_true_iff; [done|]. split; [done|]. by exists psize, tc.
  - intros i [[sig off] sz] He. simpl.
    apply entry_fields_Some in He as (_ & Hoff & Hsz).
    apply read_big_u32_Some in Hoff as (_ & _ & ?).
    apply read_big_u32_Some in Hsz as (_ & _ & ?).
    by apply tag_end_no_wrap.
Qed.

(** C7. [skcms_GetMultiFunctionTable] succeeds only on an A2B0 tag of type
    'mft1' or 'mft2' with three output channels, one to four input channels
    and at least two grid points whose tables fit in the bytes that follow
    the fixed layout (48 bytes for 'mft1', 52 for 'mft2'); the tables of
    'mft1' have 256 one-byte entries, those of 'mft2' have the sizes of the
    tag, each in [2, 4096], and two-byte entries. *)
Theorem skcms_GetMultiFunctionTable_checks profile mft mft' :
  skcms_GetMultiFunctionTable profile mft = Some (true, mft') ->
  mft_accepted profile mft'.
Proof.
  intros H. apply skcms_GetMultiFunctionTable_inv in H
    as (a2b & width & skip & Hl & Hok & _ & Hw & Hskip & Hty & Hfit & _).
  exists a2b, (input_channels mft'), (output_channels mft'), (grid_points mft'),
    (input_table_size mft'), (output_table_size mft'), width, skip.
  split; [done|]. split; [done|]. split.
  { destruct Hty as [(? & ? & ? & ? & ?)|(? & ? & ? & ? & ? & ? & ?)]; [left|right]; done. }
  repeat split; done.
Qed.

(** C10. An accepted multi-function table has one number of grid points,
    the byte at offset 10 of the tag, for all of its input axes: the grid
    that follows the input tables has output_channels * width *
    grid_points ^ input_channels bytes, and the output tables start right
    after it. *)
Theorem skcms_GetMultiFunctionTable_grid profile mft mft' :
  length (output_tables mft) = 3%nat ->
  skcms_GetMultiFunctionTable profile mft = Some (true, mft') ->
  uniform_grid profile mft'.
Proof.
  intros Hlen H. apply skcms_GetMultiFunctionTable_inv in H
    as (a2b & width & skip & Hl & Hok & Hgp & Hw & _ & Hty & _ & Hg & Ho).
  destruct Hok as (Hic & Hoc & Hgpr & Hoc3 & Hicr & Hgp2).
  eexists a2b, _. split; [done|]. split; [done|]. split; [lia|]. split; [done|].
  split; [exact Hg|]. split.
  - rewrite Ho, Hw. apply set_tables_lookup_first. lia.
  - assert (Hwr : 1 <= table_byte_width mft' <= 2)
      by (destruct Hty as [(_ & ? & _)|(_ & ? & _)]; lia).
    assert (256 ^ input_channels mft' <= 4294967296)
      by (change 4294967296 with (256 ^ 4); apply Z.pow_le_mono_r; lia).
    assert (0 < 256 ^ input_channels mft') by (apply Z.pow_pos_nonneg; lia).
    rewrite grid_size_loop_pow; rewrite ?Z2Nat.id by lia; [done|lia|lia|].
    rewrite Hoc3.
    assert (3 * table_byte_width mft' * 256 ^ input_channels mft' <= 6 * 4294967296)
      by nia. lia.
Qed.

(** C1. [skcms_Parse] returns true only if the buffer has at least 132 bytes,
    the signature at offset 36 is 'acsp', the declared size is at most [len]
    and at least [132 + tag_count * 12], the major version is at most 4 and
    each illuminant coordinate, read as s15.16, is within 0.01 of D50; and on
    a buffer of at least [len] bytes, violating any of these makes it return
    false. *)
Theorem skcms_Parse_header_checks buf len :
  (forall p, skcms_Parse buf len = Some (true, p) -> header_valid buf len) /\
  (len <= Z.of_nat (length buf) -> ~ header_valid buf len ->
   exists p, skcms_Parse buf len = Some (false, p)).
Proof.
  split.
  - intros p H. apply skcms_Parse_true in H as (_ & p0 & ? & ? & ? & ? & _ & Hv & _).
    exact Hv.
  - apply skcms_Parse_header_invalid.
Qed.

(** On a parsed profile, looking a signature up finds a tag exactly when the
    tag is present in the tag table. *)
Lemma skcms_Parse_lookup buf len p sig t :
  len <= Z.of_nat (length buf) ->
  skcms_Parse buf len = Some (true, p) ->
  skcms_GetTagBySignature p sig ICCTag_uninit = Some (true, t)
  <-> tag_present buf (tag_count p) sig t.
Proof.
  intros Hlen H.
  destruct (skcms_Parse_true_facts _ _ _ Hlen H)
    as (p0 & Hh & Hb & Htc & Etc & Hsz & Hok & _).
  pose proof H as H'.
  apply skcms_Parse_true in H' as (_ & q & b & t' & b' & m & Hq & _ & _ & _ & _ & ->).
  rewrite Hh in Hq. injection Hq as <-.
  rewrite set_fields_lookup. simpl tag_count.
  by apply (skcms_GetTagBySignature_present p0 buf (size p0)).
Qed.

(** ** skcms_GetTagByIndex *)

(** For an index below [tag_count], the tag is filled from the entry of that
    index. *)
Lemma skcms_GetTagByIndex_in_range profile mem idx tag :
  buffer profile = Some mem -> idx < tag_count profile ->
  skcms_GetTagByIndex profile idx tag = tag_of_entry mem idx.
Proof.
  intros Hb Hi. unfold skcms_GetTagByIndex. rewrite Hb.
  rewrite Z.gtb_ltb. destruct (Z.ltb_spec (tag_count profile) idx); [lia|].
  unfold tag_of_entry, load_tag, entry_fields. rewrite tag_entry_eq.
  unfold tag_Layout.signature, tag_Layout.offset, tag_Layout.size. rewrite Z.add_0_r.
  destruct (read_big_u32 mem (132 + 12 * idx)) as [s|]; cbn [mbind option_bind];
    [|reflexivity].
  destruct (read_big_u32 mem (132 + 12 * idx + 4)) as [o|];
    destruct (read_big_u32 mem (132 + 12 * idx + 8)) as [z|];
    cbn [mbind option_bind]; reflexivity.
Qed.

(** For an index above [tag_count], nothing is read and the tag is left as
    it was. *)
Lemma skcms_GetTagByIndex_above profile idx tag :
  tag_count profile < idx -> skcms_GetTagByIndex profile idx tag = Some tag.
Proof.
  intros Hi. unfold skcms_GetTagByIndex. destruct (buffer profile); [|reflexivity].
  rewrite Z.gtb_ltb. destruct (Z.ltb_spec (tag_count profile) idx); [reflexivity|lia].
Qed.

(** C9 fails at [idx = tag_count]: the guard of the source is
    [idx > tag_count], so the entry after the last one is read.  On a
    profile of six tags, index 6 fills the tag from the first bytes of the
    tag data; on a profile of 132 bytes without tags, index 0 reads outside
    the buffer. *)
Theorem skcms_GetTagByIndex_at_tag_count :
  skcms_Parse Fixture.gamma_profile 280 = Some (true, Parsed.gamma) /\
  tag_count Parsed.gamma = 6 /\
  skcms_GetTagByIndex Parsed.gamma 6 ICCTag_uninit
  = Some {| tag_signature := sig_curv; tag_type := 280; tag_size := 1; tag_buf := 0 |} /\
  skcms_Parse Fixture.empty_profile 132 = Some (true, Parsed.empty) /\
  tag_count Parsed.empty = 0 /\
  skcms_GetTagByIndex Parsed.empty 0 ICCTag_uninit = None.
Proof. vm_compute. repeat split; reflexivity. Qed.

(** ** The theorems at concrete profiles *)

Lemma skcms_Parse_header_checks_witness :
  header_valid Fixture.gamma_profile 280 /\
  exists p, skcms_Parse Fixture.bad_signature_profile 132 = Some (false, p).
Proof.
  split.
  - apply (proj1 (skcms_Parse_header_checks Fixture.gamma_profile 280) Parsed.gamma).
    vm_compute. reflexivity.
  - apply (proj2 (skcms_Parse_header_checks Fixture.bad_signature_profile 132)).
    + simpl. lia.
    + intros (_ & sz & ver & tc & iX & iY & iZ & _ & _ & Hsig & _).
      vm_compute in Hsig. discriminate.
Defined.

Lemma skcms_Parse_has_tf_witness :
  has_tf Parsed.gamma = true
  <-> exists t, trc_parametric Fixture.gamma_profile (tag_count Parsed.gamma) t.
Proof.
  apply (skcms_Parse_has_tf Fixture.gamma_profile 280 Parsed.gamma).
  - simpl. lia.
  - vm_compute. reflexivity.
Defined.

(** C2 as stated fails: when the TRCs are three gammas that are not equal,
    the parse succeeds with [has_tf] false, the three curves parse, and the
    profile is exactly the record of the header: its only curve member, [tf],
    is all zero and is none of the three curves. *)
Lemma skcms_Parse_has_tf_counterexample :
  skcms_Parse Fixture.mixed_gamma_profile 200 = Some (true, Parsed.mixed_gamma) /\
  has_tf Parsed.mixed_gamma = false /\
  read_header Fixture.mixed_gamma_profile = Some Parsed.mixed_gamma /\
  exists cr cg cb,
    trc_curves Fixture.mixed_gamma_profile (tag_count Parsed.mixed_gamma) cr cg cb /\
    table cr = None /\ table cg = None /\ table cb = None /\
    tf Parsed.mixed_gamma <> parametric cr /\
    tf Parsed.mixed_gamma <> parametric cg /\
    tf Parsed.mixed_gamma <> parametric cb.
Proof.
  assert (Hp : skcms_Parse Fixture.mixed_gamma_profile 200 = Some (true, Parsed.mixed_gamma))
    by (vm_compute; reflexivity).
  assert (Hlen : 200 <= Z.of_nat (length Fixture.mixed_gamma_profile)) by (simpl; lia).
  split; [exact Hp|]. split; [vm_compute; reflexivity|].
  split; [vm_compute; reflexivity|].
  exists (Curve_parametric (TransferFunction_gamma (gamma_of_u16 0x0233))),
    (Curve_parametric (TransferFunction_gamma (gamma_of_u16 0x01CD))),
    (Curve_parametric (TransferFunction_gamma (gamma_of_u16 0x01CD))).
  split.
  - exists {| tag_signature := sig_rTRC; tag_type := sig_curv; tag_size := 16;
              tag_buf := 168 |},
      {| tag_signature := sig_gTRC; tag_type := sig_curv; tag_size := 16; tag_buf := 184 |},
      {| tag_signature := sig_bTRC; tag_type := sig_curv; tag_size := 16; tag_buf := 184 |}.
    rewrite <- !(skcms_Parse_lookup _ _ _ _ _ Hlen Hp).
    vm_compute. repeat split; reflexivity.
  - vm_compute. repeat split; discriminate.
Qed.

Lemma skcms_Parse_tag_table_witness :
  exists p, skcms_Parse Fixture.wrapping_entry_profile 144 = Some (false, p).
Proof.
  apply (proj1 (skcms_Parse_tag_table Fixture.wrapping_entry_profile 144 144 1
                  ltac:(simpl; lia) ltac:(reflexivity) ltac:(reflexivity))
           0 (sig_rTRC, 0xFFFFFFFF, 4)).
  - lia.
  - reflexivity.
  - unfold entry_ok. simpl. lia.
Defined.

Lemma read_curve_curv_spec_witness :
  read_curve_curv (Fixture.curv_gamma 0x0233) 0 16 Curve_uninit
  = Some (true, Curve_parametric (TransferFunction_gamma (gamma_of_u16 0x0233))).
Proof.
  destruct (read_curve_curv_spec (Fixture.curv_gamma 0x0233) 0 16 Curve_uninit)
    as [_ H]; [lia|simpl; lia|].
  destruct H as (n & Hn & _ & H); [lia|].
  vm_compute in Hn. injection Hn as <-.
  destruct H as (_ & H & _); [lia|].
  destruct H as (u & Hu & Hr & _); [reflexivity|].
  vm_compute in Hu. injection Hu as <-. exact Hr.
Defined.

Lemma skcms_Parse_has_toXYZD50_witness :
  has_toXYZD50 Parsed.gamma = true
  <-> exists r g b, xyz_tags Fixture.gamma_profile (tag_count Parsed.gamma) r g b.
Proof.
  apply (skcms_Parse_has_toXYZD50 Fixture.gamma_profile 280 Parsed.gamma).
  - simpl. lia.
  - vm_compute. reflexivity.
Defined.

Lemma skcms_GetMultiFunctionTable_checks_witness :
  mft_accepted Parsed.a2b Parsed.a2b_table.
Proof.
  apply (skcms_GetMultiFunctionTable_checks Parsed.a2b MultiFunctionTable_zero).
  vm_compute. reflexivity.
Defined.

Lemma skcms_Parse_false_empty_witness :
  has_tf ICCProfile_zero = false /\ has_toXYZD50 ICCProfile_zero = false /\
  has_A2B ICCProfile_zero = false /\
  tf ICCProfile_zero = TransferFunction_zero /\ toXYZD50 ICCProfile_zero = Matrix3x3_zero.
Proof.
  apply (skcms_Parse_false_empty Fixture.one_byte 1). vm_compute. reflexivity.
Defined.

Lemma skcms_GetMultiFunctionTable_grid_witness :
  uniform_grid Parsed.a2b Parsed.a2b_table.
Proof.
  apply (skcms_GetMultiFunctionTable_grid Parsed.a2b MultiFunctionTable_zero).
  - reflexivity.
  - vm_compute. reflexivity.
Defined.

(** ** What a successful parse guarantees to the tag accessors *)

(** The profile of a successful parse points at the buffer, and its tag
    table lies, with every tag it describes, inside the declared size. *)
Lemma skcms_Parse_profile buf len p :
  len <= Z.of_nat (length buf) ->
  skcms_Parse buf len = Some (true, p) ->
  buffer p = Some buf /\ 0 <= tag_count p < 2 ^ 32 /\
  132 + tag_count p * 12 <= size p /\ size p <= len /\
  entries_ok buf (size p) 0 (tag_count p).
Proof.
  intros Hlen H.
  destruct (skcms_Parse_true_facts _ _ _ Hlen H) as (p0 & Hh & Hb & _ & Etc & _ & Hok & _).
  apply skcms_Parse_true in H as (_ & q & b & t & b' & m & Hq & Hv & _ & _ & _ & ->).
  rewrite Hh in Hq. injection Hq as <-.
  destruct (header_valid_fields _ _ _ Hv Hh) as (_ & Htc & Hsz & Hle & _).
  simpl. done.
Qed.

(** An entry that is valid in a profile that fits the buffer describes a tag
    whose type can be read. *)
Lemma tag_of_entry_Some mem psize i :
  psize <= Z.of_nat (length mem) ->
  (exists e, entry_fields mem i = Some e /\ entry_ok psize e) ->
  exists t, tag_of_entry mem i = Some t /\ tag_in t psize.
Proof.
  intros Hlen ([[sig off] sz] & He & Hsz & Hend). simpl in Hsz, Hend.
  pose proof He as He'.
  apply entry_fields_Some in He' as (_ & Hoff & _).
  apply read_big_u32_Some in Hoff as (_ & _ & Hoff).
  destruct (read_big_u32_is_Some mem off) as [ty Hty]; [lia..|].
  exists {| tag_signature := sig; tag_type := ty; tag_size := sz; tag_buf := off |}.
  unfold tag_of_entry, tag_in. rewrite He. cbn [mbind option_bind]. rewrite Hty. simpl.
  split; [done|lia].
Qed.

(** X1. [skcms_Parse] reads no byte outside a buffer of at least [len] bytes. *)
Theorem skcms_Parse_memory_safe buf len :
  len <= Z.of_nat (length buf) ->
  exists ok p, skcms_Parse buf len = Some (ok, p).
Proof.
  intros Hlen. destruct (skcms_Parse_total buf len Hlen) as [[ok p] H]. eauto.
Qed.

(** X2. A successful parse does not depend on [len] beyond the declared size. *)
Theorem skcms_Parse_any_len buf len len' p :
  skcms_Parse buf len = Some (true, p) ->
  size p <= len' ->
  skcms_Parse buf len' = Some (true, p).
Proof.
  intros H Hle. pose proof H as H'.
  apply skcms_Parse_true in H' as (_ & p0 & b & t & b' & m & Hh & Hv & _ & _ & _ & ->).
  destruct (header_valid_fields _ _ _ Hv Hh) as (_ & Htc & Hsz & _ & R0 & _).
  simpl in Hle.
  assert (Hv' : header_valid buf len').
  { destruct Hv as (_ & sz & ver & tc & iX & iY & iZ & E0 & E1 & E2 & E3 & E4 & E5 & E6
                    & _ & Hrest).
    split; [lia|]. exists sz, ver, tc, iX, iY, iZ.
    rewrite R0 in E0. injection E0 as <-. rewrite R0. repeat split; try done; apply Hrest. }
  rewrite (skcms_Parse_header_valid _ _ _ Hv' Hh).
  rewrite <- (skcms_Parse_header_valid _ _ _ Hv Hh). exact H.
Qed.

(** A tag found on a parsed profile lies inside the declared size. *)
Lemma found_tag_in_profile buf len p sig tag t :
  len <= Z.of_nat (length buf) ->
  skcms_Parse buf len = Some (true, p) ->
  skcms_GetTagBySignature p sig tag = Some (true, t) ->
  tag_signature t = sig /\ 4 <= tag_size t /\ 0 <= tag_buf t /\
  tag_buf t + tag_size t <= size p /\ size p <= Z.of_nat (length buf) /\
  read_big_u32 buf (tag_buf t) = Some (tag_type t).
Proof.
  intros Hlen Hp H.
  destruct (skcms_Parse_profile _ _ _ Hlen Hp) as (Hb & Htc & _ & Hsz & Hok).
  pose proof (skcms_GetTagBySignature_true _ _ _ _ H) as (Hs & _ & _ & Hty).
  rewrite (bytes_of_Some _ _ Hb) in Hty.
  destruct (skcms_GetTagBySignature_spec p buf (size p) sig tag Hb ltac:(lia) ltac:(lia) Hok)
    as [[Hf _]|(j & t' & _ & _ & _ & (I1 & I2 & I3) & Hf)];
    rewrite Hf in H; [discriminate|]. injection H as <-.
  repeat split; try done; lia.
Qed.

(** A lookup on a parsed profile reads inside the buffer. *)
Lemma lookup_on_parsed buf len p sig tag :
  len <= Z.of_nat (length buf) ->
  skcms_Parse buf len = Some (true, p) ->
  skcms_GetTagBySignature p sig tag = Some (false, tag) \/
  exists t, skcms_GetTagBySignature p sig tag = Some (true, t).
Proof.
  intros Hlen Hp.
  destruct (skcms_Parse_profile _ _ _ Hlen Hp) as (Hb & Htc & _ & Hsz & Hok).
  apply (skcms_GetTagBySignature_total p buf (size p)); (done || lia).
Qed.

(** X6. A tag that [skcms_GetTagBySignature] returns on a parsed profile has
    the signature asked for, at least four bytes, lies inside the declared
    size of the profile, and its type is the big-endian word at its start. *)
Theorem skcms_GetTagBySignature_in_profile buf len p sig tag t :
  len <= Z.of_nat (length buf) ->
  skcms_Parse buf len = Some (true, p) ->
  skcms_GetTagBySignature p sig tag = Some (true, t) ->
  tag_signature t = sig /\ 4 <= tag_size t /\ 0 <= tag_buf t /\
  tag_buf t + tag_size t <= size p /\ size p <= Z.of_nat (length buf) /\
  read_big_u32 buf (tag_buf t) = Some (tag_type t).
Proof. apply found_tag_in_profile. Qed.

(** X7. On a parsed profile [skcms_GetTagBySignature] returns false exactly
    when no entry of the tag table has the signature, and then leaves the tag
    as it was. *)
Theorem skcms_GetTagBySignature_missing buf len p sig tag :
  len <= Z.of_nat (length buf) ->
  skcms_Parse buf len = Some (true, p) ->
  ((exists r, skcms_GetTagBySignature p sig tag = Some (false, r)) <->
   forall j, 0 <= j < tag_count p ->
             exists e, entry_fields buf j = Some e /\ e.1.1 <> sig) /\
  (forall r, skcms_GetTagBySignature p sig tag = Some (false, r) -> r = tag).
Proof.
  intros Hlen Hp.
  destruct (skcms_Parse_profile _ _ _ Hlen Hp) as (Hb & Htc & _ & Hsz & Hok).
  destruct (skcms_GetTagBySignature_spec p buf (size p) sig tag Hb ltac:(lia) ltac:(lia) Hok)
    as [[Hf Hall]|(j & t' & Hj & [(off & sz & He) _] & _ & _ & Hf)]; rewrite Hf.
  - split; [split; [done|eauto]|]. intros r [= <-]. done.
  - split; [split|]; [intros [r [=]]| |intros r [=]].
    intros Hall. destruct (Hall j Hj) as (e & He' & Hne).
    rewrite He in He'. injection He' as <-. done.
Qed.

(** X8. When several entries carry the signature, the first one is returned. *)
Theorem skcms_GetTagBySignature_first_match buf len p sig tag t :
  len <= Z.of_nat (length buf) ->
  skcms_Parse buf len = Some (true, p) ->
  skcms_GetTagBySignature p sig tag = Some (true, t) <->
  exists j, 0 <= j < tag_count p /\ tag_of_entry buf j = Some t /\
            tag_signature t = sig /\
            forall k, 0 <= k < j -> exists e, entry_fields buf k = Some e /\ e.1.1 <> sig.
Proof.
  intros Hlen Hp.
  destruct (skcms_Parse_profile _ _ _ Hlen Hp) as (Hb & Htc & _ & Hsz & Hok).
  rewrite (skcms_GetTagBySignature_present p buf (size p) sig tag t Hb) by (done || lia).
  unfold tag_present, first_with. split.
  - intros (j & Hj & [(off & sz & He) Hbefore] & Ht). exists j.
    split; [done|]. split; [done|]. split; [|done].
    unfold tag_of_entry in Ht. rewrite He in Ht. cbn [mbind option_bind] in Ht.
    destruct (read_big_u32 buf off); [|discriminate]. by injection Ht as <-.
  - intros (j & Hj & Ht & Hs & Hbefore). exists j. split; [done|]. split; [|done].
    split; [|done].
    unfold tag_of_entry in Ht. destruct (entry_fields buf j) as [[[s off] sz]|];
      [|discriminate]. cbn [mbind option_bind] in Ht.
    destruct (read_big_u32 buf off); [|discriminate]. injection Ht as <-.
    simpl in Hs. subst s. eauto.
Qed.

(** X9. For an index below [tag_count] of a parsed profile,
    [skcms_GetTagByIndex] reads inside the buffer and returns the tag of that
    entry, which lies inside the declared size of the profile. *)
Theorem skcms_GetTagByIndex_in_profile buf len p idx tag :
  len <= Z.of_nat (length buf) ->
  skcms_Parse buf len = Some (true, p) ->
  0 <= idx < tag_count p ->
  exists t, skcms_GetTagByIndex p idx tag = Some t /\
            tag_of_entry buf idx = Some t /\
            4 <= tag_size t /\ 0 <= tag_buf t /\ tag_buf t + tag_size t <= size p /\
            read_big_u32 buf (tag_buf t) = Some (tag_type t).
Proof.
  intros Hlen Hp Hi.
  destruct (skcms_Parse_profile _ _ _ Hlen Hp) as (Hb & Htc & _ & Hsz & Hok).
  destruct (tag_of_entry_Some buf (size p) idx ltac:(lia) (Hok idx Hi))
    as (t & Ht & I1 & I2 & I3).
  exists t. rewrite (skcms_GetTagByIndex_in_range p buf idx tag Hb) by lia.
  repeat split; try done.
  unfold tag_of_entry in Ht. destruct (entry_fields buf idx) as [[[s off] sz]|];
    [|discriminate]. cbn [mbind option_bind] in Ht.
  destruct (read_big_u32 buf off) eqn:E; [|discriminate]. by injection Ht as <-.
Qed.

(** X10. Looking up the signature of the tag at index [idx] finds a tag with
    that signature at an index not above [idx]; it is the tag at [idx] itself
    when no earlier entry has the signature. *)
Theorem skcms_GetTagByIndex_then_BySignature buf len p idx tag tag' t :
  len <= Z.of_nat (length buf) ->
  skcms_Parse buf len = Some (true, p) ->
  0 <= idx < tag_count p ->
  skcms_GetTagByIndex p idx tag = Some t ->
  (exists j t', 0 <= j <= idx /\ tag_of_entry buf j = Some t' /\
                tag_signature t' = tag_signature t /\
                skcms_GetTagBySignature p (tag_signature t) tag' = Some (true, t')) /\
  ((forall k, 0 <= k < idx ->
              exists e, entry_fields buf k = Some e /\ e.1.1 <> tag_signature t) ->
   skcms_GetTagBySignature p (tag_signature t) tag' = Some (true, t)).
Proof.
  intros Hlen Hp Hi Ht.
  destruct (skcms_Parse_profile _ _ _ Hlen Hp) as (Hb & Htc & _ & Hsz & Hok).
  rewrite (skcms_GetTagByIndex_in_range p buf idx tag Hb) in Ht by lia.
  assert (He : exists off sz, entry_fields buf idx = Some (tag_signature t, off, sz)).
  { unfold tag_of_entry in Ht. destruct (entry_fields buf idx) as [[[s off] sz]|];
      [|discriminate]. cbn [mbind option_bind] in Ht.
    destruct (read_big_u32 buf off); [|discriminate]. injection Ht as <-. simpl. eauto. }
  split.
  - destruct (skcms_GetTagBySignature_spec p buf (size p) (tag_signature t) tag'
                Hb ltac:(lia) ltac:(lia) Hok)
      as [[_ Hall]|(j & t' & Hj & [_ Hbefore] & Hte & _ & Hf)].
    + destruct (Hall idx Hi) as (e & He' & Hne). destruct He as (off & sz & He).
      rewrite He in He'. injection He' as <-. done.
    + exists j, t'. split; [|split; [done|split; [|done]]].
      * destruct (Z_lt_le_dec idx j) as [Hlt|]; [|lia].
        destruct (Hbefore idx ltac:(lia)) as (e & He' & Hne). destruct He as (off & sz & He).
        rewrite He in He'. injection He' as <-. done.
      * by apply skcms_GetTagBySignature_true in Hf as [? _].
  - intros Hbefore.
    apply (skcms_GetTagBySignature_present p buf (size p) _ tag' t Hb); [lia|lia|done|].
    exists idx. split; [done|]. split; [|done]. split; done.
Qed.

(** ** The tables of an A2B0 tag *)

Lemma read_matrix_cols_is_Some mem n : forall ptr r c m,
  0 <= ptr -> ptr + 4 * Z.of_nat n <= Z.of_nat (length mem) ->
  exists m', read_matrix_cols mem ptr r n c m = Some (ptr + 4 * Z.of_nat n, m').
Proof.
  induction n as [|n IH]; intros ptr r c m H0 H1.
  { exists m. simpl. by rewrite Z.add_0_r. }
  simpl read_matrix_cols.
  destruct (read_big_fixed_is_Some mem ptr) as [v ->]; [lia..|]. cbn [mbind option_bind].
  destruct (IH (ptr + 4) r (S c) (set_val r c v m)) as [m' ->]; [lia..|].
  exists m'. do 2 f_equal. lia.
Qed.

Lemma read_matrix_rows_is_Some mem ptr m :
  0 <= ptr -> ptr + 36 <= Z.of_nat (length mem) ->
  is_Some (read_matrix_rows mem ptr 3 0 m).
Proof.
  intros H0 H1. cbn [read_matrix_rows].
  destruct (read_matrix_cols_is_Some mem 3 ptr 0 0 m) as [m1 E1]; [lia..|].
  rewrite E1. cbn [mbind option_bind].
  destruct (read_matrix_cols_is_Some mem 3 (ptr + 4 * Z.of_nat 3) 1 0 m1) as [m2 E2]; [lia..|].
  rewrite E2. cbn [mbind option_bind].
  destruct (read_matrix_cols_is_Some mem 3 (ptr + 4 * Z.of_nat 3 + 4 * Z.of_nat 3) 2 0 m2)
    as [m3 E3]; [lia..|].
  rewrite E3. cbn [mbind option_bind]. by eexists.
Qed.

(** The two loops over the matrix store the nine s15.16 numbers at
    [ptr], [ptr + 4], ... in row-major order. *)
Lemma read_matrix_rows_vals mem ptr m q m' :
  Matrix3x3_shape m ->
  read_matrix_rows mem ptr 3 0 m = Some (q, m') ->
  forall r c, (r < 3)%nat -> (c < 3)%nat ->
    get_val m' r c = read_big_fixed mem (ptr + 4 * Z.of_nat (3 * r + c)) /\
    is_Some (get_val m' r c).
Proof.
  intros [Hl Hrows] H.
  destruct m as [rows]. simpl in Hl, Hrows.
  destruct rows as [|r0 [|r1 [|r2 [|]]]]; try discriminate.
  apply Forall_cons in Hrows as [L0 Hrows]. apply Forall_cons in Hrows as [L1 Hrows].
  apply Forall_cons in Hrows as [L2 _].
  destruct r0 as [|a0 [|a1 [|a2 [|]]]]; try discriminate.
  destruct r1 as [|b0 [|b1 [|b2 [|]]]]; try discriminate.
  destruct r2 as [|c0 [|c1 [|c2 [|]]]]; try discriminate.
  cbn [read_matrix_rows read_matrix_cols] in H.
  repeat match type of H with
  | context [read_big_fixed mem ?p] =>
      let E := fresh "E" in
      destruct (read_big_fixed mem p) eqn:E; cbn [mbind option_bind] in H;
      [|discriminate H]
  end.
  injection H as _ <-.
  intros r c Hr Hc.
  assert (Hrc : (r = 0 \/ r = 1 \/ r = 2)%nat) by lia.
  assert (Hcc : (c = 0 \/ c = 1 \/ c = 2)%nat) by lia.
  destruct Hrc as [->|[->| ->]], Hcc as [->|[->| ->]];
    match goal with |- context [get_val ?m ?r ?c] =>
      let v := eval vm_compute in (get_val m r c) in change (get_val m r c) with v end;
    match goal with |- context [4 * Z.of_nat ?n] =>
      let v := eval vm_compute in (4 * Z.of_nat n) in change (4 * Z.of_nat n) with v end;
    (split; [|by eexists]);
    match goal with
    | E : read_big_fixed mem _ = Some ?s |- Some ?s = read_big_fixed mem _ =>
        rewrite <- E; f_equal; lia
    end.
Qed.

Lemma set_tables_lookup n : forall i base stride l k,
  (i <= k < i + n)%nat -> (k < length l)%nat ->
  set_tables n i base stride l !! k = Some (Some (base + wrap64 (Z.of_nat k * stride))).
Proof.
  induction n as [|n IH]; intros i base stride l k Hk Hl; [lia|].
  simpl. destruct (decide (k = i)) as [->|Hne].
  - rewrite set_tables_lookup_lt by lia. by rewrite list_lookup_insert_eq.
  - rewrite IH; [done|lia|]. by rewrite length_insert.
Qed.

Lemma set_tables_lookup_ge n : forall i base stride l k,
  (i + n <= k)%nat -> set_tables n i base stride l !! k = l !! k.
Proof.
  induction n as [|n IH]; intros i base stride l k Hk; [reflexivity|].
  simpl. rewrite IH by lia. apply list_lookup_insert_ne. lia.
Qed.

(** [init_mft_tables] on sizes that the readers accept: no product or sum
    wraps, so the test compares with the sum of the three table blocks. *)
Lemma init_mft_tables_eq base maxlen mft :
  1 <= input_channels mft <= 4 -> output_channels mft = 3 ->
  2 <= grid_points mft < 256 ->
  0 <= input_table_size mft <= 4096 -> 0 <= output_table_size mft <= 4096 ->
  1 <= table_byte_width mft <= 2 ->
  init_mft_tables base maxlen mft =
  let ic := input_channels mft in let gp := grid_points mft in
  let its := input_table_size mft in let ots := output_table_size mft in
  let w := table_byte_width mft in
  if maxlen <? ic * its * w + 3 * w * gp ^ ic + 3 * ots * w then (false, mft)
  else (true,
        {| matrix := matrix mft; input_channels := ic; grid_points := gp;
           output_channels := output_channels mft;
           input_table_size := its; output_table_size := ots; table_byte_width := w;
           input_tables := set_tables (Z.to_nat ic) 0 base (its * w) (input_tables mft);
           grid := Some (base + ic * its * w);
           output_tables :=
             set_tables 3 0 (base + ic * its * w + 3 * w * gp ^ ic) (ots * w)
               (output_tables mft) |}).
Proof.
  intros Hic Hoc Hgp Hits Hots Hw. unfold init_mft_tables. cbv zeta.
  set (ic := input_channels mft) in *. set (gp := grid_points mft) in *.
  set (its := input_table_size mft) in *. set (ots := output_table_size mft) in *.
  set (w := table_byte_width mft) in *. rewrite Hoc.
  assert (B1 : 0 <= its * w <= 8192) by nia.
  assert (B2 : 0 <= ots * w <= 8192) by nia.
  assert (B3 : 0 <= ic * (its * w) <= 32768) by nia.
  rewrite (wrap64_small (its * w)) by lia.
  rewrite (wrap64_small (ots * w)) by lia.
  rewrite (wrap64_small (ic * (its * w))) by lia.
  rewrite (wrap64_small (3 * (ots * w))) by lia.
  rewrite (wrap64_small (3 * w)) by lia.
  assert (Hpow : 0 < gp ^ ic <= 4228250625).
  { split; [apply Z.pow_pos_nonneg; lia|]. change 4228250625 with (255 ^ 4).
    transitivity (255 ^ ic); [apply Z.pow_le_mono_l; lia|apply Z.pow_le_mono_r; lia]. }
  rewrite grid_size_loop_pow; rewrite ?Z2Nat.id by lia; [|lia|lia|].
  2:{ assert (256 ^ ic <= 4294967296)
        by (change 4294967296 with (256 ^ 4); apply Z.pow_le_mono_r; lia).
      assert (0 < 256 ^ ic) by (apply Z.pow_pos_nonneg; lia).
      assert (3 * w * 256 ^ ic <= 6 * 4294967296) by nia. lia. }
  assert (B4 : 0 <= 3 * w * gp ^ ic <= 6 * 4228250625) by nia.
  rewrite (wrap64_small (ic * (its * w) + 3 * w * gp ^ ic)) by lia.
  rewrite wrap64_small by lia.
  unfold ARRAY_COUNT_output_tables. change (Z.to_nat 3) with 3%nat.
  replace (ic * its * w) with (ic * (its * w)) by lia.
  replace (3 * ots * w) with (3 * (ots * w)) by lia.
  reflexivity.
Qed.

(** What [read_mft_common] returns, in terms of the bytes it read. *)
Lemma read_mft_common_Some mem buf mft ok m1 :
  read_mft_common mem buf mft = Some (ok, m1) ->
  exists q ic gp oc,
    read_matrix_rows mem (buf + 12) 3 0 (matrix mft) = Some (q, matrix m1) /\
    read_u8 mem (buf + 8) = Some ic /\ read_u8 mem (buf + 10) = Some gp /\
    read_u8 mem (buf + 9) = Some oc /\
    input_channels m1 = ic /\ grid_points m1 = gp /\ output_channels m1 = oc /\
    input_table_size m1 = input_table_size mft /\
    output_table_size m1 = output_table_size mft /\
    table_byte_width m1 = table_byte_width mft /\
    input_tables m1 = input_tables mft /\ grid m1 = grid mft /\
    output_tables m1 = output_tables mft /\
    (ok = true <-> oc = 3 /\ 1 <= ic <= 4 /\ 2 <= gp).
Proof.
  unfold read_mft_common.
  unfold mft_CommonLayout.matrix, mft_CommonLayout.input_channels,
    mft_CommonLayout.grid_points, mft_CommonLayout.output_channels,
    ARRAY_COUNT_output_tables, ARRAY_COUNT_input_tables.
  intros H.
  destruct (read_matrix_rows _ _ _ _ _) as [[q mtx]|]; [|discriminate].
  cbn [mbind option_bind] in H.
  destruct (read_u8 mem (buf + 8)) as [ic|] eqn:Hic; [|discriminate].
  cbn [mbind option_bind] in H.
  destruct (read_u8 mem (buf + 10)) as [gp|] eqn:Hgp; [|discriminate].
  cbn [mbind option_bind] in H.
  destruct (read_u8 mem (buf + 9)) as [oc|] eqn:Hoc; [|discriminate].
  cbn [mbind option_bind] in H.
  exists q, ic, gp, oc. rewrite Z.gtb_ltb in H.
  destruct (Z.eqb_spec oc 3); cbn [negb] in H;
    [destruct (Z.ltb_spec ic 1); cbn [orb] in H;
     [|destruct (Z.ltb_spec 4 ic); cbn [orb] in H;
       [|destruct (Z.ltb_spec gp 2)]]|];
    injection H as <- <-; simpl; repeat split; try done; try lia;
    intros (? & ? & ?); lia.
Qed.

Lemma read_mft_common_is_Some mem buf mft :
  0 <= buf -> buf + 48 <= Z.of_nat (length mem) ->
  is_Some (read_mft_common mem buf mft).
Proof.
  intros H0 H1. unfold read_mft_common.
  unfold mft_CommonLayout.matrix, mft_CommonLayout.input_channels,
    mft_CommonLayout.grid_points, mft_CommonLayout.output_channels.
  destruct (read_matrix_rows_is_Some mem (buf + 12) (matrix mft)) as [[q mtx] ->]; [lia..|].
  cbn [mbind option_bind].
  destruct (read_u8_is_Some mem (buf + 8)) as [ic ->]; [lia|]. cbn [mbind option_bind].
  destruct (read_u8_is_Some mem (buf + 10)) as [gp ->]; [lia|]. cbn [mbind option_bind].
  destruct (read_u8_is_Some mem (buf + 9)) as [oc ->]; [lia|]. cbn [mbind option_bind].
  destruct (negb _); [by eexists|]. destruct (_ || _); [by eexists|].
  destruct (_ <? _); by eexists.
Qed.

(** Every way [skcms_GetMultiFunctionTable] returns true, with all that it
    stores. *)
Lemma skcms_GetMultiFunctionTable_layout profile mft mft' :
  skcms_GetMultiFunctionTable profile mft = Some (true, mft') ->
  let mem := bytes_of profile in
  let ic := input_channels mft' in let gp := grid_points mft' in
  let its := input_table_size mft' in let ots := output_table_size mft' in
  let w := table_byte_width mft' in
  exists a2b skip q,
    skcms_GetTagBySignature profile sig_A2B0 ICCTag_uninit = Some (true, a2b) /\
    mft_kind mem a2b skip w its ots /\ skip <= tag_size a2b /\
    1 <= ic <= 4 /\ output_channels mft' = 3 /\ 2 <= gp < 256 /\
    ic * its * w + 3 * w * gp ^ ic + 3 * ots * w <= tag_size a2b - skip /\
    read_matrix_rows mem (tag_buf a2b + 12) 3 0 (matrix mft) = Some (q, matrix mft') /\
    input_tables mft'
    = set_tables (Z.to_nat ic) 0 (tag_buf a2b + skip) (its * w) (input_tables mft) /\
    grid mft' = Some (tag_buf a2b + skip + ic * its * w) /\
    output_tables mft'
    = set_tables 3 0 (tag_buf a2b + skip + ic * its * w + 3 * w * gp ^ ic) (ots * w)
        (output_tables mft).
Proof.
  unfold skcms_GetMultiFunctionTable. intros H. cbv zeta.
  destruct (skcms_GetTagBySignature profile sig_A2B0 ICCTag_uninit) as [[ok a2b]|] eqn:Hl;
    [cbn [mbind option_bind] in H|discriminate].
  destruct ok; cbn [negb] in H; [|discriminate].
  pose proof (skcms_GetTagBySignature_true _ _ _ _ Hl) as (_ & Hsz & _ & _).
  set (mem := bytes_of profile) in *.
  destruct (Z.eqb_spec (tag_type a2b) sig_mft1) as [Ht1|Hn1].
  - (* 'mft1' *)
    unfold read_tag_mft1 in H. change (SAFE_SIZEOF mft1_Layout.sizeof) with 48 in H.
    unfold mft1_Layout.common, mft1_Layout.tables in H. rewrite Z.add_0_r in H.
    destruct (Z.ltb_spec (tag_size a2b) 48); [discriminate|].
    destruct (read_mft_common mem (tag_buf a2b) mft) as [[ok m1]|] eqn:Hc;
      [cbn [mbind option_bind] in H|discriminate].
    destruct ok; cbn [negb] in H; [|discriminate].
    apply read_mft_common_Some in Hc
      as (q & ic & gp & oc & Hm & Ric & Rgp & Roc & E1 & E2 & E3 & E4 & E5 & E6 & E7 & E8
          & E9 & Hok).
    destruct Hok as [Hok _]. destruct (Hok eq_refl) as (Hoc & Hic & Hgp).
    apply read_u8_Some in Rgp as [_ Hgpr].
    injection H as H. rewrite wrap64_small in H by lia.
    rewrite init_mft_tables_eq in H by (simpl; lia). cbv zeta in H. simpl in H.
    rewrite E1, E2 in H.
    destruct (Z.ltb_spec (tag_size a2b - 48) (ic * 256 * 1 + 3 * 1 * gp ^ ic + 3 * 256 * 1));
      [discriminate|].
    injection H as <-. simpl. exists a2b, 48, q.
    rewrite E7, E9. repeat split; try done; try lia.
    left. done.
  - destruct (Z.eqb_spec (tag_type a2b) sig_mft2) as [Ht2|Hn2]; [|discriminate].
    (* 'mft2' *)
    unfold read_tag_mft2 in H. change (SAFE_SIZEOF mft2_Layout.sizeof) with 52 in H.
    unfold mft2_Layout.common, mft2_Layout.tables, mft2_Layout.input_table_size,
      mft2_Layout.output_table_size in H. rewrite Z.add_0_r in H.
    destruct (Z.ltb_spec (tag_size a2b) 52); [discriminate|].
    destruct (read_mft_common mem (tag_buf a2b) mft) as [[ok m1]|] eqn:Hc;
      [cbn [mbind option_bind] in H|discriminate].
    destruct ok; cbn [negb] in H; [|discriminate].
    destruct (read_big_u16 mem (tag_buf a2b + 48)) as [its|] eqn:Hits;
      [cbn [mbind option_bind] in H|discriminate].
    destruct (read_big_u16 mem (tag_buf a2b + 50)) as [ots|] eqn:Hots;
      [cbn [mbind option_bind] in H|discriminate].
    apply read_mft_common_Some in Hc
      as (q & ic & gp & oc & Hm & Ric & Rgp & Roc & E1 & E2 & E3 & E4 & E5 & E6 & E7 & E8
          & E9 & Hok).
    destruct Hok as [Hok _]. destruct (Hok eq_refl) as (Hoc & Hic & Hgp).
    apply read_u8_Some in Rgp as [_ Hgpr].
    rewrite !Z.gtb_ltb in H.
    destruct (Z.ltb_spec its 2); [discriminate|].
    destruct (Z.ltb_spec 4096 its); [discriminate|].
    destruct (Z.ltb_spec ots 2); [discriminate|].
    destruct (Z.ltb_spec 4096 ots); [discriminate|]. cbn [orb] in H.
    injection H as H. rewrite wrap64_small in H by lia.
    rewrite init_mft_tables_eq in H by (simpl; lia). cbv zeta in H. simpl in H.
    rewrite E1, E2 in H.
    destruct (Z.ltb_spec (tag_size a2b - 52) (ic * its * 2 + 3 * 2 * gp ^ ic + 3 * ots * 2));
      [discriminate|].
    injection H as <-. simpl. exists a2b, 52, q.
    rewrite E7, E9. repeat split; try done; try lia.
    right. repeat split; try done; lia.
Qed.

(** X17. The tables that [skcms_GetMultiFunctionTable] points at follow one
    another after the fixed layout of the tag (the input tables, the grid, the
    three output tables) and end inside the tag, which lies inside the
    profile; input tables beyond [input_channels] are not assigned. *)
Theorem skcms_GetMultiFunctionTable_tables buf len p mft mft' :
  len <= Z.of_nat (length buf) ->
  skcms_Parse buf len = Some (true, p) ->
  length (input_tables mft) = 4%nat -> length (output_tables mft) = 3%nat ->
  skcms_GetMultiFunctionTable p mft = Some (true, mft') ->
  let ic := input_channels mft' in let gp := grid_points mft' in
  let in_len := input_table_size mft' * table_byte_width mft' in
  let out_len := output_table_size mft' * table_byte_width mft' in
  let grid_len := 3 * table_byte_width mft' * gp ^ ic in
  exists a2b,
    skcms_GetTagBySignature p sig_A2B0 ICCTag_uninit = Some (true, a2b) /\
    let base := tag_buf a2b + (if tag_type a2b =? sig_mft1 then 48 else 52) in
    (forall i, 0 <= i < ic ->
       input_tables mft' !! Z.to_nat i = Some (Some (base + i * in_len))) /\
    (forall i, ic <= i ->
       input_tables mft' !! Z.to_nat i = input_tables mft !! Z.to_nat i) /\
    grid mft' = Some (base + ic * in_len) /\
    (forall j, 0 <= j < 3 ->
       output_tables mft' !! Z.to_nat j
       = Some (Some (base + ic * in_len + grid_len + j * out_len))) /\
    base + ic * in_len + grid_len + 3 * out_len <= tag_buf a2b + tag_size a2b /\
    tag_buf a2b + tag_size a2b <= size p /\ size p <= Z.of_nat (length buf).
Proof.
  intros Hlen Hp Li Lo H. cbv zeta.
  apply skcms_GetMultiFunctionTable_layout in H. cbv zeta in H.
  destruct H as (a2b & skip & q & Hf & Hk & Hskip & Hic & Hoc & Hgp & Hfit & _ & Ti & Tg & To).
  destruct (found_tag_in_profile _ _ _ _ _ _ Hlen Hp Hf) as (_ & _ & T0 & T1 & T2 & _).
  exists a2b. split; [done|].
  set (ic := input_channels mft') in *. set (gp := grid_points mft') in *.
  set (its := input_table_size mft') in *. set (ots := output_table_size mft') in *.
  set (w := table_byte_width mft') in *.
  assert (Hbase : (if tag_type a2b =? sig_mft1 then 48 else 52) = skip /\ 1 <= w <= 2
                  /\ 2 <= its <= 4096 /\ 2 <= ots <= 4096).
  { destruct Hk as [(-> & -> & -> & -> & ->)|(E & -> & -> & _ & _ & ? & ?)].
    - rewrite Z.eqb_refl. lia.
    - rewrite E. change (sig_mft2 =? sig_mft1) with false. lia. }
  destruct Hbase as (-> & Hw & Hits & Hots).
  assert (B1 : 0 <= its * w <= 8192) by nia.
  assert (B2 : 0 <= ots * w <= 8192) by nia.
  split; [|split; [|split; [|split; [|split; [|split]]]]].
  - intros i Hi. rewrite Ti, set_tables_lookup by lia.
    rewrite Z2Nat.id by lia. rewrite wrap64_small by nia. reflexivity.
  - intros i Hi. rewrite Ti. apply set_tables_lookup_ge. lia.
  - rewrite Tg. do 2 f_equal. lia.
  - intros j Hj. rewrite To, set_tables_lookup by lia.
    rewrite Z2Nat.id by lia. rewrite wrap64_small by nia. do 3 f_equal. lia.
  - nia.
  - done.
  - done.
Qed.

(** X18. The matrix of the table is the nine s15.16 numbers that start at byte
    12 of the tag, row by row. *)
Theorem skcms_GetMultiFunctionTable_matrix profile mft mft' :
  Matrix3x3_shape (matrix mft) ->
  skcms_GetMultiFunctionTable profile mft = Some (true, mft') ->
  exists a2b,
    skcms_GetTagBySignature profile sig_A2B0 ICCTag_uninit = Some (true, a2b) /\
    forall r c, (r < 3)%nat -> (c < 3)%nat ->
      exists v, get_val (matrix mft') r c = Some v /\
                read_big_fixed (bytes_of profile)
                  (tag_buf a2b + 12 + 4 * Z.of_nat (3 * r + c)) = Some v.
Proof.
  intros Hshape H.
  apply skcms_GetMultiFunctionTable_layout in H. cbv zeta in H.
  destruct H as (a2b & skip & q & Hf & _ & _ & _ & _ & _ & _ & Hm & _).
  exists a2b. split; [done|]. intros r c Hr Hc.
  destruct (read_matrix_rows_vals _ _ _ _ _ Hshape Hm r c Hr Hc) as [E [v Hv]].
  exists v. split; [done|]. by rewrite <- E.
Qed.

(** X15. [skcms_GetMultiFunctionTable] on a parsed profile reads no byte
    outside the buffer. *)
Theorem skcms_GetMultiFunctionTable_memory_safe buf len p mft :
  len <= Z.of_nat (length buf) ->
  skcms_Parse buf len = Some (true, p) ->
  exists ok mft', skcms_GetMultiFunctionTable p mft = Some (ok, mft').
Proof.
  intros Hlen Hp.
  destruct (skcms_Parse_profile _ _ _ Hlen Hp) as (Hb & _).
  unfold skcms_GetMultiFunctionTable.
  destruct (lookup_on_parsed _ _ _ sig_A2B0 ICCTag_uninit Hlen Hp) as [->|[a2b Hf]];
    cbn [mbind option_bind negb]; [eauto|].
  rewrite Hf. cbn [mbind option_bind negb].
  destruct (found_tag_in_profile _ _ _ _ _ _ Hlen Hp Hf) as (_ & _ & T0 & T1 & T2 & _).
  rewrite (bytes_of_Some _ _ Hb).
  destruct (tag_type a2b =? sig_mft1).
  - unfold read_tag_mft1. change (SAFE_SIZEOF mft1_Layout.sizeof) with 48.
    unfold mft1_Layout.common. rewrite Z.add_0_r.
    destruct (Z.ltb_spec (tag_size a2b) 48); [eauto|].
    destruct (read_mft_common_is_Some buf (tag_buf a2b) mft) as [[ok m1] ->]; [lia..|].
    cbn [mbind option_bind]. destruct ok; cbn [negb]; [|eauto].
    destruct (init_mft_tables _ _ _). eauto.
  - destruct (tag_type a2b =? sig_mft2); [|eauto].
    unfold read_tag_mft2. change (SAFE_SIZEOF mft2_Layout.sizeof) with 52.
    unfold mft2_Layout.common, mft2_Layout.input_table_size, mft2_Layout.output_table_size.
    rewrite Z.add_0_r.
    destruct (Z.ltb_spec (tag_size a2b) 52); [eauto|].
    destruct (read_mft_common_is_Some buf (tag_buf a2b) mft) as [[ok m1] ->]; [lia..|].
    cbn [mbind option_bind]. destruct ok; cbn [negb]; [|eauto].
    destruct (read_big_u16_is_Some buf (tag_buf a2b + 48)) as [its ->]; [lia..|].
    cbn [mbind option_bind].
    destruct (read_big_u16_is_Some buf (tag_buf a2b + 50)) as [ots ->]; [lia..|].
    cbn [mbind option_bind].
    destruct (_ || _); [eauto|]. destruct (init_mft_tables _ _ _). eauto.
Qed.

(** X19. When [skcms_GetMultiFunctionTable] returns false, no table pointer of
    the output has been written. *)
Theorem skcms_GetMultiFunctionTable_false profile mft mft' :
  skcms_GetMultiFunctionTable profile mft = Some (false, mft') ->
  input_tables mft' = input_tables mft /\ grid mft' = grid mft /\
  output_tables mft' = output_tables mft.
Proof.
  unfold skcms_GetMultiFunctionTable. intros H.
  destruct (skcms_GetTagBySignature profile sig_A2B0 ICCTag_uninit) as [[ok a2b]|];
    [cbn [mbind option_bind] in H|discriminate].
  destruct ok; cbn [negb] in H; [|by injection H as <-].
  assert (Hinit : forall base maxlen m m', init_mft_tables base maxlen m = (false, m') ->
            m' = m).
  { intros base maxlen m m'. unfold init_mft_tables.
    destruct (_ <? _); [by intros [= <-]|discriminate]. }
  destruct (tag_type a2b =? sig_mft1).
  - unfold read_tag_mft1 in H. destruct (_ <? _); [by injection H as <-|].
    destruct (read_mft_common _ _ _) as [[ok m1]|] eqn:Hc;
      [cbn [mbind option_bind] in H|discriminate].
    apply read_mft_common_Some in Hc
      as (_ & _ & _ & _ & _ & _ & _ & _ & _ & _ & _ & _ & _ & _ & E7 & E8 & E9 & _).
    destruct ok; cbn [negb] in H; [|by injection H as <-].
    injection H as H. apply Hinit in H. subst mft'. done.
  - destruct (tag_type a2b =? sig_mft2); [|by injection H as <-].
    unfold read_tag_mft2 in H. destruct (_ <? _); [by injection H as <-|].
    destruct (read_mft_common _ _ _) as [[ok m1]|] eqn:Hc;
      [cbn [mbind option_bind] in H|discriminate].
    apply read_mft_common_Some in Hc
      as (_ & _ & _ & _ & _ & _ & _ & _ & _ & _ & _ & _ & _ & _ & E7 & E8 & E9 & _).
    destruct ok; cbn [negb] in H; [|by injection H as <-].
    destruct (read_big_u16 _ (_ + mft2_Layout.input_table_size)) as [its|];
      [cbn [mbind option_bind] in H|discriminate].
    destruct (read_big_u16 _ (_ + mft2_Layout.output_table_size)) as [ots|];
      [cbn [mbind option_bind] in H|discriminate].
    destruct (_ || _); [by injection H as <-|].
    injection H as H. apply Hinit in H. subst mft'. done.
Qed.

(** X16. The checks are also sufficient: on a parsed profile whose A2B0 tag is
    of type 'mft1' or 'mft2', has three output channels, one to four input
    channels and at least two grid points, table sizes of 256 ('mft1') or in
    [2, 4096] ('mft2'), and tables that fit in the bytes after the fixed
    layout, [skcms_GetMultiFunctionTable] returns true, with the channels and
    sizes of the tag. *)
Theorem skcms_GetMultiFunctionTable_accepts buf len p mft m :
  len <= Z.of_nat (length buf) ->
  skcms_Parse buf len = Some (true, p) ->
  mft_accepted p m ->
  exists mft',
    skcms_GetMultiFunctionTable p mft = Some (true, mft') /\
    input_channels mft' = input_channels m /\ output_channels mft' = output_channels m /\
    grid_points mft' = grid_points m /\
    input_table_size mft' = input_table_size m /\
    output_table_size mft' = output_table_size m /\
    table_byte_width mft' = table_byte_width m.
Proof.
  intros Hlen Hp (a2b & ic & oc & gp & its & ots & w & skip & Hf & Hok & Hk & Hskip & Hfit
                  & <- & <- & <- & <- & <- & <-).
  destruct (skcms_Parse_profile _ _ _ Hlen Hp) as (Hb & _).
  destruct (found_tag_in_profile _ _ _ _ _ _ Hlen Hp Hf) as (_ & _ & T0 & T1 & T2 & _).
  pose proof (skcms_GetTagBySignature_true _ _ _ _ Hf) as (_ & Hsz32 & _).
  rewrite (bytes_of_Some _ _ Hb) in *.
  destruct Hok as (Ric & Roc & Rgp & Hoc & Hic & Hgp).
  pose proof (read_u8_Some _ _ _ Rgp) as [_ Hgpr].
  unfold mft_fits in Hfit.
  unfold skcms_GetMultiFunctionTable. rewrite Hf. cbn [mbind option_bind negb].
  rewrite (bytes_of_Some _ _ Hb).
  assert (Hcommon : forall q mtx,
            read_matrix_rows buf (tag_buf a2b + 12) 3 0 (matrix mft) = Some (q, mtx) ->
            read_mft_common buf (tag_buf a2b) mft
            = Some (true,
                    {| matrix := mtx; input_channels := input_channels m;
                       grid_points := grid_points m; output_channels := output_channels m;
                       input_table_size := input_table_size mft;
                       output_table_size := output_table_size mft;
                       table_byte_width := table_byte_width mft;
                       input_tables := input_tables mft; grid := grid mft;
                       output_tables := output_tables mft |})).
  { intros q mtx Hm. unfold read_mft_common.
    unfold mft_CommonLayout.matrix, mft_CommonLayout.input_channels,
      mft_CommonLayout.grid_points, mft_CommonLayout.output_channels,
      ARRAY_COUNT_output_tables, ARRAY_COUNT_input_tables.
    rewrite Hm. cbn [mbind option_bind]. rewrite Ric. cbn [mbind option_bind].
    rewrite Rgp. cbn [mbind option_bind]. rewrite Roc. cbn [mbind option_bind].
    rewrite Hoc. cbn [Z.eqb Pos.eqb negb]. rewrite Z.gtb_ltb.
    destruct (Z.ltb_spec (input_channels m) 1); [lia|].
    destruct (Z.ltb_spec 4 (input_channels m)); [lia|].
    destruct (Z.ltb_spec (grid_points m) 2); [lia|]. cbn [orb]. reflexivity. }
  destruct Hk as [(Ety & Eits & Eots & Ew & ->)|(Ety & Ew & -> & Rits & Rots & Hits & Hots)];
    rewrite ?Eits, ?Eots, Ew in *.
  - rewrite Ety, Z.eqb_refl. unfold read_tag_mft1.
    change (SAFE_SIZEOF mft1_Layout.sizeof) with 48.
    unfold mft1_Layout.common, mft1_Layout.tables. rewrite Z.add_0_r.
    destruct (Z.ltb_spec (tag_size a2b) 48); [lia|].
    destruct (read_matrix_rows_is_Some buf (tag_buf a2b + 12) (matrix mft))
      as [[q mtx] Hm]; [lia..|].
    rewrite (Hcommon _ _ Hm). cbn [mbind option_bind negb].
    rewrite wrap64_small by lia.
    rewrite init_mft_tables_eq by (simpl; lia). cbv zeta. simpl.
    destruct (Z.ltb_spec (tag_size a2b - 48)
                (input_channels m * 256 * 1
                 + 3 * 1 * grid_points m ^ input_channels m + 3 * 256 * 1)) as [Hlt|_].
    { exfalso. rewrite Hoc in Hfit.
      set (g := grid_points m ^ input_channels m) in *. clearbody g. lia. }
    eexists. split; [reflexivity|]. simpl. rewrite Hoc. done.
  - rewrite Ety. change (sig_mft2 =? sig_mft1) with false. rewrite Z.eqb_refl.
    unfold read_tag_mft2. change (SAFE_SIZEOF mft2_Layout.sizeof) with 52.
    unfold mft2_Layout.common, mft2_Layout.tables, mft2_Layout.input_table_size,
      mft2_Layout.output_table_size. rewrite Z.add_0_r.
    destruct (Z.ltb_spec (tag_size a2b) 52); [lia|].
    destruct (read_matrix_rows_is_Some buf (tag_buf a2b + 12) (matrix mft))
      as [[q mtx] Hm]; [lia..|].
    rewrite (Hcommon _ _ Hm). cbn [mbind option_bind negb].
    rewrite Rits. cbn [mbind option_bind]. rewrite Rots. cbn [mbind option_bind].
    rewrite !Z.gtb_ltb.
    destruct (Z.ltb_spec (input_table_size m) 2); [lia|].
    destruct (Z.ltb_spec 4096 (input_table_size m)); [lia|].
    destruct (Z.ltb_spec (output_table_size m) 2); [lia|].
    destruct (Z.ltb_spec 4096 (output_table_size m)); [lia|]. cbn [orb].
    rewrite wrap64_small by lia.
    rewrite init_mft_tables_eq by (simpl; lia). cbv zeta. simpl.
    destruct (Z.ltb_spec (tag_size a2b - 52)
                (input_channels m * input_table_size m * 2
                 + 3 * 2 * grid_points m ^ input_channels m
                 + 3 * output_table_size m * 2)) as [Hlt|_].
    { exfalso. rewrite Hoc in Hfit.
      set (g := grid_points m ^ input_channels m) in *. clearbody g. lia. }
    eexists. split; [reflexivity|]. simpl. rewrite Hoc. done.
Qed.

(** ** Curves *)

(** A curve that [read_curve_para] returns has no table. *)
Lemma read_curve_para_no_table mem buf size c0 c :
  read_curve_para mem buf size c0 = Some (true, c) -> table c = None /\ table_size c = 0.
Proof.
  unfold read_curve_para. intros H.
  repeat step_both H; injection H as <-; done.
Qed.

(** The shape of a curve that [read_curve_curv] returns. *)
Lemma read_curve_curv_shape mem buf size c0 c :
  read_curve_curv mem buf size c0 = Some (true, c) ->
  exists n, read_big_u32 mem (buf + 8) = Some n /\ 12 + 2 * n <= size /\
    (n < 2 /\ table c = None /\ table_size c = 0
     \/ 2 <= n /\ table c = Some (buf + 12) /\ table_size c = n /\
        parametric c = TransferFunction_zero).
Proof.
  unfold read_curve_curv. change (SAFE_SIZEOF curv_Layout.sizeof) with 12.
  change (SAFE_SIZEOF 2) with 2.
  unfold curv_Layout.value_count, curv_Layout.parameters. intros H.
  destruct (Z.ltb_spec size 12); [discriminate|].
  destruct (read_big_u32 mem (buf + 8)) as [n|] eqn:Hn; [|discriminate].
  cbn [mbind option_bind] in H.
  apply read_big_u32_Some in Hn as Hr. destruct Hr as (_ & _ & Hr).
  rewrite (wrap64_small (n * 2)) in H by lia. rewrite wrap64_small in H by lia.
  destruct (Z.ltb_spec size (12 + n * 2)); [discriminate|].
  exists n. split; [done|]. split; [lia|].
  destruct (Z.ltb_spec n 2).
  - left. destruct (n =? 0).
    + by injection H as <-.
    + destruct (read_big_u16 _ _); [|discriminate]. by injection H as <-.
  - right. by injection H as <-.
Qed.

(** The two shapes of a curve that [read_curve] returns. *)
Lemma read_curve_shape mem buf size c0 c :
  read_curve mem buf size c0 = Some (true, c) ->
  table c = None /\ table_size c = 0
  \/
  table c = Some (buf + 12) /\ 2 <= table_size c /\
  buf + 12 + 2 * table_size c <= buf + size /\
  read_big_u32 mem (buf + 8) = Some (table_size c) /\
  parametric c = TransferFunction_zero.
Proof.
  unfold read_curve. intros H.
  destruct (size <? 4); [discriminate|].
  destruct (read_big_u32 mem buf) as [ty|]; [cbn [mbind option_bind] in H|discriminate].
  destruct (ty =? sig_para).
  { left. by apply read_curve_para_no_table in H. }
  destruct (ty =? sig_curv); [|discriminate].
  apply read_curve_curv_shape in H as (n & Hn & Hsz & [(_ & ? & ?)|(? & ? & E & ?)]).
  - left. done.
  - right. rewrite E. repeat split; try done; lia.
Qed.

(** X12. A curve that [read_curve] returns is either parametric, without a
    table, or a table of at least two 16-bit entries that starts at byte 12 of
    the tag and ends inside it; the count is the big-endian word at byte 8. *)
Theorem read_curve_table_in_tag mem buf size c0 c :
  read_curve mem buf size c0 = Some (true, c) ->
  table c = None /\ table_size c = 0
  \/
  table c = Some (buf + 12) /\ 2 <= table_size c /\
  buf + 12 + 2 * table_size c <= buf + size /\
  read_big_u32 mem (buf + 8) = Some (table_size c) /\
  parametric c = TransferFunction_zero.
Proof. apply read_curve_shape. Qed.

(** X11. [read_curve] reads no byte outside a tag that lies in the buffer. *)
Theorem read_curve_memory_safe mem buf size curve :
  0 <= buf -> buf + size <= Z.of_nat (length mem) ->
  exists ok c, read_curve mem buf size curve = Some (ok, c).
Proof.
  intros H0 H1. destruct (read_curve_total mem buf size curve H0 H1) as [[ok c] H]. eauto.
Qed.

(** X13. A successful [read_curve] assigns every member of the curve: the
    result does not depend on what the curve held before. *)
Theorem read_curve_assigns_all mem buf size c1 c2 c :
  read_curve mem buf size c1 = Some (true, c) ->
  read_curve mem buf size c2 = Some (true, c).
Proof. apply read_curve_overwrites. Qed.

(** X14. No parameter of a curve that [read_curve] returns is a NaN. *)
Theorem read_curve_parameters_not_nan mem buf size c0 c :
  read_curve mem buf size c0 = Some (true, c) ->
  TransferFunction_no_nan (parametric c).
Proof. apply read_curve_no_nan. Qed.

(** ** skcms_ApproximateTransferFunction *)

Lemma merge_table_is_Some mem table ts n : forall i x t,
  0 <= table -> 0 <= i -> i + Z.of_nat n <= 2 ^ 31 ->
  table + 2 * (i + Z.of_nat n) <= Z.of_nat (length mem) ->
  is_Some (merge_table mem table ts n i x t).
Proof.
  induction n as [|n IH]; intros i x t H0 Hi Hn Hlen; [by eexists|].
  cbn [merge_table]. rewrite Nat2Z.inj_succ in *.
  unfold wrap32. rewrite Z.mod_small by lia.
  destruct (read_big_u16_is_Some mem (table + 2 * i)) as [u ->]; [lia..|].
  cbn [mbind option_bind]. apply IH; lia.
Qed.

(** The loop over one table appends, for each index, the abscissa
    [table_x] and the scaled table entry. *)
Lemma merge_table_Some mem table ts n : forall i x t x' t',
  0 <= i -> i + Z.of_nat n <= 2 ^ 31 ->
  merge_table mem table ts n i x t = Some (x', t') ->
  exists us,
    mapM (fun k => read_big_u16 mem (table + 2 * k)) (seqZ i (Z.of_nat n)) = Some us /\
    x' = x ++ (table_x ts <$> seqZ i (Z.of_nat n)) /\ t' = t ++ (table_t <$> us).
Proof.
  induction n as [|n IH]; intros i x t x' t' Hi Hn H.
  { injection H as <- <-. exists []. simpl. by rewrite !app_nil_r. }
  cbn [merge_table] in H. rewrite Nat2Z.inj_succ in *.
  unfold wrap32 in H. rewrite Z.mod_small in H by lia.
  destruct (read_big_u16 mem (table + 2 * i)) as [u|] eqn:Hu; [|discriminate].
  cbn [mbind option_bind] in H.
  apply IH in H as (us & Hus & -> & ->); [|lia..].
  rewrite seqZ_cons by lia. rewrite Z.pred_succ.
  exists (u :: us). cbn [mapM]. rewrite Hu. cbn [mbind option_bind].
  change (Z.succ i) with (i + 1). rewrite Hus. cbn [mbind option_bind mret option_ret].
  split; [done|]. cbn [fmap list_fmap]. by rewrite <- !app_assoc.
Qed.

Lemma table_t_eq u : table_t u = table_t_of u.
Proof.
  unfold table_t, table_t_of.
  change (F32.div F32.one (F32.of_Z 65535)) with
    (let v := F32.div F32.one (F32.of_Z 65535) in v).
  assert (E : F32.div F32.one (F32.of_Z 65535) = S754_finite false 8388736 (-39))
    by (vm_compute; reflexivity).
  cbv zeta. rewrite E. reflexivity.
Qed.

Lemma table_t_table : forall_range table_t_check (Z.to_nat (2 ^ 16)) 0 = true.
Proof. vm_compute. reflexivity. Qed.

(** X23. A table entry is scaled to a number of [0, 1]: 0 stays 0, 65535
    becomes 1, and the order of the entries is kept. *)
Theorem table_t_unit_interval u :
  0 <= u < 2 ^ 16 ->
  F32_finite (table_t u) /\
  (0 <= F32.to_Q (table_t u) <= 1)%Q /\
  (F32.to_Q (table_t u) <= F32.to_Q (table_t (u + 1)))%Q /\
  table_t 0 = F32.zero /\ table_t 65535 = F32.one.
Proof.
  intros Hu.
  pose proof (forall_range_spec _ _ _ table_t_table u ltac:(lia)) as H.
  unfold table_t_check in H. rewrite <- !table_t_eq in H.
  apply andb_prop in H as [H H4]. apply andb_prop in H as [H H3].
  apply andb_prop in H as [H1 H2].
  apply Qle_bool_iff in H1, H2, H3.
  split; [|split; [done|split; [done|split; vm_compute; reflexivity]]].
  unfold F32_finite. destruct (table_t u); done.
Qed.

Lemma table_x_table : forall_range table_x_check (Z.to_nat (2 ^ 16 - 1)) 2 = true.
Proof. vm_compute. reflexivity. Qed.

(** X24. For a table of at most 65536 entries the abscissas start at 0 and end
    at exactly 1. *)
Theorem table_x_endpoints n :
  2 <= n <= 2 ^ 16 ->
  table_x n 0 = F32.zero /\ table_x n (n - 1) = F32.one.
Proof.
  intros Hn.
  pose proof (forall_range_spec _ _ _ table_x_table n ltac:(lia)) as H.
  unfold table_x_check in H. apply andb_prop in H as [H1 H2].
  apply bool_decide_eq_true in H1, H2. done.
Qed.

(** The profile of a successful parse is the header record with the two
    cached results stored: lookups see the same buffer and tag count. *)
Lemma skcms_Parse_cached buf len p :
  len <= Z.of_nat (length buf) ->
  skcms_Parse buf len = Some (true, p) ->
  exists p0,
    read_header buf = Some p0 /\ bytes_of p = buf /\ bytes_of p0 = buf /\
    (forall sig tag,
       skcms_GetTagBySignature p sig tag = skcms_GetTagBySignature p0 sig tag) /\
    get_transfer_function p0 TransferFunction_zero = Some (has_tf p, tf p) /\
    read_to_XYZD50 p0 Matrix3x3_zero = Some (has_toXYZD50 p, toXYZD50 p).
Proof.
  intros Hlen H.
  destruct (skcms_Parse_true_facts _ _ _ Hlen H) as (p0 & Hh & Hb & _ & _ & _ & _ & Htf & Hx).
  apply skcms_Parse_true in H as (_ & q & b & t & b' & m & Hq & _ & _ & _ & _ & E).
  rewrite Hh in Hq. injection Hq as <-.
  exists p0. split; [done|]. split.
  { rewrite E. unfold bytes_of. simpl. by rewrite Hb. }
  split; [by apply bytes_of_Some|]. split; [|done].
  intros sig tag. rewrite E. apply set_fields_lookup.
Qed.

(** X20. A profile whose transfer function was found by [skcms_Parse] has
    parametric curves: [skcms_ApproximateTransferFunction] returns false on it
    without calling the fit, and leaves [fn] and [max_error] alone. *)
Theorem skcms_ApproximateTransferFunction_parametric approximate malloc buf len p fn me :
  len <= Z.of_nat (length buf) ->
  skcms_Parse buf len = Some (true, p) ->
  has_tf p = true ->
  skcms_ApproximateTransferFunction approximate malloc p fn me = Some (false, fn, me).
Proof.
  intros Hlen Hp Htrue.
  destruct (skcms_Parse_cached _ _ _ Hlen Hp) as (p0 & _ & Hm & Hm0 & Hl & Htf & _).
  rewrite Htrue in Htf. apply get_transfer_function_inv in Htf. cbv zeta in Htf.
  destruct Htf as [(_ & r & g & b & cr & cg & cb & F1 & F2 & F3 & C1 & _ & _ & T1 & _)
                  |[[=] _]].
  unfold skcms_ApproximateTransferFunction.
  rewrite !Hl, F1, F2, F3. cbn [mbind option_bind negb]. cbv zeta.
  rewrite Hm. rewrite Hm0 in C1. rewrite C1. cbn [mbind option_bind negb].
  rewrite T1. reflexivity.
Qed.

(** X21. Every way [skcms_ApproximateTransferFunction] returns: false with the
    outputs untouched, or the result of the fit on the three tables merged in
    the order rTRC, gTRC, bTRC. *)
Theorem skcms_ApproximateTransferFunction_samples approximate malloc profile fn me res :
  skcms_ApproximateTransferFunction approximate malloc profile fn me = Some res ->
  res = (false, fn, me)
  \/
  let mem := bytes_of profile in
  exists r g b c0 c1 c2 u0 u1 u2,
    skcms_GetTagBySignature profile sig_rTRC ICCTag_uninit = Some (true, r) /\
    skcms_GetTagBySignature profile sig_gTRC ICCTag_uninit = Some (true, g) /\
    skcms_GetTagBySignature profile sig_bTRC ICCTag_uninit = Some (true, b) /\
    read_curve mem (tag_buf r) (tag_size r) Curve_uninit = Some (true, c0) /\
    read_curve mem (tag_buf g) (tag_size g) Curve_uninit = Some (true, c1) /\
    read_curve mem (tag_buf b) (tag_size b) Curve_uninit = Some (true, c2) /\
    table_entries mem (tag_buf r + 12) (table_size c0) = Some u0 /\
    table_entries mem (tag_buf g + 12) (table_size c1) = Some u1 /\
    table_entries mem (tag_buf b + 12) (table_size c2) = Some u2 /\
    2 <= table_size c0 /\ 2 <= table_size c1 /\ 2 <= table_size c2 /\
    let n := table_size c0 + table_size c1 + table_size c2 in
    n <= INT_MAX /\
    res = approximate fn
            ((table_x (table_size c0) <$> seqZ 0 (table_size c0))
             ++ (table_x (table_size c1) <$> seqZ 0 (table_size c1))
             ++ (table_x (table_size c2) <$> seqZ 0 (table_size c2)))
            (table_t <$> (u0 ++ u1 ++ u2)) n me.
Proof.
  unfold skcms_ApproximateTransferFunction. cbv zeta. intros H.
  destruct (skcms_GetTagBySignature profile sig_rTRC ICCTag_uninit) as [[okr r]|] eqn:F1;
    [cbn [mbind option_bind] in H|discriminate].
  destruct okr; cbn [negb] in H; [|left; by injection H as <-].
  destruct (skcms_GetTagBySignature profile sig_gTRC ICCTag_uninit) as [[okg g]|] eqn:F2;
    [cbn [mbind option_bind] in H|discriminate].
  destruct okg; cbn [negb] in H; [|left; by injection H as <-].
  destruct (skcms_GetTagBySignature profile sig_bTRC ICCTag_uninit) as [[okb b]|] eqn:F3;
    [cbn [mbind option_bind] in H|discriminate].
  destruct okb; cbn [negb] in H; [|left; by injection H as <-].
  set (mem := bytes_of profile) in *.
  destruct (read_curve mem (tag_buf r) (tag_size r) Curve_uninit) as [[r0 c0]|] eqn:C0;
    [cbn [mbind option_bind] in H|discriminate].
  destruct r0; cbn [negb] in H; [|left; by injection H as <-].
  destruct (table c0) as [tb0|] eqn:T0; [|left; by injection H as <-].
  destruct (read_curve mem (tag_buf g) (tag_size g) Curve_uninit) as [[r1 c1]|] eqn:C1;
    [cbn [mbind option_bind] in H|discriminate].
  destruct r1; cbn [negb] in H; [|left; by injection H as <-].
  destruct (table c1) as [tb1|] eqn:T1; [|left; by injection H as <-].
  destruct (read_curve mem (tag_buf b) (tag_size b) Curve_uninit) as [[r2 c2]|] eqn:C2;
    [cbn [mbind option_bind] in H|discriminate].
  destruct r2; cbn [negb] in H; [|left; by injection H as <-].
  destruct (table c2) as [tb2|] eqn:T2; [|left; by injection H as <-].
  destruct (read_curve_shape _ _ _ _ _ C0) as [[E _]|(E0 & S0 & _ & R0 & _)];
    [by rewrite E in T0|].
  destruct (read_curve_shape _ _ _ _ _ C1) as [[E _]|(E1 & S1 & _ & R1 & _)];
    [by rewrite E in T1|].
  destruct (read_curve_shape _ _ _ _ _ C2) as [[E _]|(E2 & S2 & _ & R2 & _)];
    [by rewrite E in T2|].
  rewrite T0 in E0. rewrite T1 in E1. rewrite T2 in E2.
  injection E0 as ->. injection E1 as ->. injection E2 as ->.
  apply read_big_u32_Some in R0 as (_ & _ & B0).
  apply read_big_u32_Some in R1 as (_ & _ & B1).
  apply read_big_u32_Some in R2 as (_ & _ & B2).
  set (n0 := table_size c0) in *. set (n1 := table_size c1) in *.
  set (n2 := table_size c2) in *.
  rewrite (wrap64_small (n0 + n1)) in H by lia.
  rewrite (wrap64_small (n0 + n1 + n2)) in H by lia.
  rewrite Z.gtb_ltb in H. unfold INT_MAX in *.
  destruct (Z.ltb_spec (2 ^ 31 - 1) (n0 + n1 + n2)); [left; by injection H as <-|].
  destruct (negb _); [left; by injection H as <-|].
  destruct (negb _); [discriminate|].
  destruct (merge_table mem (tag_buf r + 12) n0 (Z.to_nat n0) 0 [] []) as [[x0 t0]|] eqn:M0;
    [cbn [mbind option_bind] in H|discriminate].
  destruct (merge_table mem (tag_buf g + 12) n1 (Z.to_nat n1) 0 x0 t0) as [[x1 t1]|] eqn:M1;
    [cbn [mbind option_bind] in H|discriminate].
  destruct (merge_table mem (tag_buf b + 12) n2 (Z.to_nat n2) 0 x1 t1) as [[x2 t2]|] eqn:M2;
    [cbn [mbind option_bind] in H|discriminate].
  apply merge_table_Some in M0 as (u0 & U0 & -> & ->); [|lia..].
  apply merge_table_Some in M1 as (u1 & U1 & -> & ->); [|lia..].
  apply merge_table_Some in M2 as (u2 & U2 & -> & ->); [|lia..].
  rewrite Z2Nat.id in U0, U1, U2 by lia.
  right. exists r, g, b, c0, c1, c2, u0, u1, u2.
  unfold table_entries. do 12 (split; [done|]). cbv zeta.
  split; [unfold INT_MAX; lia|]. injection H as <-.
  unfold wrap32. rewrite Z.mod_small by lia.
  unfold to_int32. destruct (Z.ltb_spec (n0 + n1 + n2) (2 ^ 31)); [|lia].
  rewrite !Z2Nat.id by lia. cbn [app].
  rewrite !fmap_app, <- !app_assoc. reflexivity.
Qed.

(** X22. On a parsed profile, and when [malloc] returns a block,
    [skcms_ApproximateTransferFunction] reads no byte outside the buffer. *)
Theorem skcms_ApproximateTransferFunction_memory_safe approximate malloc buf len p fn me :
  len <= Z.of_nat (length buf) ->
  skcms_Parse buf len = Some (true, p) ->
  (forall n, malloc n = true) ->
  exists res, skcms_ApproximateTransferFunction approximate malloc p fn me = Some res.
Proof.
  intros Hlen Hp Hmalloc.
  destruct (skcms_Parse_profile _ _ _ Hlen Hp) as (Hb & _).
  unfold skcms_ApproximateTransferFunction. cbv zeta.
  destruct (lookup_on_parsed _ _ _ sig_rTRC ICCTag_uninit Hlen Hp) as [->|[r F1]];
    cbn [mbind option_bind negb]; [eauto|].
  rewrite F1. cbn [mbind option_bind negb].
  destruct (lookup_on_parsed _ _ _ sig_gTRC ICCTag_uninit Hlen Hp) as [->|[g F2]];
    cbn [mbind option_bind negb]; [eauto|].
  rewrite F2. cbn [mbind option_bind negb].
  destruct (lookup_on_parsed _ _ _ sig_bTRC ICCTag_uninit Hlen Hp) as [->|[b F3]];
    cbn [mbind option_bind negb]; [eauto|].
  rewrite F3. cbn [mbind option_bind negb].
  destruct (found_tag_in_profile _ _ _ _ _ _ Hlen Hp F1) as (_ & _ & A0 & A1 & A2 & _).
  destruct (found_tag_in_profile _ _ _ _ _ _ Hlen Hp F2) as (_ & _ & G0 & G1 & G2 & _).
  destruct (found_tag_in_profile _ _ _ _ _ _ Hlen Hp F3) as (_ & _ & B0 & B1 & B2 & _).
  rewrite (bytes_of_Some _ _ Hb).
  destruct (read_curve_total buf (tag_buf r) (tag_size r) Curve_uninit) as [[r0 c0] C0];
    [lia..|]. rewrite C0. cbn [mbind option_bind].
  destruct r0; cbn [negb]; [|eauto].
  destruct (table c0) as [tb0|] eqn:T0; [|eauto].
  destruct (read_curve_total buf (tag_buf g) (tag_size g) Curve_uninit) as [[r1 c1] C1];
    [lia..|]. rewrite C1. cbn [mbind option_bind].
  destruct r1; cbn [negb]; [|eauto].
  destruct (table c1) as [tb1|] eqn:T1; [|eauto].
  destruct (read_curve_total buf (tag_buf b) (tag_size b) Curve_uninit) as [[r2 c2] C2];
    [lia..|]. rewrite C2. cbn [mbind option_bind].
  destruct r2; cbn [negb]; [|eauto].
  destruct (table c2) as [tb2|] eqn:T2; [|eauto].
  destruct (read_curve_shape _ _ _ _ _ C0) as [[E _]|(E0 & S0 & L0 & R0 & _)];
    [by rewrite E in T0|].
  destruct (read_curve_shape _ _ _ _ _ C1) as [[E _]|(E1 & S1 & L1 & R1 & _)];
    [by rewrite E in T1|].
  destruct (read_curve_shape _ _ _ _ _ C2) as [[E _]|(E2 & S2 & L2 & R2 & _)];
    [by rewrite E in T2|].
  rewrite T0 in E0. rewrite T1 in E1. rewrite T2 in E2.
  injection E0 as ->. injection E1 as ->. injection E2 as ->.
  apply read_big_u32_Some in R0 as (_ & _ & V0).
  apply read_big_u32_Some in R1 as (_ & _ & V1).
  apply read_big_u32_Some in R2 as (_ & _ & V2).
  set (n0 := table_size c0) in *. set (n1 := table_size c1) in *.
  set (n2 := table_size c2) in *.
  rewrite (wrap64_small (n0 + n1)) by lia.
  rewrite (wrap64_small (n0 + n1 + n2)) by lia.
  rewrite Z.gtb_ltb. unfold INT_MAX.
  destruct (Z.ltb_spec (2 ^ 31 - 1) (n0 + n1 + n2)); [eauto|].
  destruct (negb (_ =? _)); [eauto|].
  rewrite Hmalloc. cbn [negb].
  destruct (merge_table_is_Some buf (tag_buf r + 12) n0 (Z.to_nat n0) 0 [] [])
    as [[x0 t0] ->]; [rewrite ?Z2Nat.id; lia..|]. cbn [mbind option_bind].
  destruct (merge_table_is_Some buf (tag_buf g + 12) n1 (Z.to_nat n1) 0 x0 t0)
    as [[x1 t1] ->]; [rewrite ?Z2Nat.id; lia..|]. cbn [mbind option_bind].
  destruct (merge_table_is_Some buf (tag_buf b + 12) n2 (Z.to_nat n2) 0 x1 t1)
    as [[x2 t2] ->]; [rewrite ?Z2Nat.id; lia..|]. cbn [mbind option_bind].
  eauto.
Qed.

(** X28. The block that [malloc] returns is not tested: when the three TRCs
    are tables of at most [INT_MAX] entries in all and [malloc] returns NULL,
    the first store of the merge loop goes through the null pointer. *)
Theorem skcms_ApproximateTransferFunction_malloc_null approximate malloc profile fn me
    r g b c0 c1 c2 :
  let mem := bytes_of profile in
  skcms_GetTagBySignature profile sig_rTRC ICCTag_uninit = Some (true, r) ->
  skcms_GetTagBySignature profile sig_gTRC ICCTag_uninit = Some (true, g) ->
  skcms_GetTagBySignature profile sig_bTRC ICCTag_uninit = Some (true, b) ->
  read_curve mem (tag_buf r) (tag_size r) Curve_uninit = Some (true, c0) ->
  read_curve mem (tag_buf g) (tag_size g) Curve_uninit = Some (true, c1) ->
  read_curve mem (tag_buf b) (tag_size b) Curve_uninit = Some (true, c2) ->
  table c0 <> None -> table c1 <> None -> table c2 <> None ->
  table_size c0 + table_size c1 + table_size c2 <= INT_MAX ->
  (forall n, malloc n = false) ->
  skcms_ApproximateTransferFunction approximate malloc profile fn me = None.
Proof.
  intros mem F1 F2 F3 C0 C1 C2 T0 T1 T2 Hn Hmalloc.
  unfold skcms_ApproximateTransferFunction. cbv zeta. fold mem.
  rewrite F1, F2, F3. cbn [mbind option_bind negb].
  rewrite C0. cbn [mbind option_bind negb].
  destruct (read_curve_shape _ _ _ _ _ C0) as [[E _]|(E0 & S0 & _ & R0 & _)]; [done|].
  rewrite E0. rewrite C1. cbn [mbind option_bind negb].
  destruct (read_curve_shape _ _ _ _ _ C1) as [[E _]|(E1 & S1 & _ & R1 & _)]; [done|].
  rewrite E1. rewrite C2. cbn [mbind option_bind negb].
  destruct (read_curve_shape _ _ _ _ _ C2) as [[E _]|(E2 & S2 & _ & R2 & _)]; [done|].
  rewrite E2.
  apply read_big_u32_Some in R0 as (_ & _ & B0).
  apply read_big_u32_Some in R1 as (_ & _ & B1).
  apply read_big_u32_Some in R2 as (_ & _ & B2).
  set (n0 := table_size c0) in *. set (n1 := table_size c1) in *.
  set (n2 := table_size c2) in *. unfold INT_MAX in *.
  rewrite (wrap64_small (n0 + n1)) by lia.
  rewrite (wrap64_small (n0 + n1 + n2)) by lia.
  rewrite Z.gtb_ltb.
  destruct (Z.ltb_spec (2 ^ 31 - 1) (n0 + n1 + n2)); [lia|].
  change (SAFE_SIZEOF 4) with 4.
  rewrite (wrap64_small (2 * (n0 + n1 + n2))) by lia.
  rewrite (wrap64_small (2 * (n0 + n1 + n2) * 4)) by lia.
  rewrite (wrap64_small (2 * (n0 + n1 + n2) * 4)) by lia.
  rewrite Z.eqb_refl. cbn [negb]. rewrite Hmalloc. reflexivity.
Qed.

(** ** The big-endian readers as numbers *)

(** Or-ing a value below [2^k] under a multiple of [2^k] adds them. *)
Lemma lor_mul_add a b k :
  0 <= k -> 0 <= b < 2 ^ k -> Z.lor (a * 2 ^ k) b = a * 2 ^ k + b.
Proof.
  intros Hk Hb.
  rewrite <- Z.lxor_lor, <- Z.add_nocarry_lxor; [done| |].
  all: apply Z.bits_inj'; intros n Hn; rewrite Z.land_spec, Z.bits_0;
    destruct (Z_lt_le_dec n k);
    [rewrite Z.mul_pow2_bits_low by lia; reflexivity|];
    destruct (Z.eq_dec b 0) as [->|];
    [rewrite Z.bits_0; apply andb_false_r|];
    rewrite (Z.bits_above_log2 b n); [apply andb_false_r|lia|];
    apply Z.log2_lt_pow2; [lia|];
    apply Z.lt_le_trans with (2 ^ k); [lia|apply Z.pow_le_mono_r; lia].
Qed.

(** Four bytes or-ed at their places are the number they spell in base 256. *)
Lemma lor_bytes b0 b1 b2 b3 :
  0 <= b1 < 256 -> 0 <= b2 < 256 -> 0 <= b3 < 256 ->
  Z.lor (Z.lor (Z.lor (b0 * 2 ^ 24) (b1 * 2 ^ 16)) (b2 * 2 ^ 8)) b3
  = b0 * 2 ^ 24 + b1 * 2 ^ 16 + b2 * 2 ^ 8 + b3.
Proof.
  intros H1 H2 H3.
  rewrite (lor_mul_add b0 (b1 * 2 ^ 16) 24) by lia.
  replace (b0 * 2 ^ 24 + b1 * 2 ^ 16) with ((b0 * 2 ^ 8 + b1) * 2 ^ 16) by lia.
  rewrite (lor_mul_add _ (b2 * 2 ^ 8) 16) by lia.
  replace ((b0 * 2 ^ 8 + b1) * 2 ^ 16 + b2 * 2 ^ 8)
    with ((b0 * 2 ^ 16 + b1 * 2 ^ 8 + b2) * 2 ^ 8) by lia.
  rewrite (lor_mul_add _ b3 8) by lia. lia.
Qed.

Lemma read_big_u16_add mem ptr :
  read_big_u16 mem ptr
  = (b0 ← read_u8 mem ptr; b1 ← read_u8 mem (ptr + 1); Some (b0 * 2 ^ 8 + b1)).
Proof.
  unfold read_big_u16.
  destruct (read_u8 mem ptr) as [b0|] eqn:H0; [|reflexivity].
  destruct (read_u8 mem (ptr + 1)) as [b1|] eqn:H1; [|reflexivity].
  cbn [mbind option_bind]. apply read_u8_Some in H0, H1.
  rewrite Z.shiftl_mul_pow2, lor_mul_add by lia. reflexivity.
Qed.

Lemma read_big_u32_add mem ptr :
  read_big_u32 mem ptr
  = (b0 ← read_u8 mem ptr; b1 ← read_u8 mem (ptr + 1);
     b2 ← read_u8 mem (ptr + 2); b3 ← read_u8 mem (ptr + 3);
     Some (b0 * 2 ^ 24 + b1 * 2 ^ 16 + b2 * 2 ^ 8 + b3)).
Proof.
  unfold read_big_u32.
  destruct (read_u8 mem ptr) as [b0|] eqn:H0; [|reflexivity].
  destruct (read_u8 mem (ptr + 1)) as [b1|] eqn:H1; [|reflexivity].
  destruct (read_u8 mem (ptr + 2)) as [b2|] eqn:H2; [|reflexivity].
  destruct (read_u8 mem (ptr + 3)) as [b3|] eqn:H3; [|reflexivity].
  cbn [mbind option_bind]. apply read_u8_Some in H0, H1, H2, H3.
  rewrite !Z.shiftl_mul_pow2 by lia. rewrite lor_bytes by lia. reflexivity.
Qed.

(** X25. The readers return the number that the bytes spell in base 256, most
    significant byte first; the 64-bit reader joins two 32-bit words in the
    same way, and the signed reader is the two's complement of the word. *)
Theorem read_big_endian mem ptr :
  read_big_u16 mem ptr
  = (b0 ← read_u8 mem ptr; b1 ← read_u8 mem (ptr + 1); Some (b0 * 2 ^ 8 + b1)) /\
  read_big_u32 mem ptr
  = (b0 ← read_u8 mem ptr; b1 ← read_u8 mem (ptr + 1);
     b2 ← read_u8 mem (ptr + 2); b3 ← read_u8 mem (ptr + 3);
     Some (b0 * 2 ^ 24 + b1 * 2 ^ 16 + b2 * 2 ^ 8 + b3)) /\
  read_big_u64 mem ptr
  = (hi ← read_big_u32 mem ptr; lo ← read_big_u32 mem (ptr + 4); Some (hi * 2 ^ 32 + lo)) /\
  (forall i, read_big_i32 mem ptr = Some i ->
     - 2 ^ 31 <= i < 2 ^ 31 /\
     exists u, read_big_u32 mem ptr = Some u /\ (i - u) mod 2 ^ 32 = 0).
Proof.
  split; [apply read_big_u16_add|]. split; [apply read_big_u32_add|]. split.
  - unfold read_big_u64.
    destruct (read_big_u32 mem ptr) as [hi|] eqn:H0; [|reflexivity].
    destruct (read_big_u32 mem (ptr + 4)) as [lo|] eqn:H1; [|reflexivity].
    cbn [mbind option_bind]. apply read_big_u32_Some in H1 as (_ & _ & ?).
    rewrite Z.shiftl_mul_pow2, lor_mul_add by lia. reflexivity.
  - intros i. unfold read_big_i32.
    destruct (read_big_u32 mem ptr) as [u|] eqn:H0; [|discriminate].
    cbn [mbind option_bind]. intros [= <-].
    apply read_big_u32_Some in H0 as (_ & _ & ?).
    unfold to_int32. destruct (Z.ltb_spec u (2 ^ 31)).
    + split; [lia|]. exists u. split; [done|]. by rewrite Z.sub_diag.
    + split; [lia|]. exists u. split; [done|].
      replace (u - 2 ^ 32 - u) with (-1 * 2 ^ 32) by lia. apply Z.mod_mul. lia.
Qed.

Lemma make_signature_add a b c d :
  0 <= a < 128 -> 0 <= b < 256 -> 0 <= c < 256 -> 0 <= d < 256 ->
  make_signature a b c d = a * 2 ^ 24 + b * 2 ^ 16 + c * 2 ^ 8 + d.
Proof.
  intros Ha Hb Hc Hd. unfold make_signature, wrap32.
  rewrite !Z.shiftl_mul_pow2 by lia. rewrite Z.pow_0_r, Z.mul_1_r.
  rewrite !Z.mod_small by lia. apply lor_bytes; lia.
Qed.

(** X26. A word read from the buffer equals [make_signature a b c d] exactly
    when its four bytes are [a], [b], [c], [d] in this order: a tag or type
    signature is matched byte by byte. *)
Theorem make_signature_bytes mem ptr a b c d :
  0 <= a < 128 -> 0 <= b < 256 -> 0 <= c < 256 -> 0 <= d < 256 ->
  read_big_u32 mem ptr = Some (make_signature a b c d) <->
  read_u8 mem ptr = Some a /\ read_u8 mem (ptr + 1) = Some b /\
  read_u8 mem (ptr + 2) = Some c /\ read_u8 mem (ptr + 3) = Some d.
Proof.
  intros Ha Hb Hc Hd. rewrite make_signature_add by done. rewrite read_big_u32_add.
  split.
  - destruct (read_u8 mem ptr) as [b0|] eqn:H0; [|discriminate].
    destruct (read_u8 mem (ptr + 1)) as [b1|] eqn:H1; [|discriminate].
    destruct (read_u8 mem (ptr + 2)) as [b2|] eqn:H2; [|discriminate].
    destruct (read_u8 mem (ptr + 3)) as [b3|] eqn:H3; [|discriminate].
    cbn [mbind option_bind]. intros [= E].
    apply read_u8_Some in H0, H1, H2, H3.
    assert (b0 = a /\ b1 = b /\ b2 = c /\ b3 = d) as (-> & -> & -> & ->) by lia. done.
  - intros (-> & -> & -> & ->). reflexivity.
Qed.

(** ** The header members and the partially written matrix *)

(** Whatever [skcms_Parse] returns on at least 132 bytes, the profile came
    from [read_header], up to the two cached results. *)
Lemma skcms_Parse_read_header buf len ok p :
  132 <= len -> skcms_Parse buf len = Some (ok, p) ->
  exists p0 b t b' m,
    read_header buf = Some p0 /\
    (p = p0 \/ p = set_toXYZD50 b' m (set_tf b t p0)).
Proof.
  intros Hlen H. unfold skcms_Parse in H.
  change (SAFE_SIZEOF header_Layout.sizeof) with 132 in H.
  destruct (Z.ltb_spec len 132); [lia|].
  destruct (read_header buf) as [p0|]; [cbn [mbind option_bind] in H|discriminate].
  exists p0.
  destruct (_ || _ || _ || _);
    [injection H as <- <-; exists false, (tf p0), false, (toXYZD50 p0); eauto|].
  destruct (_ || _ || _);
    [injection H as <- <-; exists false, (tf p0), false, (toXYZD50 p0); eauto|].
  destruct (tags_sane _ _ _ _) as [sane|]; [cbn [mbind option_bind] in H|discriminate].
  destruct sane; cbn [negb] in H;
    [|injection H as <- <-; exists false, (tf p0), false, (toXYZD50 p0); eauto].
  destruct (get_transfer_function _ _) as [[b t]|]; [cbn [mbind option_bind] in H|discriminate].
  destruct (read_to_XYZD50 _ _) as [[b' m]|]; [cbn [mbind option_bind] in H|discriminate].
  injection H as <- <-. exists b, t, b', m. eauto.
Qed.

(** X3. Once the buffer has 132 bytes, every header member of the profile is
    the big-endian field at its ICC offset, whether or not the profile is then
    accepted, and [buffer] is the input. *)
Theorem skcms_Parse_header_fields buf len ok p :
  132 <= len -> skcms_Parse buf len = Some (ok, p) ->
  buffer p = Some buf /\
  read_big_u32 buf 0 = Some (size p) /\
  read_big_u32 buf 4 = Some (cmm_type p) /\
  read_big_u32 buf 8 = Some (version p) /\
  read_big_u32 buf 12 = Some (profile_class p) /\
  read_big_u32 buf 16 = Some (data_color_space p) /\
  read_big_u32 buf 20 = Some (pcs p) /\
  read_big_date_time buf 24 = Some (creation_date_time p) /\
  read_big_u32 buf 36 = Some (signature p) /\
  read_big_u32 buf 40 = Some (platform p) /\
  read_big_u32 buf 44 = Some (flags p) /\
  read_big_u32 buf 48 = Some (device_manufacturer p) /\
  read_big_u32 buf 52 = Some (device_model p) /\
  read_big_u64 buf 56 = Some (device_attributes p) /\
  read_big_u32 buf 64 = Some (rendering_intent p) /\
  read_big_fixed buf 68 = Some (illuminant_X p) /\
  read_big_fixed buf 72 = Some (illuminant_Y p) /\
  read_big_fixed buf 76 = Some (illuminant_Z p) /\
  read_big_u32 buf 80 = Some (creator p) /\
  read_bytes buf 84 16 = Some (profile_id p) /\
  read_big_u32 buf 128 = Some (tag_count p).
Proof.
  intros Hlen H.
  destruct (skcms_Parse_read_header _ _ _ _ Hlen H) as (p0 & b & t & b' & m & Hh & Hp).
  assert (Hfields : forall q, q = p0 \/ q = set_toXYZD50 b' m (set_tf b t p0) ->
    buffer q = buffer p0 /\ size q = size p0 /\ cmm_type q = cmm_type p0 /\
    version q = version p0 /\ profile_class q = profile_class p0 /\
    data_color_space q = data_color_space p0 /\ pcs q = pcs p0 /\
    creation_date_time q = creation_date_time p0 /\ signature q = signature p0 /\
    platform q = platform p0 /\ flags q = flags p0 /\
    device_manufacturer q = device_manufacturer p0 /\ device_model q = device_model p0 /\
    device_attributes q = device_attributes p0 /\ rendering_intent q = rendering_intent p0 /\
    illuminant_X q = illuminant_X p0 /\ illuminant_Y q = illuminant_Y p0 /\
    illuminant_Z q = illuminant_Z p0 /\ creator q = creator p0 /\
    profile_id q = profile_id p0 /\ tag_count q = tag_count p0).
  { intros q [-> | ->]; simpl; repeat split. }
  destruct (Hfields p Hp) as (-> & -> & -> & -> & -> & -> & -> & -> & -> & -> & -> & ->
                              & -> & -> & -> & -> & -> & -> & -> & -> & ->).
  clear Hfields Hp H. unfold read_header in Hh.
  unfold header_Layout.size, header_Layout.cmm_type, header_Layout.version,
    header_Layout.profile_class, header_Layout.data_color_space, header_Layout.pcs,
    header_Layout.creation_date_time, header_Layout.signature, header_Layout.platform,
    header_Layout.flags, header_Layout.device_manufacturer, header_Layout.device_model,
    header_Layout.device_attributes, header_Layout.rendering_intent,
    header_Layout.illuminant_X, header_Layout.illuminant_Y, header_Layout.illuminant_Z,
    header_Layout.creator, header_Layout.profile_id, header_Layout.tag_count in Hh.
  repeat inv_step Hh. injection Hh as <-. simpl. repeat split; assumption.
Qed.

(** X5. The matrix is written column by column while the tags are read: when
    rXYZ is a valid 'XYZ ' tag but gXYZ or bXYZ is not, [has_toXYZD50] is
    false and column 0 of [toXYZD50] nevertheless holds the triple of rXYZ. *)
Theorem skcms_Parse_toXYZD50_partial buf len p r g b :
  len <= Z.of_nat (length buf) ->
  skcms_Parse buf len = Some (true, p) ->
  tag_present buf (tag_count p) sig_rXYZ r ->
  tag_present buf (tag_count p) sig_gXYZ g ->
  tag_present buf (tag_count p) sig_bXYZ b ->
  xyz_tag r -> ~ (xyz_tag g /\ xyz_tag b) ->
  has_toXYZD50 p = false /\
  exists cr, xyz_triple buf r = Some cr /\
    get_val (toXYZD50 p) 0 0 = Some cr.1.1 /\
    get_val (toXYZD50 p) 1 0 = Some cr.1.2 /\
    get_val (toXYZD50 p) 2 0 = Some cr.2.
Proof.
  intros Hlen Hp Pr Pg Pb Xr Xgb.
  destruct (skcms_Parse_cached _ _ _ Hlen Hp) as (p0 & _ & _ & Hm0 & Hl & _ & Hx).
  apply (skcms_Parse_lookup _ _ _ _ _ Hlen Hp) in Pr, Pg, Pb.
  rewrite Hl in Pr, Pg, Pb.
  unfold read_to_XYZD50 in Hx. rewrite Pr, Pg, Pb in Hx.
  cbn [mbind option_bind negb] in Hx. cbv zeta in Hx. rewrite Hm0 in Hx.
  destruct (read_tag_xyz buf r 0 Matrix3x3_zero) as [[r1 m1]|] eqn:R1;
    [cbn [mbind option_bind] in Hx|discriminate].
  apply read_tag_xyz_inv in R1 as [(-> & _ & [[x y] z] & Hc & ->)|(_ & Hn & _)]; [|done].
  cbn [negb] in Hx.
  destruct (read_tag_xyz buf g 1 _) as [[r2 m2]|] eqn:R2;
    [cbn [mbind option_bind] in Hx|discriminate].
  apply read_tag_xyz_inv in R2 as [(-> & Xg & [[x1 y1] z1] & _ & ->)|(-> & _ & ->)];
    cbn [negb] in Hx.
  - apply read_tag_xyz_inv in Hx as [(_ & Xb & _)|(E & _ & Em)]; [tauto|].
    split; [done|]. exists (x, y, z). rewrite Em. split; [done|].
    repeat split; reflexivity.
  - injection Hx as <- <-. split; [done|]. exists (x, y, z). split; [done|].
    repeat split; reflexivity.
Qed.

(** ** s15.16 numbers that binary32 holds exactly *)

Lemma shr_1_double y :
  0 <= y ->
  shr_1 {| shr_m := 2 * y; shr_r := false; shr_s := false |}
  = {| shr_m := y; shr_r := false; shr_s := false |}.
Proof. intros Hy. destruct y as [|p|p]; [reflexivity|reflexivity|lia]. Qed.

(** Shifting out zeros leaves an exact location. *)
Lemma iter_pos_shr_exact k : forall m, 0 <= m ->
  SpecFloat.iter_pos shr_1 k {| shr_m := m * 2 ^ Z.pos k; shr_r := false; shr_s := false |}
  = {| shr_m := m; shr_r := false; shr_s := false |}.
Proof.
  induction k as [k IH|k IH|]; intros m Hm; cbn [SpecFloat.iter_pos].
  - assert (Hp : 0 < 2 ^ Z.pos k) by (apply Z.pow_pos_nonneg; lia).
    replace (m * 2 ^ Z.pos k~1) with (2 * (m * 2 ^ Z.pos k * 2 ^ Z.pos k)).
    2:{ rewrite (Pos2Z.inj_xI k), Z.pow_add_r, Z.pow_mul_r by lia.
        change (2 ^ 2) with 4. change (2 ^ 1) with 2.
        replace 4 with (2 * 2) by lia. rewrite Z.pow_mul_l. lia. }
    rewrite shr_1_double by nia. rewrite IH by nia. apply IH. done.
  - assert (Hp : 0 < 2 ^ Z.pos k) by (apply Z.pow_pos_nonneg; lia).
    replace (m * 2 ^ Z.pos k~0) with (m * 2 ^ Z.pos k * 2 ^ Z.pos k).
    2:{ rewrite (Pos2Z.inj_xO k), Z.pow_mul_r by lia.
        change (2 ^ 2) with 4. replace 4 with (2 * 2) by lia. rewrite Z.pow_mul_l. lia. }
    rewrite IH by nia. apply IH. done.
  - replace (m * 2 ^ 1) with (2 * m) by lia. by apply shr_1_double.
Qed.

Lemma digits2_pos_24 m k M :
  2 ^ 23 <= Z.pos m < 2 ^ 24 -> 0 <= k -> Z.pos M = Z.pos m * 2 ^ k ->
  Z.pos (digits2_pos M) = 24 + k.
Proof.
  intros Hm Hk HM.
  assert (Hp : 0 < 2 ^ k) by (apply Z.pow_pos_nonneg; lia).
  apply Z.le_antisymm.
  - apply digits2_pos_upper; [lia|]. rewrite HM, Z.pow_add_r by lia. nia.
  - pose proof (digits2_pos_lower M (23 + k) ltac:(lia)) as Hl.
    rewrite HM, Z.pow_add_r in Hl by lia. nia.
Qed.

Lemma shr_fexp_exact m k M e :
  2 ^ 23 <= Z.pos m < 2 ^ 24 -> 0 <= k -> Z.pos M = Z.pos m * 2 ^ k ->
  -149 <= e + k ->
  shr_fexp 24 128 (Z.pos M) e loc_Exact
  = ({| shr_m := Z.pos m; shr_r := false; shr_s := false |}, e + k).
Proof.
  intros Hm Hk HM He. unfold shr_fexp, fexp, emin.
  change (Zdigits2 (Z.pos M)) with (Z.pos (digits2_pos M)).
  rewrite (digits2_pos_24 m k M) by done.
  rewrite Z.max_l by lia. replace (24 + k + e - 24 - e) with k by lia.
  unfold shr, shr_record_of_loc. destruct k as [|p|p]; [|clear Hk|lia].
  - rewrite Z.add_0_r. rewrite HM. do 2 f_equal. lia.
  - rewrite HM. by rewrite iter_pos_shr_exact.
Qed.

(** A mantissa of 24 digits followed by zeros is not changed by rounding. *)
Lemma binary_round_aux_exact s m k M e :
  2 ^ 23 <= Z.pos m < 2 ^ 24 -> 0 <= k -> Z.pos M = Z.pos m * 2 ^ k ->
  -149 <= e + k <= 104 ->
  binary_round_aux 24 128 s (Z.pos M) e loc_Exact = S754_finite s m (e + k).
Proof.
  intros Hm Hk HM He. unfold binary_round_aux.
  rewrite (shr_fexp_exact m k M e) by (done || lia).
  cbn [shr_m loc_of_shr_record shr_r shr_s round_nearest_even].
  rewrite (shr_fexp_exact m 0 m (e + k)) by lia.
  cbn [shr_m]. rewrite Z.add_0_r.
  destruct (Z.leb_spec (e + k) (128 - 24)); [reflexivity|lia].
Qed.

(** An integer below 2^24 converts to binary32 without rounding. *)
Lemma binary_round_small s p :
  Z.pos p < 2 ^ 24 ->
  exists m e, binary_round 24 128 s p 0 = S754_finite s m e /\
    2 ^ 23 <= Z.pos m < 2 ^ 24 /\ -23 <= e <= 0 /\ Z.pos m = Z.pos p * 2 ^ (- e).
Proof.
  intros Hp. unfold binary_round, fexp, emin.
  change (Zdigits2 (Z.pos p)) with (Z.pos (digits2_pos p)).
  pose proof (digits2_pos_upper p 24 ltac:(lia) Hp) as Hd.
  pose proof (digits2_pos_bounds p) as Hb.
  set (d := Z.pos (digits2_pos p)) in *.
  rewrite Z.max_l by lia. rewrite Z.add_0_r.
  unfold shl_align. destruct (d - 24 - 0) as [|n|n] eqn:Hn.
  - assert (Hd' : d = 24) by lia. rewrite Hd' in Hb.
    change (2 ^ (24 - 1)) with (2 ^ 23) in Hb. exists p, 0.
    rewrite (binary_round_aux_exact s p 0 p) by lia.
    split; [done|]. split; [lia|]. split; lia.
  - lia.
  - unfold shift_pos.
    pose proof (iter_xO_val p n) as Hv. pose proof (iter_xO_digits p n) as Hg.
    fold d in Hg. set (M := Pos.iter xO p n) in *.
    assert (Hd24 : Z.pos (digits2_pos M) = 24) by lia.
    pose proof (digits2_pos_bounds M) as HbM. rewrite Hd24 in HbM.
    change (2 ^ (24 - 1)) with (2 ^ 23) in HbM.
    exists M, (d - 24).
    rewrite (binary_round_aux_exact s M 0 M) by lia.
    rewrite Z.add_0_r. split; [done|]. split; [lia|]. split; [lia|].
    rewrite Hv. do 2 f_equal. lia.
Qed.

Lemma fixed_of_i32_exact i :
  - 2 ^ 24 < i < 2 ^ 24 ->
  F32_finite (fixed_of_i32 i) /\ (F32.to_Q (fixed_of_i32 i) == s15_16 i)%Q.
Proof.
  intros Hi. unfold fixed_of_i32. rewrite F32_2pm16.
  unfold F32.of_Z, F32.mul, F32.prec, F32.emax, binary_normalize, s15_16.
  destruct i as [|p|p]; [split; [done|reflexivity]| |].
  - destruct (binary_round_small false p) as (m & e & -> & Hm & He & Hv); [lia|].
    rewrite SFmul_finite.
    rewrite (binary_round_aux_exact _ m 23 (m * 8388608)) by (rewrite ?Pos2Z.inj_mul; lia).
    split; [done|]. unfold F32.to_Q. cbn [xorb].
    destruct (Z.leb_spec 0 (e + -39 + 23)); [lia|].
    unfold Qeq. cbn [Qnum Qden].
    assert (Hp : 0 < 2 ^ (- e)) by (apply Z.pow_pos_nonneg; lia).
    rewrite Z2Pos.id by (apply Z.pow_pos_nonneg; lia).
    replace (- (e + -39 + 23)) with (16 + - e) by lia.
    rewrite Z.pow_add_r by lia. rewrite Hv. change (2 ^ 16) with 65536.
    change (Z.pos 65536) with 65536. lia.
  - destruct (binary_round_small true p) as (m & e & -> & Hm & He & Hv); [lia|].
    rewrite SFmul_finite.
    rewrite (binary_round_aux_exact _ m 23 (m * 8388608)) by (rewrite ?Pos2Z.inj_mul; lia).
    split; [done|]. unfold F32.to_Q. cbn [xorb].
    destruct (Z.leb_spec 0 (e + -39 + 23)); [lia|].
    unfold Qeq, Qopp. cbn [Qnum Qden].
    assert (Hp : 0 < 2 ^ (- e)) by (apply Z.pow_pos_nonneg; lia).
    rewrite Z2Pos.id by (apply Z.pow_pos_nonneg; lia).
    replace (- (e + -39 + 23)) with (16 + - e) by lia.
    rewrite Z.pow_add_r by lia. change (2 ^ 16) with 65536.
    change (Z.pos 65536) with 65536. rewrite Hv.
    change (Z.neg p) with (- Z.pos p). lia.
Qed.

(** X27. An s15.16 number of magnitude below 256 is read without rounding: the
    binary32 returned is the number itself. *)
Theorem read_big_fixed_exact mem ptr i :
  read_big_i32 mem ptr = Some i ->
  - 2 ^ 24 < i < 2 ^ 24 ->
  exists x, read_big_fixed mem ptr = Some x /\ F32_finite x /\
            (F32.to_Q x == s15_16 i)%Q.
Proof.
  intros Hr Hi. unfold read_big_fixed. rewrite Hr. cbn [mbind option_bind].
  exists (fixed_of_i32 i). split; [done|]. by apply fixed_of_i32_exact.
Qed.

(** ** A buffer shorter than the header *)

(** X4. On fewer than 132 bytes [skcms_Parse] returns false without reading
    the buffer and leaves the zeroed profile, on which every accessor returns
    false (or, for [skcms_GetTagByIndex], returns) without touching its
    output: the case of the unit test of the parser. *)
Theorem skcms_Parse_short_buffer approximate malloc buf len :
  len < 132 ->
  skcms_Parse buf len = Some (false, ICCProfile_zero) /\
  (forall sig tag, skcms_GetTagBySignature ICCProfile_zero sig tag = Some (false, tag)) /\
  (forall idx tag, skcms_GetTagByIndex ICCProfile_zero idx tag = Some tag) /\
  (forall t, get_transfer_function ICCProfile_zero t = Some (false, t)) /\
  (forall m, read_to_XYZD50 ICCProfile_zero m = Some (false, m)) /\
  (forall mft, skcms_GetMultiFunctionTable ICCProfile_zero mft = Some (false, mft)) /\
  (forall fn me,
     skcms_ApproximateTransferFunction approximate malloc ICCProfile_zero fn me
     = Some (false, fn, me)).
Proof.
  intros Hlen. split; [by apply skcms_Parse_short|]. repeat split.
Qed.

(** ** The further theorems at concrete profiles *)

Lemma skcms_Parse_memory_safe_witness :
  exists ok p, skcms_Parse Fixture.gamma_profile 280 = Some (ok, p).
Proof. apply skcms_Parse_memory_safe. simpl. lia. Defined.

Lemma skcms_Parse_any_len_witness :
  skcms_Parse Fixture.gamma_profile 1000 = Some (true, Parsed.gamma).
Proof.
  apply (skcms_Parse_any_len Fixture.gamma_profile 280).
  - vm_compute. reflexivity.
  - assert (E : size Parsed.gamma = 280) by (vm_compute; reflexivity). rewrite E. lia.
Defined.

Lemma skcms_GetTagBySignature_in_profile_witness :
  4 <= 20 /\ 0 <= 220 /\ 220 + 20 <= size Parsed.gamma /\
  read_big_u32 Fixture.gamma_profile 220 = Some sig_XYZ.
Proof.
  destruct (skcms_GetTagBySignature_in_profile Fixture.gamma_profile 280 Parsed.gamma
              sig_rXYZ ICCTag_uninit
              {| tag_signature := sig_rXYZ; tag_type := sig_XYZ; tag_size := 20;
                 tag_buf := 220 |})
    as (_ & H1 & H2 & H3 & _ & H4).
  - simpl. lia.
  - vm_compute. reflexivity.
  - vm_compute. reflexivity.
  - repeat split; assumption.
Defined.

Lemma skcms_GetTagBySignature_missing_witness :
  (exists r, skcms_GetTagBySignature Parsed.gamma sig_A2B0 ICCTag_uninit = Some (false, r)) <->
  forall j, 0 <= j < tag_count Parsed.gamma ->
            exists e, entry_fields Fixture.gamma_profile j = Some e /\ e.1.1 <> sig_A2B0.
Proof.
  apply (skcms_GetTagBySignature_missing Fixture.gamma_profile 280 Parsed.gamma).
  - simpl. lia.
  - vm_compute. reflexivity.
Defined.

Lemma skcms_GetTagBySignature_first_match_witness :
  exists j, 0 <= j < tag_count Parsed.gamma /\
    tag_of_entry Fixture.gamma_profile j
    = Some {| tag_signature := sig_gTRC; tag_type := sig_curv; tag_size := 16;
              tag_buf := 204 |}.
Proof.
  destruct (proj1 (skcms_GetTagBySignature_first_match Fixture.gamma_profile 280 Parsed.gamma
                     sig_gTRC ICCTag_uninit
                     {| tag_signature := sig_gTRC; tag_type := sig_curv; tag_size := 16;
                        tag_buf := 204 |}
                     ltac:(simpl; lia) ltac:(vm_compute; reflexivity)))
    as (j & Hj & Ht & _).
  - vm_compute. reflexivity.
  - exists j. split; assumption.
Defined.

Lemma skcms_GetTagByIndex_in_profile_witness :
  exists t, skcms_GetTagByIndex Parsed.gamma 3 ICCTag_uninit = Some t /\
            tag_of_entry Fixture.gamma_profile 3 = Some t /\
            4 <= tag_size t /\ 0 <= tag_buf t /\ tag_buf t + tag_size t <= size Parsed.gamma /\
            read_big_u32 Fixture.gamma_profile (tag_buf t) = Some (tag_type t).
Proof.
  apply (skcms_GetTagByIndex_in_profile Fixture.gamma_profile 280 Parsed.gamma).
  - simpl. lia.
  - vm_compute. reflexivity.
  - assert (E : tag_count Parsed.gamma = 6) by (vm_compute; reflexivity). rewrite E. lia.
Defined.

Lemma skcms_GetTagByIndex_then_BySignature_witness :
  exists j t', 0 <= j <= 4 /\ tag_of_entry Fixture.gamma_profile j = Some t' /\
    tag_signature t' = sig_gXYZ /\
    skcms_GetTagBySignature Parsed.gamma sig_gXYZ ICCTag_uninit = Some (true, t').
Proof.
  apply (skcms_GetTagByIndex_then_BySignature Fixture.gamma_profile 280 Parsed.gamma 4
           ICCTag_uninit ICCTag_uninit
           {| tag_signature := sig_gXYZ; tag_type := sig_XYZ; tag_size := 20;
              tag_buf := 240 |}).
  - simpl. lia.
  - vm_compute. reflexivity.
  - assert (E : tag_count Parsed.gamma = 6) by (vm_compute; reflexivity). rewrite E. lia.
  - vm_compute. reflexivity.
Defined.

Lemma skcms_GetMultiFunctionTable_tables_witness :
  exists a2b,
    skcms_GetTagBySignature Parsed.a2b sig_A2B0 ICCTag_uninit = Some (true, a2b) /\
    grid Parsed.a2b_table
    = Some (tag_buf a2b + (if tag_type a2b =? sig_mft1 then 48 else 52)
            + input_channels Parsed.a2b_table
              * (input_table_size Parsed.a2b_table * table_byte_width Parsed.a2b_table)).
Proof.
  destruct (skcms_GetMultiFunctionTable_tables Fixture.a2b_profile 1222 Parsed.a2b
              MultiFunctionTable_zero Parsed.a2b_table)
    as (a2b & Hf & _ & _ & Hg & _).
  - simpl. lia.
  - vm_compute. reflexivity.
  - reflexivity.
  - reflexivity.
  - vm_compute. reflexivity.
  - exists a2b. split; assumption.
Defined.

Lemma skcms_GetMultiFunctionTable_matrix_witness :
  exists a2b,
    skcms_GetTagBySignature Parsed.a2b sig_A2B0 ICCTag_uninit = Some (true, a2b) /\
    exists v, get_val (matrix Parsed.a2b_table) 1 2 = Some v /\
              read_big_fixed (bytes_of Parsed.a2b)
                (tag_buf a2b + 12 + 4 * Z.of_nat (3 * 1 + 2)) = Some v.
Proof.
  destruct (skcms_GetMultiFunctionTable_matrix Parsed.a2b MultiFunctionTable_zero
              Parsed.a2b_table) as (a2b & Hf & Hm).
  - split; [reflexivity|]. repeat constructor.
  - vm_compute. reflexivity.
  - exists a2b. split; [assumption|]. apply Hm; lia.
Defined.

Lemma skcms_GetMultiFunctionTable_memory_safe_witness :
  exists ok mft',
    skcms_GetMultiFunctionTable Parsed.a2b MultiFunctionTable_zero = Some (ok, mft').
Proof.
  apply (skcms_GetMultiFunctionTable_memory_safe Fixture.a2b_profile 1222).
  - simpl. lia.
  - vm_compute. reflexivity.
Defined.

Lemma skcms_GetMultiFunctionTable_false_witness :
  input_tables MultiFunctionTable_zero = input_tables MultiFunctionTable_zero /\
  grid MultiFunctionTable_zero = grid MultiFunctionTable_zero /\
  output_tables MultiFunctionTable_zero = output_tables MultiFunctionTable_zero.
Proof.
  apply (skcms_GetMultiFunctionTable_false Parsed.gamma MultiFunctionTable_zero).
  vm_compute. reflexivity.
Defined.

Lemma skcms_GetMultiFunctionTable_accepts_witness :
  exists mft',
    skcms_GetMultiFunctionTable Parsed.a2b MultiFunctionTable_zero = Some (true, mft') /\
    input_channels mft' = 1 /\ grid_points mft' = 2.
Proof.
  destruct (skcms_GetMultiFunctionTable_accepts Fixture.a2b_profile 1222 Parsed.a2b
              MultiFunctionTable_zero Parsed.a2b_table)
    as (mft' & H & E1 & _ & E3 & _).
  - simpl. lia.
  - vm_compute. reflexivity.
  - exists {| tag_signature := sig_A2B0; tag_type := sig_mft1; tag_size := 1078;
              tag_buf := 144 |}, 1, 3, 2, 256, 256, 1, 48.
    split; [vm_compute; reflexivity|].
    split; [unfold mft_common_ok; repeat split; try (vm_compute; reflexivity); lia|].
    split; [left; repeat split; vm_compute; reflexivity|].
    split; [simpl; lia|]. split; [unfold mft_fits; simpl; lia|].
    repeat split; vm_compute; reflexivity.
  - exists mft'. split; [assumption|]. split; [exact E1|exact E3].
Defined.

Lemma read_curve_table_in_tag_witness :
  table (Curve_table 12 2) = Some (0 + 12) /\ 2 <= table_size (Curve_table 12 2).
Proof.
  destruct (read_curve_table_in_tag (Fixture.curv_table2 0 65535) 0 16 Curve_uninit
              (Curve_table 12 2)) as [[H _]|(H1 & H2 & _)].
  - vm_compute. reflexivity.
  - discriminate H.
  - split; assumption.
Defined.

Lemma read_curve_memory_safe_witness :
  exists ok c, read_curve (Fixture.curv_table2 0 65535) 0 16 Curve_uninit = Some (ok, c).
Proof. apply read_curve_memory_safe; [lia|simpl; lia]. Defined.

Lemma read_curve_assigns_all_witness :
  read_curve (Fixture.curv_gamma 0x0233) 0 16 (Curve_table 0 5)
  = Some (true, Curve_parametric (TransferFunction_gamma (gamma_of_u16 0x0233))).
Proof.
  apply (read_curve_assigns_all _ _ _ Curve_uninit). vm_compute. reflexivity.
Defined.

Lemma read_curve_parameters_not_nan_witness :
  TransferFunction_no_nan (TransferFunction_gamma (gamma_of_u16 0x0233)).
Proof.
  apply (read_curve_parameters_not_nan (Fixture.curv_gamma 0x0233) 0 16 Curve_uninit
           (Curve_parametric (TransferFunction_gamma (gamma_of_u16 0x0233)))).
  vm_compute. reflexivity.
Defined.

Lemma table_t_unit_interval_witness :
  (0 <= F32.to_Q (table_t 32768) <= 1)%Q.
Proof.
  destruct (table_t_unit_interval 32768) as (_ & H & _); [lia|exact H].
Defined.

Lemma skcms_ApproximateTransferFunction_parametric_witness :
  skcms_ApproximateTransferFunction Sample.accept_all Sample.malloc_ok Parsed.gamma
    TransferFunction_zero None
  = Some (false, TransferFunction_zero, None).
Proof.
  apply (skcms_ApproximateTransferFunction_parametric _ _ Fixture.gamma_profile 280).
  - simpl. lia.
  - vm_compute. reflexivity.
  - vm_compute. reflexivity.
Defined.

Lemma skcms_ApproximateTransferFunction_samples_witness :
  (true, TransferFunction_zero, @None spec_float) = (false, TransferFunction_zero, None)
  \/
  exists r g b c0 c1 c2 u0 u1 u2,
    skcms_GetTagBySignature Sample.table sig_rTRC ICCTag_uninit = Some (true, r) /\
    skcms_GetTagBySignature Sample.table sig_gTRC ICCTag_uninit = Some (true, g) /\
    skcms_GetTagBySignature Sample.table sig_bTRC ICCTag_uninit = Some (true, b) /\
    read_curve (bytes_of Sample.table) (tag_buf r) (tag_size r) Curve_uninit
    = Some (true, c0) /\
    read_curve (bytes_of Sample.table) (tag_buf g) (tag_size g) Curve_uninit
    = Some (true, c1) /\
    read_curve (bytes_of Sample.table) (tag_buf b) (tag_size b) Curve_uninit
    = Some (true, c2) /\
    table_entries (bytes_of Sample.table) (tag_buf r + 12) (table_size c0) = Some u0 /\
    table_entries (bytes_of Sample.table) (tag_buf g + 12) (table_size c1) = Some u1 /\
    table_entries (bytes_of Sample.table) (tag_buf b + 12) (table_size c2) = Some u2 /\
    2 <= table_size c0 /\ 2 <= table_size c1 /\ 2 <= table_size c2 /\
    table_size c0 + table_size c1 + table_size c2 <= INT_MAX /\
    (true, TransferFunction_zero, @None spec_float)
    = Sample.accept_all TransferFunction_zero
        ((table_x (table_size c0) <$> seqZ 0 (table_size c0))
         ++ (table_x (table_size c1) <$> seqZ 0 (table_size c1))
         ++ (table_x (table_size c2) <$> seqZ 0 (table_size c2)))
        (table_t <$> (u0 ++ u1 ++ u2))
        (table_size c0 + table_size c1 + table_size c2) None.
Proof.
  apply (skcms_ApproximateTransferFunction_samples Sample.accept_all Sample.malloc_ok
           Sample.table TransferFunction_zero None).
  vm_compute. reflexivity.
Defined.

Lemma skcms_ApproximateTransferFunction_memory_safe_witness :
  exists res,
    skcms_ApproximateTransferFunction Sample.accept_all Sample.malloc_ok Sample.table
      TransferFunction_zero None = Some res.
Proof.
  apply (skcms_ApproximateTransferFunction_memory_safe _ _ Fixture.table_profile 184).
  - simpl. lia.
  - vm_compute. reflexivity.
  - reflexivity.
Defined.

Lemma read_big_endian_witness :
  read_big_u32 (Fixture.be32 0x01020304) 0 = Some (1 * 2 ^ 24 + 2 * 2 ^ 16 + 3 * 2 ^ 8 + 4).
Proof.
  destruct (read_big_endian (Fixture.be32 0x01020304) 0) as (_ & H & _).
  rewrite H. reflexivity.
Defined.

Lemma make_signature_bytes_witness :
  read_u8 (Fixture.curv_gamma 0x0233) 0 = Some (chr "c") /\
  read_u8 (Fixture.curv_gamma 0x0233) (0 + 1) = Some (chr "u") /\
  read_u8 (Fixture.curv_gamma 0x0233) (0 + 2) = Some (chr "r") /\
  read_u8 (Fixture.curv_gamma 0x0233) (0 + 3) = Some (chr "v").
Proof.
  apply (make_signature_bytes (Fixture.curv_gamma 0x0233) 0
           (chr "c") (chr "u") (chr "r") (chr "v")).
  - vm_compute. split; [discriminate|reflexivity].
  - vm_compute. split; [discriminate|reflexivity].
  - vm_compute. split; [discriminate|reflexivity].
  - vm_compute. split; [discriminate|reflexivity].
  - vm_compute. reflexivity.
Defined.

Lemma skcms_Parse_header_fields_witness :
  read_big_u32 Fixture.gamma_profile 8 = Some (version Parsed.gamma) /\
  read_big_u32 Fixture.gamma_profile 128 = Some (tag_count Parsed.gamma).
Proof.
  destruct (skcms_Parse_header_fields Fixture.gamma_profile 280 true Parsed.gamma)
    as (_ & _ & _ & H1 & _ & _ & _ & _ & _ & _ & _ & _ & _ & _ & _ & _ & _ & _ & _ & _ & H2).
  - lia.
  - vm_compute. reflexivity.
  - split; assumption.
Defined.

Lemma skcms_Parse_toXYZD50_partial_witness :
  has_toXYZD50 Sample.partial_xyz = false /\
  exists cr, get_val (toXYZD50 Sample.partial_xyz) 0 0 = Some cr.1.1 /\
             get_val (toXYZD50 Sample.partial_xyz) 1 0 = Some cr.1.2 /\
             get_val (toXYZD50 Sample.partial_xyz) 2 0 = Some cr.2.
Proof.
  assert (Hlen : 204 <= Z.of_nat (length Sample.partial_xyz_profile)) by (simpl; lia).
  assert (Hp : skcms_Parse Sample.partial_xyz_profile 204 = Some (true, Sample.partial_xyz))
    by (vm_compute; reflexivity).
  destruct (skcms_Parse_toXYZD50_partial Sample.partial_xyz_profile 204 Sample.partial_xyz
              {| tag_signature := sig_rXYZ; tag_type := sig_XYZ; tag_size := 20;
                 tag_buf := 168 |}
              {| tag_signature := sig_gXYZ; tag_type := sig_curv; tag_size := 16;
                 tag_buf := 188 |}
              {| tag_signature := sig_bXYZ; tag_type := sig_curv; tag_size := 16;
                 tag_buf := 188 |} Hlen Hp)
    as (H & cr & _ & H0 & H1 & H2).
  - apply (skcms_Parse_lookup _ _ _ _ _ Hlen Hp). vm_compute. reflexivity.
  - apply (skcms_Parse_lookup _ _ _ _ _ Hlen Hp). vm_compute. reflexivity.
  - apply (skcms_Parse_lookup _ _ _ _ _ Hlen Hp). vm_compute. reflexivity.
  - split; [vm_compute; reflexivity|simpl; lia].
  - intros [[Hty _] _]. vm_compute in Hty. discriminate Hty.
  - split; [assumption|]. exists cr. repeat split; assumption.
Defined.

Lemma read_big_fixed_exact_witness :
  exists x, read_big_fixed (Fixture.be32 0x0000F6D6) 0 = Some x /\ F32_finite x /\
            (F32.to_Q x == s15_16 63190)%Q.
Proof.
  apply read_big_fixed_exact; [vm_compute; reflexivity|lia].
Defined.

Lemma skcms_Parse_short_buffer_witness :
  skcms_Parse Fixture.one_byte 1 = Some (false, ICCProfile_zero).
Proof.
  destruct (skcms_Parse_short_buffer Sample.accept_all Sample.malloc_ok Fixture.one_byte 1)
    as [H _]; [lia|exact H].
Defined.

Lemma table_x_endpoints_witness :
  table_x 256 0 = F32.zero /\ table_x 256 (256 - 1) = F32.one.
Proof. apply table_x_endpoints. lia. Defined.

Lemma skcms_ApproximateTransferFunction_malloc_null_witness :
  skcms_ApproximateTransferFunction Sample.accept_all Sample.malloc_null Sample.table
    TransferFunction_zero None = None.
Proof.
  apply (skcms_ApproximateTransferFunction_malloc_null _ _ Sample.table _ _
           {| tag_signature := sig_rTRC; tag_type := sig_curv; tag_size := 16;
              tag_buf := 168 |}
           {| tag_signature := sig_gTRC; tag_type := sig_curv; tag_size := 16;
              tag_buf := 168 |}
           {| tag_signature := sig_bTRC; tag_type := sig_curv; tag_size := 16;
              tag_buf := 168 |}
           (Curve_table 180 2) (Curve_table 180 2) (Curve_table 180 2)).
  - vm_compute. reflexivity.
  - vm_compute. reflexivity.
  - vm_compute. reflexivity.
  - vm_compute. reflexivity.
  - vm_compute. reflexivity.
  - vm_compute. reflexivity.
  - discriminate.
  - discriminate.
  - discriminate.
  - vm_compute. discriminate.
  - reflexivity.
Defined.
